(** * sharp: option validation and job-descriptor assembly

    A shallow embedding of [lib/output.js] (output option resolvers,
    metadata-intent resolvers, [toFormat], [toFile], [toBuffer] and the
    readable side) and of [lib/input.js] ([_createInputDescriptor] and the
    writable side), followed by the properties of the specification that
    concern them and by further properties of the code.

    JavaScript values are an inductive type, numbers are binary64 floats
    (Rocq's primitive floats), [this.options] is a property list that the
    resolvers update in place, and a call either completes normally or
    throws, in both cases leaving the instance as mutated so far. *)

From Stdlib Require Import QArith Qabs.
From Stdlib Require Import ZArith List String Ascii Bool Lia.
From Stdlib Require Import Floats Uint63 DecimalString.
Import ListNotations.

#[local] Set Warnings "-register-all,-inexact-float".
Local Open Scope string_scope.
Local Open Scope Z_scope.

(* ===================================================================== *)
(** * JavaScript values *)
(* ===================================================================== *)

Module JS.

(** The nine typed-array constructors that [switch (input.constructor)]
    of [_createInputDescriptor] distinguishes. *)
Inductive TypedArray :=
| Uint8Array | Uint8ClampedArray | Int8Array
| Uint16Array | Int16Array
| Uint32Array | Int32Array
| Float32Array | Float64Array.

Definition BYTES_PER_ELEMENT (k : TypedArray) : nat :=
  match k with
  | Uint8Array | Uint8ClampedArray | Int8Array => 1
  | Uint16Array | Int16Array => 2
  | Uint32Array | Int32Array | Float32Array => 4
  | Float64Array => 8
  end%nat.

(** A value.  An object is the list of its own enumerable properties in
    enumeration order; a typed array is a window ([byteOffset], [length]
    in elements) on the bytes of its underlying [ArrayBuffer]. *)
Inductive value :=
| VUndefined
| VNull
| VBool (b : bool)
| VNum (x : float)
| VStr (s : string)
| VObj (properties : list (string * value))
| VArr (elements : list value)
| VFun (id : nat)
| VBuffer (bytes : list Byte.byte)
| VArrayBuffer (bytes : list Byte.byte)
| VTypedArray (k : TypedArray) (buffer : list Byte.byte) (byteOffset length : nat).

Arguments VNum x%_float.

Definition props := list (string * value).

(** [o[k]] on a property list: [undefined] when [k] is not a property. *)
Fixpoint get (k : string) (o : props) : value :=
  match o with
  | [] => VUndefined
  | (k', v) :: rest => if String.eqb k k' then v else get k rest
  end.

(** [o[k] = v]: overwrite in place, or append a new property. *)
Fixpoint set (k : string) (v : value) (o : props) : props :=
  match o with
  | [] => [(k, v)]
  | (k', v') :: rest =>
      if String.eqb k k' then (k, v) :: rest else (k', v') :: set k v rest
  end.

(** [delete o[k]]. *)
Fixpoint delete (k : string) (o : props) : props :=
  match o with
  | [] => []
  | (k', v') :: rest =>
      if String.eqb k k' then rest else (k', v') :: delete k rest
  end.

(** ** Numbers *)

(** The double of an integer (exact for magnitudes up to 2^53). *)
Definition num (z : Z) : float :=
  if z <? 0 then PrimFloat.opp (PrimFloat.of_uint63 (Uint63.of_Z (- z)))
  else PrimFloat.of_uint63 (Uint63.of_Z z).

(** The integer a double denotes, when it is finite and integral. *)
Definition integral (x : float) : option Z :=
  match Prim2SF x with
  | S754_zero _ => Some 0
  | S754_finite s m e =>
      let sign := if s then -1 else 1 in
      if 0 <=? e then Some (sign * (Z.pos m * 2 ^ e))
      else if Z.pos m mod 2 ^ (- e) =? 0 then Some (sign * (Z.pos m / 2 ^ (- e)))
      else None
  | _ => None
  end.

(** The integral part of a finite double, rounding towards zero; 0 for
    NaN and the infinities (the first step of [ToInt32]). *)
Definition truncate (x : float) : Z :=
  match Prim2SF x with
  | S754_finite s m e =>
      let mag := if 0 <=? e then Z.pos m * 2 ^ e else Z.pos m / 2 ^ (- e) in
      if s then - mag else mag
  | _ => 0
  end.

(** Wrap-around of an integer into the signed 32-bit range. *)
Definition int32 (z : Z) : Z :=
  let u := z mod 2 ^ 32 in
  if u <? 2 ^ 31 then u else u - 2 ^ 32.

(** [ToNumber] on the primitive values.  A string or an object converts
    through the runtime's numeric parser, which is not modelled: those
    operands are NaN here and no property below relies on them. *)
Definition ToNumber (v : value) : float :=
  match v with
  | VNum x => x
  | VNull | VBool false => 0%float
  | VBool true => 1%float
  | _ => PrimFloat.nan
  end.

Definition ToInt32 (v : value) : Z := int32 (truncate (ToNumber v)).

(** [a | b], [a & b] and [~a] on 32-bit integers. *)
Definition bitor (a b : value) : value :=
  VNum (num (int32 (Z.lor (ToInt32 a) (ToInt32 b)))).
Definition bitand (a b : value) : value :=
  VNum (num (int32 (Z.land (ToInt32 a) (ToInt32 b)))).
Definition bitnot (a : value) : value :=
  VNum (num (int32 (Z.lnot (ToInt32 a)))).

(** [a << b]: the left operand as a 32-bit integer, the shift count
    modulo 32, the result wrapped to 32 bits. *)
Definition shl32 (a b : Z) : Z := int32 (Z.shiftl (int32 a) (b mod 32)).

(** [Math.clz32]: leading zero bits of the unsigned 32-bit operand. *)
Definition Math_clz32 (z : Z) : Z :=
  let u := z mod 2 ^ 32 in
  if u =? 0 then 32 else 31 - Z.log2 u.

(** [Math.ceil(Math.log2(n))] at an integer [n >= 1]: the least [k]
    with [n <= 2^k]. *)
Definition Math_ceil_log2 (n : Z) : Z := Z.log2_up n.

(** ** Truthiness, [||], [===] *)

Definition truthy (v : value) : bool :=
  match v with
  | VUndefined | VNull => false
  | VBool b => b
  | VNum x => negb (PrimFloat.is_nan x || PrimFloat.is_zero x)
  | VStr s => negb (String.eqb s "")
  | _ => true
  end.

(** [a || b]. *)
Definition or_else (a b : value) : value := if truthy a then a else b.

(** [v === false], [v === 'text']. *)
Definition is_false (v : value) : bool :=
  match v with VBool false => true | _ => false end.
Definition eq_str (v : value) (s : string) : bool :=
  match v with VStr s' => String.eqb s' s | _ => false end.

(** ** Strings *)

(** The text of a string value. *)
Definition text_of (v : value) : string :=
  match v with VStr s => s | _ => "" end.

Definition lower_ascii (c : ascii) : ascii :=
  let n := nat_of_ascii c in
  if (65 <=? n)%nat && (n <=? 90)%nat then ascii_of_nat (n + 32) else c.

(** [s.toLowerCase()] on ASCII text. *)
Fixpoint toLowerCase (s : string) : string :=
  match s with
  | EmptyString => EmptyString
  | String c rest => String (lower_ascii c) (toLowerCase rest)
  end.

Definition of_nat (n : nat) : string := NilZero.string_of_uint (Nat.to_uint n).

(** Index keys ["0"], ["1"], ... paired with the elements. *)
Fixpoint indexed (i : nat) (l : list value) : props :=
  match l with
  | [] => []
  | v :: rest => (of_nat i, v) :: indexed (S i) rest
  end.

(** ** Elements of binary containers *)

(** Little-endian unsigned reading of a byte sequence. *)
Fixpoint le_unsigned (bs : list Byte.byte) : Z :=
  match bs with
  | [] => 0
  | b :: rest => Z.of_N (Byte.to_N b) + 256 * le_unsigned rest
  end.

Definition le_signed (bs : list Byte.byte) : Z :=
  let w := 8 * Z.of_nat (List.length bs) in
  let u := le_unsigned bs in
  if u <? 2 ^ (w - 1) then u else u - 2 ^ w.

(** The double denoted by an IEEE 754 bit pattern with [ebits] exponent
    bits and [mbits] fraction bits. *)
Definition of_bits (ebits mbits : Z) (u : Z) : float :=
  let m := u mod 2 ^ mbits in
  let e := (u / 2 ^ mbits) mod 2 ^ ebits in
  let s := Z.testbit u (ebits + mbits) in
  let bias := 2 ^ (ebits - 1) - 1 in
  SF2Prim
    (if e =? 2 ^ ebits - 1 then (if m =? 0 then S754_infinity s else S754_nan)
     else if e =? 0 then
       match m with Z.pos p => S754_finite s p (1 - bias - mbits) | _ => S754_zero s end
     else
       match m + 2 ^ mbits with
       | Z.pos p => S754_finite s p (e - bias - mbits)
       | _ => S754_zero s
       end).

(** One element of a typed array from its bytes (little-endian, as on
    the platforms the library is built for). *)
Definition element (k : TypedArray) (bs : list Byte.byte) : float :=
  match k with
  | Uint8Array | Uint8ClampedArray | Uint16Array | Uint32Array => num (le_unsigned bs)
  | Int8Array | Int16Array | Int32Array => num (le_signed bs)
  | Float32Array => of_bits 8 23 (le_unsigned bs)
  | Float64Array => of_bits 11 52 (le_unsigned bs)
  end.

Definition elements (k : TypedArray) (buffer : list Byte.byte)
    (byteOffset length : nat) : list value :=
  let w := BYTES_PER_ELEMENT k in
  List.map
    (fun i => VNum (element k (firstn w (skipn (byteOffset + i * w) buffer))))
    (seq 0 length).

(** [Object.entries(v)] for a value that is not [null] or [undefined]. *)
Definition entries (v : value) : props :=
  match v with
  | VObj ps => ps
  | VArr l => indexed 0 l
  | VStr s => indexed 0 (List.map (fun c => VStr (String c "")) (list_ascii_of_string s))
  | VBuffer bs => indexed 0 (List.map (fun b => VNum (num (Z.of_N (Byte.to_N b)))) bs)
  | VTypedArray k buffer off len => indexed 0 (elements k buffer off len)
  | _ => []
  end.

End JS.
Export JS.

(* ===================================================================== *)
(** * Errors, the instance and the monad of a method call *)
(* ===================================================================== *)

(** A message is a template: literal text and interpolated values. *)
Inductive fragment := Text (s : string) | Interp (v : value).
Definition template := list fragment.

Inductive error :=
| Error (message : template)
| InvalidParameterError (name : string) (expected : template) (actual : value)
| TypeError.

(** What the methods read from [this.constructor]: the engine's build-time
    capabilities ([format.jp2k.output.file], [format.jp2k.output.buffer])
    and [versions.heif], defined on prebuilt binaries only. *)
Record Constructor := {
  jp2k_output_file : bool;
  jp2k_output_buffer : bool;
  versions_heif : value
}.

(** The instance a method is called on: [this.options] and
    [this.constructor]. *)
Record Sharp := {
  options : props;
  constructor : Constructor
}.

Inductive completion (A : Type) :=
| Normal (a : A)
| Throw (e : error).
Arguments Normal {A} a.
Arguments Throw {A} e.

(** A computation over a mutable state: it completes normally or throws,
    and the state it leaves keeps every write made before. *)
Definition St (S A : Type) := S -> completion A * S.

(** A method body runs on the instance. *)
Definition M (A : Type) := St Sharp A.

Definition ret {S A} (a : A) : St S A := fun st => (Normal a, st).
Definition throw {S A} (e : error) : St S A := fun st => (Throw e, st).
Definition bind {S A B} (m : St S A) (k : A -> St S B) : St S B :=
  fun st =>
    match m st with
    | (Normal a, st') => k a st'
    | (Throw e, st') => (Throw e, st')
    end.

Declare Scope js_scope.
Delimit Scope js_scope with js.
Notation "x <- m ;; k" := (bind m (fun x => k))
  (at level 61, m at next level, right associativity) : js_scope.
Notation "m ;; k" := (bind m (fun _ => k))
  (at level 61, right associativity) : js_scope.
Local Open Scope js_scope.

(** [this.options[key]] and [this.options[key] = v]. *)
Definition read (key : string) : M value :=
  fun this => (Normal (get key (options this)), this).
Definition write (key : string) (v : value) : M unit :=
  fun this =>
    (Normal tt, {| options := set key v (options this);
                   constructor := constructor this |}).
Definition this_constructor : M Constructor :=
  fun this => (Normal (constructor this), this).

(** The properties of [v] for a read [v.name]: a [TypeError] on [null]
    and [undefined], no named property on a primitive. *)
Definition properties {S} (v : value) : St S props :=
  match v with
  | VUndefined | VNull => throw TypeError
  | VObj ps => ret ps
  | _ => ret []
  end.

Definition when {S} (b : bool) (m : St S unit) : St S unit :=
  if b then m else ret tt.

(* ===================================================================== *)
(** * Option predicates *)
(* ===================================================================== *)

(** The predicates of [lib/is.js], a file of this repository that is not
    among the sources.  The specification treats them as primitive type,
    range and membership checks; each one has the meaning its name and
    its uses in [output.js] and [input.js] give it. *)

(** Modelled from the spec: [is.defined] of the missing [lib/is.js],
    neither [undefined] nor [null]. *)
Definition is_defined (v : value) : bool :=
  match v with VUndefined | VNull => false | _ => true end.

(** Modelled from the spec: [is.object] of the missing [lib/is.js],
    [typeof v === 'object']. *)
Definition is_object (v : value) : bool :=
  match v with
  | VNull | VObj _ | VArr _ | VBuffer _ | VArrayBuffer _ | VTypedArray _ _ _ _ => true
  | _ => false
  end.

(** Modelled from the spec: [is.plainObject] of the missing [lib/is.js]. *)
Definition is_plainObject (v : value) : bool :=
  match v with VObj _ => true | _ => false end.

(** Modelled from the spec: [is.fn] of the missing [lib/is.js]. *)
Definition is_fn (v : value) : bool :=
  match v with VFun _ => true | _ => false end.

(** Modelled from the spec: [is.bool] of the missing [lib/is.js]. *)
Definition is_bool (v : value) : bool :=
  match v with VBool _ => true | _ => false end.

(** Modelled from the spec: [is.buffer] of the missing [lib/is.js]. *)
Definition is_buffer (v : value) : bool :=
  match v with VBuffer _ => true | _ => false end.

(** Modelled from the spec: [is.typedArray] of the missing [lib/is.js]. *)
Definition is_typedArray (v : value) : bool :=
  match v with VTypedArray _ _ _ _ => true | _ => false end.

(** Modelled from the spec: [is.arrayBuffer] of the missing [lib/is.js]. *)
Definition is_arrayBuffer (v : value) : bool :=
  match v with VArrayBuffer _ => true | _ => false end.

(** Modelled from the spec: [is.string] of the missing [lib/is.js], a
    string with at least one character. *)
Definition is_string (v : value) : bool :=
  match v with VStr s => negb (String.eqb s "") | _ => false end.

(** Modelled from the spec: [is.number] of the missing [lib/is.js], a
    number other than NaN. *)
Definition is_number (v : value) : bool :=
  match v with VNum x => negb (PrimFloat.is_nan x) | _ => false end.

(** Modelled from the spec: [is.integer] of the missing [lib/is.js],
    [Number.isInteger]. *)
Definition is_integer (v : value) : bool :=
  match v with
  | VNum x => match integral x with Some _ => true | None => false end
  | _ => false
  end.

(** Modelled from the spec: [is.inRange] of the missing [lib/is.js],
    [min <= v <= max]. *)
Definition is_inRange (v : value) (min max : float) : bool :=
  PrimFloat.leb min (ToNumber v) && PrimFloat.leb (ToNumber v) max.
Arguments is_inRange v (min max)%_float.

(** Modelled from the spec: [is.inArray] of the missing [lib/is.js],
    membership in a list of strings. *)
Definition is_inArray (v : value) (list : list string) : bool :=
  match v with
  | VStr s => existsb (String.eqb s) list
  | _ => false
  end.

(** Modelled from the spec: [is.inArray] of the missing [lib/is.js],
    membership in a list of numbers. *)
Definition is_inNumbers (v : value) (list : list float) : bool :=
  match v with
  | VNum x => existsb (PrimFloat.eqb x) list
  | _ => false
  end.

(** Modelled from the spec: [is.invalidParameterError] of the missing
    [lib/is.js], the uniformly shaped validation error: the field, the
    expected constraint, the received value. *)
Definition invalidParameterError (name expected : string) (actual : value) : error :=
  InvalidParameterError name [Text expected] actual.

Notation "o .[ k ]" := (get k o) (at level 1, left associativity, format "o .[ k ]").

(** [if (ok) { body } else { throw is.invalidParameterError(...) }] *)
Definition check {S} (ok : bool) (name expected : string) (actual : value)
    (body : St S unit) : St S unit :=
  if ok then body else throw (invalidParameterError name expected actual).

(** [a > b] and [a % b] on numbers.  The remainder is taken at integral
    operands, which the guards before each of its uses establish. *)
Definition gt (a b : value) : bool := PrimFloat.ltb (ToNumber b) (ToNumber a).
Definition remainder (a b : value) : value :=
  match integral (ToNumber a), integral (ToNumber b) with
  | Some x, Some y => if y =? 0 then VNum PrimFloat.nan else VNum (num (Z.rem x y))
  | _, _ => VNum PrimFloat.nan
  end.

(* ===================================================================== *)
(** * lib/output.js *)
(* ===================================================================== *)

Module Output.

(** [1 << 31 - Math.clz32(Math.ceil(Math.log2(colours)))], on the integer
    colour counts that [png] and [gif] pass after validating them. *)
Definition bitdepthFromColourCount (colours : Z) : Z :=
  shl32 1 (31 - Math_clz32 (Math_ceil_log2 colours)).

(** The call [bitdepthFromColourCount(colours)] on a validated value. *)
Definition bitdepthFromColourCount_value (colours : value) : value :=
  VNum (num (bitdepthFromColourCount (truncate (ToNumber colours)))).

(** ** Private helpers *)

Definition _updateFormatOut (formatOut : string) (options : value) : M unit :=
  unforced <- (if is_object options
               then o <- properties options ;; ret (is_false o.["force"])
               else ret false) ;;
  when (negb unforced) (write "formatOut" (VStr formatOut)).

Definition _setBooleanOption (key : string) (val : value) : M unit :=
  if is_bool val then write key val
  else throw (invalidParameterError key "boolean" val).

(** ** Metadata *)

Definition keepExif : M unit :=
  m <- read "keepMetadata" ;; write "keepMetadata" (bitor m (VNum 1 (* 0b00001 *))).

(** The inner loop of [withExif]: the key/value pairs of one IFD group,
    written into [this.options.withExif], a plain object from the
    constructor on (the strict-mode assignment throws on anything that
    cannot take a property). *)
Fixpoint withExif_entries (ifd : string) (kvs : props) : M unit :=
  match kvs with
  | [] => ret tt
  | (k, v) :: rest =>
      (if is_string v then
         target <- read "withExif" ;;
         match target with
         | VObj fields =>
             write "withExif"
               (VObj (set ("exif-" ++ toLowerCase ifd ++ "-" ++ k) v fields))
         | _ => throw TypeError
         end
       else throw (invalidParameterError (ifd ++ "." ++ k) "string" v)) ;;
      withExif_entries ifd rest
  end.

(** The outer loop of [withExif]: the IFD groups. *)
Fixpoint withExif_groups (groups : props) : M unit :=
  match groups with
  | [] => ret tt
  | (ifd, entries_) :: rest =>
      (if is_object entries_ then
         _ <- properties entries_ ;;
         withExif_entries ifd (entries entries_)
       else throw (invalidParameterError ifd "object" entries_)) ;;
      withExif_groups rest
  end.

Definition withExif (exif : value) : M unit :=
  (if is_object exif then
     _ <- properties exif ;;
     withExif_groups (entries exif)
   else throw (invalidParameterError "exif" "object" exif)) ;;
  write "withExifMerge" (VBool false) ;;
  keepExif.

Definition withExifMerge (exif : value) : M unit :=
  withExif exif ;;
  write "withExifMerge" (VBool true).

Definition keepIccProfile : M unit :=
  m <- read "keepMetadata" ;; write "keepMetadata" (bitor m (VNum 8 (* 0b01000 *))).

Definition withIccProfile (icc options : value) : M unit :=
  (if is_string icc then write "withIccProfile" icc
   else throw (invalidParameterError "icc" "string" icc)) ;;
  keepIccProfile ;;
  when (is_object options)
    (o <- properties options ;;
     when (is_defined o.["attach"])
       (if is_bool o.["attach"] then
          when (negb (truthy o.["attach"]))
            (m <- read "keepMetadata" ;;
             write "keepMetadata" (bitand m (bitnot (VNum 8 (* 0b01000 *)))))
        else throw (invalidParameterError "attach" "boolean" o.["attach"]))).

Definition keepXmp : M unit :=
  m <- read "keepMetadata" ;; write "keepMetadata" (bitor m (VNum 2 (* 0b00010 *))).

Definition withXmp (xmp : value) : M unit :=
  if is_string xmp && (match xmp with VStr s => (0 <? String.length s)%nat | _ => false end)
  then
    write "withXmp" xmp ;;
    m <- read "keepMetadata" ;; write "keepMetadata" (bitor m (VNum 2 (* 0b00010 *)))
  else throw (invalidParameterError "xmp" "non-empty string" xmp).

Definition keepMetadata : M unit := write "keepMetadata" (VNum 31 (* 0b11111 *)).

Definition withMetadata (options : value) : M unit :=
  keepMetadata ;;
  withIccProfile (VStr "srgb") VUndefined ;;
  when (is_object options)
    (o <- properties options ;;
     when (is_defined o.["orientation"])
       (check (is_integer o.["orientation"] && is_inRange o.["orientation"] 1 8)
          "orientation" "integer between 1 and 8" o.["orientation"]
          (write "withMetadataOrientation" o.["orientation"])) ;;
     when (is_defined o.["density"])
       (check (is_number o.["density"] && gt o.["density"] (VNum 0))
          "density" "positive number" o.["density"]
          (write "withMetadataDensity" o.["density"])) ;;
     when (is_defined o.["icc"]) (withIccProfile o.["icc"] VUndefined) ;;
     when (is_defined o.["exif"]) (withExifMerge o.["exif"])).

(** ** Codec resolvers *)

Definition jpeg (options : value) : M unit :=
  when (is_object options)
    (o <- properties options ;;
     when (is_defined o.["quality"])
       (check (is_integer o.["quality"] && is_inRange o.["quality"] 1 100)
          "quality" "integer between 1 and 100" o.["quality"]
          (write "jpegQuality" o.["quality"])) ;;
     when (is_defined o.["progressive"])
       (_setBooleanOption "jpegProgressive" o.["progressive"]) ;;
     when (is_defined o.["chromaSubsampling"])
       (check (is_string o.["chromaSubsampling"]
               && is_inArray o.["chromaSubsampling"] ["4:2:0"; "4:4:4"])
          "chromaSubsampling" "one of: 4:2:0, 4:4:4" o.["chromaSubsampling"]
          (write "jpegChromaSubsampling" o.["chromaSubsampling"])) ;;
     let optimiseCoding :=
       if is_bool o.["optimizeCoding"] then o.["optimizeCoding"] else o.["optimiseCoding"] in
     when (is_defined optimiseCoding)
       (_setBooleanOption "jpegOptimiseCoding" optimiseCoding) ;;
     when (is_defined o.["mozjpeg"])
       (if is_bool o.["mozjpeg"] then
          when (truthy o.["mozjpeg"])
            (write "jpegTrellisQuantisation" (VBool true) ;;
             write "jpegOvershootDeringing" (VBool true) ;;
             write "jpegOptimiseScans" (VBool true) ;;
             write "jpegProgressive" (VBool true) ;;
             write "jpegQuantisationTable" (VNum 3))
        else throw (invalidParameterError "mozjpeg" "boolean" o.["mozjpeg"])) ;;
     let trellisQuantisation :=
       if is_bool o.["trellisQuantization"] then o.["trellisQuantization"]
       else o.["trellisQuantisation"] in
     when (is_defined trellisQuantisation)
       (_setBooleanOption "jpegTrellisQuantisation" trellisQuantisation) ;;
     when (is_defined o.["overshootDeringing"])
       (_setBooleanOption "jpegOvershootDeringing" o.["overshootDeringing"]) ;;
     let optimiseScans :=
       if is_bool o.["optimizeScans"] then o.["optimizeScans"] else o.["optimiseScans"] in
     when (is_defined optimiseScans)
       (_setBooleanOption "jpegOptimiseScans" optimiseScans ;;
        when (truthy optimiseScans) (write "jpegProgressive" (VBool true))) ;;
     let quantisationTable :=
       if is_number o.["quantizationTable"] then o.["quantizationTable"]
       else o.["quantisationTable"] in
     when (is_defined quantisationTable)
       (check (is_integer quantisationTable && is_inRange quantisationTable 0 8)
          "quantisationTable" "integer between 0 and 8" quantisationTable
          (write "jpegQuantisationTable" quantisationTable))) ;;
  _updateFormatOut "jpeg" options.

Definition png (options : value) : M unit :=
  when (is_object options)
    (o <- properties options ;;
     when (is_defined o.["progressive"])
       (_setBooleanOption "pngProgressive" o.["progressive"]) ;;
     when (is_defined o.["compressionLevel"])
       (check (is_integer o.["compressionLevel"] && is_inRange o.["compressionLevel"] 0 9)
          "compressionLevel" "integer between 0 and 9" o.["compressionLevel"]
          (write "pngCompressionLevel" o.["compressionLevel"])) ;;
     when (is_defined o.["adaptiveFiltering"])
       (_setBooleanOption "pngAdaptiveFiltering" o.["adaptiveFiltering"]) ;;
     let colours := or_else o.["colours"] o.["colors"] in
     when (is_defined colours)
       (check (is_integer colours && is_inRange colours 2 256)
          "colours" "integer between 2 and 256" colours
          (write "pngBitdepth" (bitdepthFromColourCount_value colours))) ;;
     (if is_defined o.["palette"] then
        _setBooleanOption "pngPalette" o.["palette"]
      else
        when (existsb is_defined
                [o.["quality"]; o.["effort"]; o.["colours"]; o.["colors"]; o.["dither"]])
          (_setBooleanOption "pngPalette" (VBool true))) ;;
     pngPalette <- read "pngPalette" ;;
     when (truthy pngPalette)
       (when (is_defined o.["quality"])
          (check (is_integer o.["quality"] && is_inRange o.["quality"] 0 100)
             "quality" "integer between 0 and 100" o.["quality"]
             (write "pngQuality" o.["quality"])) ;;
        when (is_defined o.["effort"])
          (check (is_integer o.["effort"] && is_inRange o.["effort"] 1 10)
             "effort" "integer between 1 and 10" o.["effort"]
             (write "pngEffort" o.["effort"])) ;;
        when (is_defined o.["dither"])
          (check (is_number o.["dither"] && is_inRange o.["dither"] 0 1)
             "dither" "number between 0.0 and 1.0" o.["dither"]
             (write "pngDither" o.["dither"])))) ;;
  _updateFormatOut "png" options.

(** [source.delay.every(is.integer) && source.delay.every(v => is.inRange(v, 0, 65535))] *)
Definition valid_delays (delay : value) : bool :=
  match delay with
  | VArr l => forallb is_integer l && forallb (fun v => is_inRange v 0 65535) l
  | _ => false
  end.

(** [trySetAnimationOptions(source, this.options)] *)
Definition trySetAnimationOptions (source : value) : M unit :=
  when (is_object source)
    (o <- properties source ;;
     when (is_defined o.["loop"])
       (check (is_integer o.["loop"] && is_inRange o.["loop"] 0 65535)
          "loop" "integer between 0 and 65535" o.["loop"]
          (write "loop" o.["loop"]))) ;;
  when (is_object source)
    (o <- properties source ;;
     when (is_defined o.["delay"])
       (if is_integer o.["delay"] && is_inRange o.["delay"] 0 65535 then
          write "delay" (VArr [o.["delay"]])
        else if valid_delays o.["delay"] then
          write "delay" o.["delay"]
        else throw (invalidParameterError "delay"
                      "integer or an array of integers between 0 and 65535" o.["delay"]))).

Definition webp (options : value) : M unit :=
  when (is_object options)
    (o <- properties options ;;
     when (is_defined o.["quality"])
       (check (is_integer o.["quality"] && is_inRange o.["quality"] 1 100)
          "quality" "integer between 1 and 100" o.["quality"]
          (write "webpQuality" o.["quality"])) ;;
     when (is_defined o.["alphaQuality"])
       (check (is_integer o.["alphaQuality"] && is_inRange o.["alphaQuality"] 0 100)
          "alphaQuality" "integer between 0 and 100" o.["alphaQuality"]
          (write "webpAlphaQuality" o.["alphaQuality"])) ;;
     when (is_defined o.["lossless"])
       (_setBooleanOption "webpLossless" o.["lossless"]) ;;
     when (is_defined o.["nearLossless"])
       (_setBooleanOption "webpNearLossless" o.["nearLossless"]) ;;
     when (is_defined o.["smartSubsample"])
       (_setBooleanOption "webpSmartSubsample" o.["smartSubsample"]) ;;
     when (is_defined o.["smartDeblock"])
       (_setBooleanOption "webpSmartDeblock" o.["smartDeblock"]) ;;
     when (is_defined o.["preset"])
       (check (is_string o.["preset"]
               && is_inArray o.["preset"]
                    ["default"; "photo"; "picture"; "drawing"; "icon"; "text"])
          "preset" "one of: default, photo, picture, drawing, icon, text" o.["preset"]
          (write "webpPreset" o.["preset"])) ;;
     when (is_defined o.["effort"])
       (check (is_integer o.["effort"] && is_inRange o.["effort"] 0 6)
          "effort" "integer between 0 and 6" o.["effort"]
          (write "webpEffort" o.["effort"])) ;;
     when (is_defined o.["minSize"])
       (_setBooleanOption "webpMinSize" o.["minSize"]) ;;
     when (is_defined o.["mixed"])
       (_setBooleanOption "webpMixed" o.["mixed"])) ;;
  trySetAnimationOptions options ;;
  _updateFormatOut "webp" options.

Definition gif (options : value) : M unit :=
  when (is_object options)
    (o <- properties options ;;
     when (is_defined o.["reuse"])
       (_setBooleanOption "gifReuse" o.["reuse"]) ;;
     when (is_defined o.["progressive"])
       (_setBooleanOption "gifProgressive" o.["progressive"]) ;;
     let colours := or_else o.["colours"] o.["colors"] in
     when (is_defined colours)
       (check (is_integer colours && is_inRange colours 2 256)
          "colours" "integer between 2 and 256" colours
          (write "gifBitdepth" (bitdepthFromColourCount_value colours))) ;;
     when (is_defined o.["effort"])
       (check (is_number o.["effort"] && is_inRange o.["effort"] 1 10)
          "effort" "integer between 1 and 10" o.["effort"]
          (write "gifEffort" o.["effort"])) ;;
     when (is_defined o.["dither"])
       (check (is_number o.["dither"] && is_inRange o.["dither"] 0 1)
          "dither" "number between 0.0 and 1.0" o.["dither"]
          (write "gifDither" o.["dither"])) ;;
     when (is_defined o.["interFrameMaxError"])
       (check (is_number o.["interFrameMaxError"] && is_inRange o.["interFrameMaxError"] 0 32)
          "interFrameMaxError" "number between 0.0 and 32.0" o.["interFrameMaxError"]
          (write "gifInterFrameMaxError" o.["interFrameMaxError"])) ;;
     when (is_defined o.["interPaletteMaxError"])
       (check (is_number o.["interPaletteMaxError"]
               && is_inRange o.["interPaletteMaxError"] 0 256)
          "interPaletteMaxError" "number between 0.0 and 256.0" o.["interPaletteMaxError"]
          (write "gifInterPaletteMaxError" o.["interPaletteMaxError"])) ;;
     when (is_defined o.["keepDuplicateFrames"])
       (if is_bool o.["keepDuplicateFrames"] then
          _setBooleanOption "gifKeepDuplicateFrames" o.["keepDuplicateFrames"]
        else throw (invalidParameterError "keepDuplicateFrames" "boolean"
                      o.["keepDuplicateFrames"]))) ;;
  trySetAnimationOptions options ;;
  _updateFormatOut "gif" options.

(** [errJp2Save()] *)
Definition errJp2Save : error :=
  Error [Text "JP2 output requires libvips with support for OpenJPEG"].

Definition jp2 (options : value) : M unit :=
  ctor <- this_constructor ;;
  (if negb (jp2k_output_buffer ctor) then throw errJp2Save else ret tt) ;;
  when (is_object options)
    (o <- properties options ;;
     when (is_defined o.["quality"])
       (check (is_integer o.["quality"] && is_inRange o.["quality"] 1 100)
          "quality" "integer between 1 and 100" o.["quality"]
          (write "jp2Quality" o.["quality"])) ;;
     when (is_defined o.["lossless"])
       (check (is_bool o.["lossless"]) "lossless" "boolean" o.["lossless"]
          (write "jp2Lossless" o.["lossless"])) ;;
     when (is_defined o.["tileWidth"])
       (check (is_integer o.["tileWidth"] && is_inRange o.["tileWidth"] 1 32768)
          "tileWidth" "integer between 1 and 32768" o.["tileWidth"]
          (write "jp2TileWidth" o.["tileWidth"])) ;;
     when (is_defined o.["tileHeight"])
       (check (is_integer o.["tileHeight"] && is_inRange o.["tileHeight"] 1 32768)
          "tileHeight" "integer between 1 and 32768" o.["tileHeight"]
          (write "jp2TileHeight" o.["tileHeight"])) ;;
     when (is_defined o.["chromaSubsampling"])
       (check (is_string o.["chromaSubsampling"]
               && is_inArray o.["chromaSubsampling"] ["4:2:0"; "4:4:4"])
          "chromaSubsampling" "one of: 4:2:0, 4:4:4" o.["chromaSubsampling"]
          (write "jp2ChromaSubsampling" o.["chromaSubsampling"]))) ;;
  _updateFormatOut "jp2" options.

Definition tiff (options : value) : M unit :=
  when (is_object options)
    (o <- properties options ;;
     when (is_defined o.["quality"])
       (check (is_integer o.["quality"] && is_inRange o.["quality"] 1 100)
          "quality" "integer between 1 and 100" o.["quality"]
          (write "tiffQuality" o.["quality"])) ;;
     when (is_defined o.["bitdepth"])
       (check (is_integer o.["bitdepth"] && is_inNumbers o.["bitdepth"] [1; 2; 4; 8]%float)
          "bitdepth" "1, 2, 4 or 8" o.["bitdepth"]
          (write "tiffBitdepth" o.["bitdepth"])) ;;
     when (is_defined o.["tile"])
       (_setBooleanOption "tiffTile" o.["tile"]) ;;
     when (is_defined o.["tileWidth"])
       (check (is_integer o.["tileWidth"] && gt o.["tileWidth"] (VNum 0))
          "tileWidth" "integer greater than zero" o.["tileWidth"]
          (write "tiffTileWidth" o.["tileWidth"])) ;;
     when (is_defined o.["tileHeight"])
       (check (is_integer o.["tileHeight"] && gt o.["tileHeight"] (VNum 0))
          "tileHeight" "integer greater than zero" o.["tileHeight"]
          (write "tiffTileHeight" o.["tileHeight"])) ;;
     when (is_defined o.["miniswhite"])
       (_setBooleanOption "tiffMiniswhite" o.["miniswhite"]) ;;
     when (is_defined o.["pyramid"])
       (_setBooleanOption "tiffPyramid" o.["pyramid"]) ;;
     when (is_defined o.["xres"])
       (check (is_number o.["xres"] && gt o.["xres"] (VNum 0))
          "xres" "number greater than zero" o.["xres"]
          (write "tiffXres" o.["xres"])) ;;
     when (is_defined o.["yres"])
       (check (is_number o.["yres"] && gt o.["yres"] (VNum 0))
          "yres" "number greater than zero" o.["yres"]
          (write "tiffYres" o.["yres"])) ;;
     when (is_defined o.["compression"])
       (check (is_string o.["compression"]
               && is_inArray o.["compression"]
                    ["none"; "jpeg"; "deflate"; "packbits"; "ccittfax4"; "lzw";
                     "webp"; "zstd"; "jp2k"])
          "compression"
          "one of: none, jpeg, deflate, packbits, ccittfax4, lzw, webp, zstd, jp2k"
          o.["compression"]
          (write "tiffCompression" o.["compression"])) ;;
     when (is_defined o.["predictor"])
       (check (is_string o.["predictor"]
               && is_inArray o.["predictor"] ["none"; "horizontal"; "float"])
          "predictor" "one of: none, horizontal, float" o.["predictor"]
          (write "tiffPredictor" o.["predictor"])) ;;
     when (is_defined o.["resolutionUnit"])
       (check (is_string o.["resolutionUnit"]
               && is_inArray o.["resolutionUnit"] ["inch"; "cm"])
          "resolutionUnit" "one of: inch, cm" o.["resolutionUnit"]
          (write "tiffResolutionUnit" o.["resolutionUnit"]))) ;;
  _updateFormatOut "tiff" options.

Definition heif (options : value) : M unit :=
  (if is_object options then
     o <- properties options ;;
     check (is_string o.["compression"] && is_inArray o.["compression"] ["av1"; "hevc"])
       "compression" "one of: av1, hevc" o.["compression"]
       (write "heifCompression" o.["compression"]) ;;
     when (is_defined o.["quality"])
       (check (is_integer o.["quality"] && is_inRange o.["quality"] 1 100)
          "quality" "integer between 1 and 100" o.["quality"]
          (write "heifQuality" o.["quality"])) ;;
     when (is_defined o.["lossless"])
       (check (is_bool o.["lossless"]) "lossless" "boolean" o.["lossless"]
          (write "heifLossless" o.["lossless"])) ;;
     when (is_defined o.["effort"])
       (check (is_integer o.["effort"] && is_inRange o.["effort"] 0 9)
          "effort" "integer between 0 and 9" o.["effort"]
          (write "heifEffort" o.["effort"])) ;;
     when (is_defined o.["chromaSubsampling"])
       (check (is_string o.["chromaSubsampling"]
               && is_inArray o.["chromaSubsampling"] ["4:2:0"; "4:4:4"])
          "chromaSubsampling" "one of: 4:2:0, 4:4:4" o.["chromaSubsampling"]
          (write "heifChromaSubsampling" o.["chromaSubsampling"])) ;;
     when (is_defined o.["bitdepth"])
       (check (is_integer o.["bitdepth"] && is_inNumbers o.["bitdepth"] [8; 10; 12]%float)
          "bitdepth" "8, 10 or 12" o.["bitdepth"]
          (ctor <- this_constructor ;;
           (if negb (is_inNumbers o.["bitdepth"] [8]%float) && truthy (versions_heif ctor)
            then throw (InvalidParameterError "bitdepth when using prebuilt binaries"
                          [Interp (VNum 8)] o.["bitdepth"])
            else ret tt) ;;
           write "heifBitdepth" o.["bitdepth"]))
   else throw (invalidParameterError "options" "Object" options)) ;;
  _updateFormatOut "heif" options.

(** [{ ...options, compression: 'av1' }] *)
Definition avif (options : value) : M unit :=
  heif (VObj (set "compression" (VStr "av1") (entries options))).

(** The distance [jxl] derives from a quality, in double arithmetic as
    the source writes it. *)
Definition jxlDistanceFromQuality (quality : float) : float :=
  (if 30 <=? quality
   then 0.1 + (100 - quality) * 0.09
   else 53 / 3000 * quality * quality - 23 / 20 * quality + 25)%float.

Definition jxl (options : value) : M unit :=
  when (is_object options)
    (o <- properties options ;;
     (if is_defined o.["quality"] then
        check (is_integer o.["quality"] && is_inRange o.["quality"] 1 100)
          "quality" "integer between 1 and 100" o.["quality"]
          (write "jxlDistance" (VNum (jxlDistanceFromQuality (ToNumber o.["quality"]))))
      else
        when (is_defined o.["distance"])
          (check (is_number o.["distance"] && is_inRange o.["distance"] 0 15)
             "distance" "number between 0.0 and 15.0" o.["distance"]
             (write "jxlDistance" o.["distance"]))) ;;
     when (is_defined o.["decodingTier"])
       (check (is_integer o.["decodingTier"] && is_inRange o.["decodingTier"] 0 4)
          "decodingTier" "integer between 0 and 4" o.["decodingTier"]
          (write "jxlDecodingTier" o.["decodingTier"])) ;;
     when (is_defined o.["lossless"])
       (check (is_bool o.["lossless"]) "lossless" "boolean" o.["lossless"]
          (write "jxlLossless" o.["lossless"])) ;;
     when (is_defined o.["effort"])
       (check (is_integer o.["effort"] && is_inRange o.["effort"] 1 9)
          "effort" "integer between 1 and 9" o.["effort"]
          (write "jxlEffort" o.["effort"]))) ;;
  trySetAnimationOptions options ;;
  _updateFormatOut "jxl" options.

Definition raw (options : value) : M unit :=
  when (is_object options)
    (o <- properties options ;;
     when (is_defined o.["depth"])
       (check (is_string o.["depth"]
               && is_inArray o.["depth"]
                    ["char"; "uchar"; "short"; "ushort"; "int"; "uint"; "float";
                     "complex"; "double"; "dpcomplex"])
          "depth"
          "one of: char, uchar, short, ushort, int, uint, float, complex, double, dpcomplex"
          o.["depth"]
          (write "rawDepth" o.["depth"]))) ;;
  _updateFormatOut "raw" VUndefined.

Section Tile.

(** [this._setBackgroundColourOption(key, value)] is a method of
    [lib/colour.js], a file of this repository that is not among the
    sources; [tile] is stated over any such method. *)
Variable _setBackgroundColourOption : string -> value -> M unit.

Definition tile (options : value) : M unit :=
  when (is_object options)
    (o <- properties options ;;
     when (is_defined o.["size"])
       (check (is_integer o.["size"] && is_inRange o.["size"] 1 8192)
          "size" "integer between 1 and 8192" o.["size"]
          (write "tileSize" o.["size"])) ;;
     when (is_defined o.["overlap"])
       (check (is_integer o.["overlap"] && is_inRange o.["overlap"] 0 8192)
          "overlap" "integer between 0 and 8192" o.["overlap"]
          (tileSize <- read "tileSize" ;;
           (if gt o.["overlap"] tileSize
            then throw (InvalidParameterError "overlap"
                          [Text "<= size ("; Interp tileSize; Text ")"] o.["overlap"])
            else ret tt) ;;
           write "tileOverlap" o.["overlap"])) ;;
     when (is_defined o.["container"])
       (check (is_string o.["container"] && is_inArray o.["container"] ["fs"; "zip"])
          "container" "one of: fs, zip" o.["container"]
          (write "tileContainer" o.["container"])) ;;
     when (is_defined o.["layout"])
       (check (is_string o.["layout"]
               && is_inArray o.["layout"] ["dz"; "google"; "iiif"; "iiif3"; "zoomify"])
          "layout" "one of: dz, google, iiif, iiif3, zoomify" o.["layout"]
          (write "tileLayout" o.["layout"])) ;;
     when (is_defined o.["angle"])
       (check (is_integer o.["angle"] && negb (truthy (remainder o.["angle"] (VNum 90))))
          "angle" "positive/negative multiple of 90" o.["angle"]
          (write "tileAngle" o.["angle"])) ;;
     _setBackgroundColourOption "tileBackground" o.["background"] ;;
     when (is_defined o.["depth"])
       (check (is_string o.["depth"]
               && is_inArray o.["depth"] ["onepixel"; "onetile"; "one"])
          "depth" "one of: onepixel, onetile, one" o.["depth"]
          (write "tileDepth" o.["depth"])) ;;
     (if is_defined o.["skipBlanks"] then
        check (is_integer o.["skipBlanks"] && is_inRange o.["skipBlanks"] (-1) 65535)
          "skipBlanks" "integer between -1 and 255/65535" o.["skipBlanks"]
          (write "tileSkipBlanks" o.["skipBlanks"])
      else
        when (is_defined o.["layout"] && eq_str o.["layout"] "google")
          (write "tileSkipBlanks" (VNum 5))) ;;
     let centre := if is_bool o.["center"] then o.["center"] else o.["centre"] in
     when (is_defined centre) (_setBooleanOption "tileCentre" centre) ;;
     when (is_defined o.["id"])
       (check (is_string o.["id"]) "id" "string" o.["id"]
          (write "tileId" o.["id"])) ;;
     when (is_defined o.["basename"])
       (check (is_string o.["basename"]) "basename" "string" o.["basename"]
          (write "tileBasename" o.["basename"]))) ;;
  formatOut <- read "formatOut" ;;
  (if is_inArray formatOut ["jpeg"; "png"; "webp"] then
     write "tileFormat" formatOut
   else if negb (eq_str formatOut "input") then
     throw (invalidParameterError "format" "one of: jpeg, png, webp" formatOut)
   else ret tt) ;;
  _updateFormatOut "dz" VUndefined.

(** The names and aliases of the formats, in the order of the source's
    [Map]. *)
Definition formats : list (string * string) :=
  [("heic", "heif"); ("heif", "heif"); ("avif", "avif"); ("jpeg", "jpeg");
   ("jpg", "jpeg"); ("jpe", "jpeg"); ("tile", "tile"); ("dz", "tile");
   ("png", "png"); ("raw", "raw"); ("tiff", "tiff"); ("tif", "tiff");
   ("webp", "webp"); ("gif", "gif"); ("jp2", "jp2"); ("jpx", "jp2");
   ("j2k", "jp2"); ("j2c", "jp2"); ("jxl", "jxl")].

(** [formats.get(key)] *)
Fixpoint formats_get (key : string) (entries : list (string * string)) : option string :=
  match entries with
  | [] => None
  | (k, v) :: rest => if String.eqb key k then Some v else formats_get key rest
  end.

(** [this[actualFormat](options)], for the method names in [formats]. *)
Definition method (actualFormat : string) (options : value) : M unit :=
  if String.eqb actualFormat "heif" then heif options
  else if String.eqb actualFormat "avif" then avif options
  else if String.eqb actualFormat "jpeg" then jpeg options
  else if String.eqb actualFormat "tile" then tile options
  else if String.eqb actualFormat "png" then png options
  else if String.eqb actualFormat "raw" then raw options
  else if String.eqb actualFormat "tiff" then tiff options
  else if String.eqb actualFormat "webp" then webp options
  else if String.eqb actualFormat "gif" then gif options
  else if String.eqb actualFormat "jp2" then jp2 options
  else if String.eqb actualFormat "jxl" then jxl options
  else throw TypeError.

(** [String.prototype.toLowerCase] of the runtime, which follows the
    Unicode case mapping; [toFormat] is stated over it. *)
Variable String_toLowerCase : string -> string.

Definition toFormat (format options : value) : M unit :=
  id <- (if is_object format then f <- properties format ;; ret f.["id"]
         else ret VUndefined) ;;
  let name := if is_object format && is_string id then id else format in
  match name with
  | VStr s =>
      match formats_get (String_toLowerCase s) formats with
      | Some actualFormat => method actualFormat options
      | None =>
          throw (invalidParameterError "format"
                   ("one of: " ++ String.concat ", " (List.map fst formats)) format)
      end
  | _ => throw TypeError          (* no [toLowerCase] to call *)
  end.

End Tile.

Definition timeout (options : value) : M unit :=
  (if negb (is_plainObject options)
   then throw (invalidParameterError "options" "object" options) else ret tt) ;;
  o <- properties options ;;
  check (is_integer o.["seconds"] && is_inRange o.["seconds"] 0 3600)
    "seconds" "integer between 0 and 3600" o.["seconds"]
    (write "timeoutSeconds" o.["seconds"]).

(** ** Writing to a file *)

(** [this._isStreamInput()] of [lib/input.js] *)
Definition _isStreamInput : M bool :=
  input <- read "input" ;;
  i <- properties input ;;
  ret (match i.["buffer"] with VArr _ => true | _ => false end).

(** How [_pipeline] delivers the result of the engine, and when it calls
    [sharp.pipeline]: at once, or from the handler it registers for the
    input stream's [finish] event. *)
Inductive delivery := ByCallback | ByStream | ByPromise.
Inductive trigger := Immediately | OnFinish.

(** [_pipeline(callback, stack)]: the single call of [sharp.pipeline] that
    each of its six branches arranges. *)
Definition _pipeline (callback : value) : M (delivery * trigger) :=
  if is_fn callback then
    streamIn <- _isStreamInput ;;
    ret (ByCallback, if streamIn then OnFinish else Immediately)
  else
    streamOut <- read "streamOut" ;;
    if truthy streamOut then
      streamIn <- _isStreamInput ;;
      ret (ByStream, if streamIn then OnFinish else Immediately)
    else
      streamIn <- _isStreamInput ;;
      ret (ByPromise, if streamIn then OnFinish else Immediately).

(** [s] ends with [suffix]. *)
Definition ends_with (s suffix : string) : bool :=
  let n := String.length s in
  let m := String.length suffix in
  (m <=? n)%nat && String.eqb (substring (n - m) m s) suffix.

(** [jp2Regex.test(s)] for [/\.(jp[2x]|j2[kc])$/i] *)
Definition jp2Regex_test (s : string) : bool :=
  existsb (ends_with (toLowerCase s)) [".jp2"; ".jpx"; ".j2k"; ".j2c"].

(** What a call of [toFile] does besides updating the instance. *)
Inductive toFile_outcome :=
| CallsBack (err : error)                 (* callback(err); return this *)
| Rejects (err : error)                   (* return Promise.reject(err) *)
| Pipelines (engine : delivery * trigger). (* return this._pipeline(callback, stack) *)

Section ToFile.

(** [path.resolve] and [path.extname] of the runtime's [node:path]. *)
Variable path_resolve : string -> string.
Variable path_extname : string -> string.

Definition toFile (fileOut callback : value) : M toFile_outcome :=
  err <-
    (if negb (is_string fileOut) then
       ret (Some (Error [Text "Missing output file path"]))
     else
       input <- read "input" ;;
       i <- properties input ;;
       if is_string i.["file"]
          && String.eqb (path_resolve (text_of i.["file"])) (path_resolve (text_of fileOut))
       then ret (Some (Error [Text "Cannot use same file for input and output"]))
       else
         ctor <- this_constructor ;;
         if jp2Regex_test (path_extname (text_of fileOut)) && negb (jp2k_output_file ctor)
         then ret (Some errJp2Save)
         else ret None) ;;
  match err with
  | Some e => if is_fn callback then ret (CallsBack e) else ret (Rejects e)
  | None =>
      write "fileOut" fileOut ;;
      engine <- _pipeline callback ;;
      ret (Pipelines engine)
  end.

End ToFile.

(** ** Writing to a Buffer, reading as a stream *)

Definition toBuffer (options callback : value) : M (delivery * trigger) :=
  (if is_object options then
     o <- properties options ;;
     _setBooleanOption "resolveWithObject" o.["resolveWithObject"]
   else
     resolveWithObject <- read "resolveWithObject" ;;
     when (truthy resolveWithObject) (write "resolveWithObject" (VBool false))) ;;
  write "fileOut" (VStr "") ;;
  _pipeline (if is_fn options then options else callback).

(** [_read()]: the engine call it makes, if it makes one. *)
Definition _read : M (option (delivery * trigger)) :=
  streamOut <- read "streamOut" ;;
  if negb (truthy streamOut) then
    write "streamOut" (VBool true) ;;
    engine <- _pipeline VUndefined ;;
    ret (Some engine)
  else ret None.

End Output.

(* ===================================================================== *)
(** * lib/input.js *)
(* ===================================================================== *)

Module Input.

(** Justification alignment *)
Definition align : props :=
  [("left", VStr "low"); ("top", VStr "low"); ("low", VStr "low");
   ("center", VStr "centre"); ("centre", VStr "centre");
   ("right", VStr "high"); ("bottom", VStr "high"); ("high", VStr "high")].

Definition inputStreamParameters : list string :=
  [ "failOn"; "limitInputPixels"; "unlimited";
    "animated"; "autoOrient"; "density"; "ignoreIcc"; "page"; "pages"; "sequentialRead";
    "jp2"; "openSlide"; "pdf"; "raw"; "svg"; "tiff";
    "failOnError"; "openSlideLevel"; "pdfBackground"; "tiffSubifd" ].

(** Extract input options, if any, from an object. *)
Definition _inputOptionsFromObject (obj : props) : value :=
  let params :=
    List.map (fun p => (p, obj.[p]))
      (List.filter (fun p => is_defined obj.[p]) inputStreamParameters) in
  match params with
  | [] => VUndefined
  | _ => VObj params
  end.

(** [typeof v] *)
Definition typeof (v : value) : string :=
  match v with
  | VUndefined => "undefined"
  | VBool _ => "boolean"
  | VNum _ => "number"
  | VStr _ => "string"
  | VFun _ => "function"
  | _ => "object"
  end.

(** The byte length of a binary input, [Buffer.from(arrayBuffer,
    byteOffset, length)] as the bytes it views, and the named properties
    of a value known not to be [null] or [undefined]. *)
Definition byteLength (k : TypedArray) (length : nat) : nat :=
  (length * BYTES_PER_ELEMENT k)%nat.
Definition Buffer_from (arrayBuffer : list Byte.byte) (byteOffset length : nat) : value :=
  VBuffer (firstn length (skipn byteOffset arrayBuffer)).
Definition fields (v : value) : props :=
  match v with VObj ps => ps | _ => [] end.

(** The local object [inputDescriptor] of [_createInputDescriptor]:
    [inputDescriptor[key] = v] and [delete inputDescriptor[key]]. *)
Definition D (A : Type) := St props A.
Definition put (key : string) (v : value) : D unit :=
  fun d => (Normal tt, set key v d).
Definition remove (key : string) : D unit :=
  fun d => (Normal tt, delete key d).
Definition lift {A} (c : completion A) : D A := fun d => (c, d).

(** The [rawDepth] that [switch (input.constructor)] selects. *)
Definition rawDepth_of (input : value) : D unit :=
  match input with
  | VUndefined | VNull => throw TypeError
  | VTypedArray Uint8Array _ _ _ | VTypedArray Uint8ClampedArray _ _ _ =>
      put "rawDepth" (VStr "uchar")
  | VTypedArray Int8Array _ _ _ => put "rawDepth" (VStr "char")
  | VTypedArray Uint16Array _ _ _ => put "rawDepth" (VStr "ushort")
  | VTypedArray Int16Array _ _ _ => put "rawDepth" (VStr "short")
  | VTypedArray Uint32Array _ _ _ => put "rawDepth" (VStr "uint")
  | VTypedArray Int32Array _ _ _ => put "rawDepth" (VStr "int")
  | VTypedArray Float32Array _ _ _ => put "rawDepth" (VStr "float")
  | VTypedArray Float64Array _ _ _ => put "rawDepth" (VStr "double")
  | _ => put "rawDepth" (VStr "uchar")
  end.

(** [a <= b] and [a !== 0] on numbers. *)
Definition le (a b : value) : bool := PrimFloat.leb (ToNumber a) (ToNumber b).
Definition nonzero (a : value) : bool :=
  match a with VNum x => negb (PrimFloat.eqb x 0) | _ => true end.

Section Options.

(** [this._getBackgroundColourOption(value)] is a method of
    [lib/colour.js], a file of this repository that is not among the
    sources: it returns a colour or throws. *)
Variable _getBackgroundColourOption : value -> completion value.

(** The second half of [_createInputDescriptor], from
    [if (is.object(inputOptions))] to the end: the validation of
    [inputOptions] into [inputDescriptor].  [this] is only read. *)
Definition inputOptions_into_descriptor (this : Sharp) (input inputOptions : value) : D unit :=
  if is_object inputOptions then
    o <- properties inputOptions ;;
    (* Deprecated: failOnError *)
    when (is_defined o.["failOnError"])
      (if is_bool o.["failOnError"] then
         put "failOn" (VStr (if truthy o.["failOnError"] then "warning" else "none"))
       else throw (invalidParameterError "failOnError" "boolean" o.["failOnError"])) ;;
    when (is_defined o.["failOn"])
      (check (is_string o.["failOn"]
              && is_inArray o.["failOn"] ["none"; "truncated"; "error"; "warning"])
         "failOn" "one of: none, truncated, error, warning" o.["failOn"]
         (put "failOn" o.["failOn"])) ;;
    when (is_defined o.["autoOrient"])
      (check (is_bool o.["autoOrient"]) "autoOrient" "boolean" o.["autoOrient"]
         (put "autoOrient" o.["autoOrient"])) ;;
    when (is_defined o.["density"])
      (check (is_inRange o.["density"] 1 100000)
         "density" "number between 1 and 100000" o.["density"]
         (put "density" o.["density"])) ;;
    when (is_defined o.["ignoreIcc"])
      (check (is_bool o.["ignoreIcc"]) "ignoreIcc" "boolean" o.["ignoreIcc"]
         (put "ignoreIcc" o.["ignoreIcc"])) ;;
    when (is_defined o.["limitInputPixels"])
      (if is_bool o.["limitInputPixels"] then
         put "limitInputPixels"
           (if truthy o.["limitInputPixels"] then VNum 268402689 (* 0x3FFF ** 2 *) else VNum 0)
       else if is_integer o.["limitInputPixels"]
               && is_inRange o.["limitInputPixels"] 0 9007199254740991 then
         put "limitInputPixels" o.["limitInputPixels"]
       else throw (invalidParameterError "limitInputPixels" "positive integer"
                     o.["limitInputPixels"])) ;;
    when (is_defined o.["unlimited"])
      (check (is_bool o.["unlimited"]) "unlimited" "boolean" o.["unlimited"]
         (put "unlimited" o.["unlimited"])) ;;
    when (is_defined o.["sequentialRead"])
      (check (is_bool o.["sequentialRead"]) "sequentialRead" "boolean" o.["sequentialRead"]
         (put "sequentialRead" o.["sequentialRead"])) ;;
    (* Raw pixel input *)
    when (is_defined o.["raw"])
      (let raw := fields o.["raw"] in
       (if is_object o.["raw"]
           && is_integer raw.["width"] && gt raw.["width"] (VNum 0)
           && is_integer raw.["height"] && gt raw.["height"] (VNum 0)
           && is_integer raw.["channels"] && is_inRange raw.["channels"] 1 4
        then
          put "rawWidth" raw.["width"] ;;
          put "rawHeight" raw.["height"] ;;
          put "rawChannels" raw.["channels"] ;;
          rawDepth_of input
        else throw (Error [Text "Expected width, height and channels for raw pixel input"])) ;;
       put "rawPremultiplied" (VBool false) ;;
       when (is_defined raw.["premultiplied"])
         (check (is_bool raw.["premultiplied"])
            "raw.premultiplied" "boolean" raw.["premultiplied"]
            (put "rawPremultiplied" raw.["premultiplied"])) ;;
       put "rawPageHeight" (VNum 0) ;;
       when (is_defined raw.["pageHeight"])
         (check (is_integer raw.["pageHeight"] && gt raw.["pageHeight"] (VNum 0)
                 && le raw.["pageHeight"] raw.["height"])
            "raw.pageHeight" "positive integer" raw.["pageHeight"]
            ((if nonzero (remainder raw.["height"] raw.["pageHeight"]) then
                throw (Error [Text "Expected raw.height "; Interp raw.["height"];
                              Text " to be a multiple of raw.pageHeight ";
                              Interp raw.["pageHeight"]])
              else ret tt) ;;
             put "rawPageHeight" raw.["pageHeight"]))) ;;
    (* Multi-page input (GIF, TIFF, PDF) *)
    when (is_defined o.["animated"])
      (check (is_bool o.["animated"]) "animated" "boolean" o.["animated"]
         (put "pages" (if truthy o.["animated"] then VNum (-1) else VNum 1))) ;;
    when (is_defined o.["pages"])
      (check (is_integer o.["pages"] && is_inRange o.["pages"] (-1) 100000)
         "pages" "integer between -1 and 100000" o.["pages"]
         (put "pages" o.["pages"])) ;;
    when (is_defined o.["page"])
      (check (is_integer o.["page"] && is_inRange o.["page"] 0 100000)
         "page" "integer between 0 and 100000" o.["page"]
         (put "page" o.["page"])) ;;
    (* OpenSlide specific options *)
    openSlide <- (if is_object o.["openSlide"] then properties o.["openSlide"] else ret []) ;;
    (if is_object o.["openSlide"] && is_defined openSlide.["level"] then
       check (is_integer openSlide.["level"] && is_inRange openSlide.["level"] 0 256)
         "openSlide.level" "integer between 0 and 256" openSlide.["level"]
         (put "openSlideLevel" openSlide.["level"])
     else
       when (is_defined o.["level"])
         (check (is_integer o.["level"] && is_inRange o.["level"] 0 256)
            "level" "integer between 0 and 256" o.["level"]
            (put "openSlideLevel" o.["level"]))) ;;
    (* TIFF specific options *)
    tiff <- (if is_object o.["tiff"] then properties o.["tiff"] else ret []) ;;
    (if is_object o.["tiff"] && is_defined tiff.["subifd"] then
       check (is_integer tiff.["subifd"] && is_inRange tiff.["subifd"] (-1) 100000)
         "tiff.subifd" "integer between -1 and 100000" tiff.["subifd"]
         (put "tiffSubifd" tiff.["subifd"])
     else
       when (is_defined o.["subifd"])
         (check (is_integer o.["subifd"] && is_inRange o.["subifd"] (-1) 100000)
            "subifd" "integer between -1 and 100000" o.["subifd"]
            (put "tiffSubifd" o.["subifd"]))) ;;
    (* SVG specific options *)
    when (is_object o.["svg"])
      (svg <- properties o.["svg"] ;;
       when (is_defined svg.["stylesheet"])
         (check (is_string svg.["stylesheet"])
            "svg.stylesheet" "string" svg.["stylesheet"]
            (put "svgStylesheet" svg.["stylesheet"])) ;;
       when (is_defined svg.["highBitdepth"])
         (check (is_bool svg.["highBitdepth"])
            "svg.highBitdepth" "boolean" svg.["highBitdepth"]
            (put "svgHighBitdepth" svg.["highBitdepth"]))) ;;
    (* PDF specific options *)
    pdf <- (if is_object o.["pdf"] then properties o.["pdf"] else ret []) ;;
    (if is_object o.["pdf"] && is_defined pdf.["background"] then
       colour <- lift (_getBackgroundColourOption pdf.["background"]) ;;
       put "pdfBackground" colour
     else
       when (is_defined o.["pdfBackground"])
         (colour <- lift (_getBackgroundColourOption o.["pdfBackground"]) ;;
          put "pdfBackground" colour)) ;;
    (* JPEG 2000 specific options *)
    jp2 <- (if is_object o.["jp2"] then properties o.["jp2"] else ret []) ;;
    when (is_object o.["jp2"] && is_defined jp2.["oneshot"])
      (check (is_bool jp2.["oneshot"]) "jp2.oneshot" "boolean" jp2.["oneshot"]
         (put "jp2Oneshot" jp2.["oneshot"])) ;;
    (* Create new image *)
    when (is_defined o.["create"])
      (let create := fields o.["create"] in
       if is_object o.["create"]
          && is_integer create.["width"] && gt create.["width"] (VNum 0)
          && is_integer create.["height"] && gt create.["height"] (VNum 0)
          && is_integer create.["channels"]
       then
         put "createWidth" create.["width"] ;;
         put "createHeight" create.["height"] ;;
         put "createChannels" create.["channels"] ;;
         put "createPageHeight" (VNum 0) ;;
         when (is_defined create.["pageHeight"])
           (check (is_integer create.["pageHeight"] && gt create.["pageHeight"] (VNum 0)
                   && le create.["pageHeight"] create.["height"])
              "create.pageHeight" "positive integer" create.["pageHeight"]
              ((if nonzero (remainder create.["height"] create.["pageHeight"]) then
                  throw (Error [Text "Expected create.height "; Interp create.["height"];
                                Text " to be a multiple of create.pageHeight ";
                                Interp create.["pageHeight"]])
                else ret tt) ;;
               put "createPageHeight" create.["pageHeight"])) ;;
         (if is_defined create.["noise"] then
            let noise := fields create.["noise"] in
            (if negb (is_object create.["noise"])
             then throw (Error [Text "Expected noise to be an object"]) else ret tt) ;;
            (if negb (eq_str noise.["type"] "gaussian")
             then throw (Error [Text "Only gaussian noise is supported at the moment"])
             else ret tt) ;;
            put "createNoiseType" noise.["type"] ;;
            (if negb (is_inRange create.["channels"] 1 4)
             then throw (invalidParameterError "create.channels" "number between 1 and 4"
                           create.["channels"])
             else ret tt) ;;
            put "createNoiseMean" (VNum 128) ;;
            when (is_defined noise.["mean"])
              (check (is_number noise.["mean"] && is_inRange noise.["mean"] 0 10000)
                 "create.noise.mean" "number between 0 and 10000" noise.["mean"]
                 (put "createNoiseMean" noise.["mean"])) ;;
            put "createNoiseSigma" (VNum 30) ;;
            when (is_defined noise.["sigma"])
              (check (is_number noise.["sigma"] && is_inRange noise.["sigma"] 0 10000)
                 "create.noise.sigma" "number between 0 and 10000" noise.["sigma"]
                 (put "createNoiseSigma" noise.["sigma"]))
          else if is_defined create.["background"] then
            (if negb (is_inRange create.["channels"] 3 4)
             then throw (invalidParameterError "create.channels" "number between 3 and 4"
                           create.["channels"])
             else ret tt) ;;
            colour <- lift (_getBackgroundColourOption create.["background"]) ;;
            put "createBackground" colour
          else throw (Error [Text "Expected valid noise or background to create a new input image"])) ;;
         remove "buffer"
       else throw (Error [Text "Expected valid width, height and channels to create a new input image"])) ;;
    (* Create a new image with text *)
    when (is_defined o.["text"])
      (let text := fields o.["text"] in
       if is_object o.["text"] && is_string text.["text"] then
         put "textValue" text.["text"] ;;
         (if is_defined text.["height"] && is_defined text.["dpi"]
          then throw (Error [Text "Expected only one of dpi or height"]) else ret tt) ;;
         when (is_defined text.["font"])
           (check (is_string text.["font"]) "text.font" "string" text.["font"]
              (put "textFont" text.["font"])) ;;
         when (is_defined text.["fontfile"])
           (check (is_string text.["fontfile"]) "text.fontfile" "string" text.["fontfile"]
              (put "textFontfile" text.["fontfile"])) ;;
         when (is_defined text.["width"])
           (check (is_integer text.["width"] && gt text.["width"] (VNum 0))
              "text.width" "positive integer" text.["width"]
              (put "textWidth" text.["width"])) ;;
         when (is_defined text.["height"])
           (check (is_integer text.["height"] && gt text.["height"] (VNum 0))
              "text.height" "positive integer" text.["height"]
              (put "textHeight" text.["height"])) ;;
         when (is_defined text.["align"])
           (check (is_string text.["align"] && is_string align.[text_of text.["align"]])
              "text.align" "valid alignment" text.["align"]
              (put "textAlign" align.[text_of text.["align"]])) ;;
         when (is_defined text.["justify"])
           (check (is_bool text.["justify"]) "text.justify" "boolean" text.["justify"]
              (put "textJustify" text.["justify"])) ;;
         when (is_defined text.["dpi"])
           (check (is_integer text.["dpi"] && is_inRange text.["dpi"] 1 1000000)
              "text.dpi" "integer between 1 and 1000000" text.["dpi"]
              (put "textDpi" text.["dpi"])) ;;
         when (is_defined text.["rgba"])
           (check (is_bool text.["rgba"]) "text.rgba" "bool" text.["rgba"]
              (put "textRgba" text.["rgba"])) ;;
         when (is_defined text.["spacing"])
           (check (is_integer text.["spacing"]
                   && is_inRange text.["spacing"] (-1000000) 1000000)
              "text.spacing" "integer between -1000000 and 1000000" text.["spacing"]
              (put "textSpacing" text.["spacing"])) ;;
         when (is_defined text.["wrap"])
           (check (is_string text.["wrap"]
                   && is_inArray text.["wrap"] ["word"; "char"; "word-char"; "none"])
              "text.wrap" "one of: word, char, word-char, none" text.["wrap"]
              (put "textWrap" text.["wrap"])) ;;
         remove "buffer"
       else throw (Error [Text "Expected a valid string to create an image with text."])) ;;
    (* Join images together *)
    when (is_defined o.["join"])
      (let join := fields o.["join"] in
       if is_defined (options this).["join"] then
         when (is_defined join.["animated"])
           (check (is_bool join.["animated"]) "join.animated" "boolean" join.["animated"]
              (put "joinAnimated" join.["animated"])) ;;
         when (is_defined join.["across"])
           (check (is_integer join.["across"] && is_inRange join.["across"] 1 1000000)
              "join.across" "integer between 1 and 100000" join.["across"]
              (put "joinAcross" join.["across"])) ;;
         when (is_defined join.["shim"])
           (check (is_integer join.["shim"] && is_inRange join.["shim"] 0 1000000)
              "join.shim" "integer between 0 and 100000" join.["shim"]
              (put "joinShim" join.["shim"])) ;;
         when (is_defined join.["background"])
           (colour <- lift (_getBackgroundColourOption join.["background"]) ;;
            put "joinBackground" colour) ;;
         when (is_defined join.["halign"])
           (check (is_string join.["halign"] && is_string align.[text_of join.["halign"]])
              "join.halign" "valid alignment" join.["halign"]
              (put "joinHalign" align.[text_of join.["halign"]])) ;;
         when (is_defined join.["valign"])
           (check (is_string join.["valign"] && is_string align.[text_of join.["valign"]])
              "join.valign" "valid alignment" join.["valign"]
              (put "joinValign" align.[text_of join.["valign"]]))
       else throw (Error [Text "Expected input to be an array of images to join"]))
  else if is_defined inputOptions then
    throw (Error [Text "Invalid input options "; Interp inputOptions])
  else ret tt.

(** The object literal that [inputDescriptor] starts from;
    [Math.pow(0x3FFF, 2)] is 268402689. *)
Definition inputDescriptor0 : props :=
  [("autoOrient", VBool false); ("failOn", VStr "warning");
   ("limitInputPixels", VNum 268402689); ("ignoreIcc", VBool false);
   ("unlimited", VBool false); ("sequentialRead", VBool true)].

(** [input.length] (in bytes for an [ArrayBuffer]: [input.byteLength]). *)
Definition length_of (input : value) : nat :=
  match input with
  | VBuffer bytes | VArrayBuffer bytes => List.length bytes
  | VTypedArray _ _ _ n => n
  | VArr elements => List.length elements
  | _ => 0%nat
  end.

(** [Buffer.from(input, 0, input.byteLength)] of an [ArrayBuffer] and
    [Buffer.from(input.buffer, input.byteOffset, input.byteLength)] of a
    typed array. *)
Definition Buffer_of (input : value) : value :=
  match input with
  | VArrayBuffer bytes => Buffer_from bytes 0 (List.length bytes)
  | VTypedArray k buffer byteOffset n => Buffer_from buffer byteOffset (byteLength k n)
  | _ => input
  end.

(** Create Object containing input and input-related options.  The result
    is [inputDescriptor]; the first half resolves the kind of source (and
    rebinds [inputOptions] for a plain-object input), the second half is
    [inputOptions_into_descriptor]. *)
Fixpoint _createInputDescriptor (input inputOptions containerOptions : value)
    {struct input} : M value :=
  let inputDescriptor := inputDescriptor0 in
  source <-
    (if is_string input then
       (* filesystem *)
       ret (set "file" input inputDescriptor, inputOptions)
     else if is_buffer input then
       if (length_of input =? 0)%nat then throw (Error [Text "Input Buffer is empty"])
       else ret (set "buffer" input inputDescriptor, inputOptions)
     else if is_arrayBuffer input then
       if (length_of input =? 0)%nat then throw (Error [Text "Input bit Array is empty"])
       else ret (set "buffer" (Buffer_of input) inputDescriptor, inputOptions)
     else if is_typedArray input then
       if (length_of input =? 0)%nat then throw (Error [Text "Input Bit Array is empty"])
       else ret (set "buffer" (Buffer_of input) inputDescriptor, inputOptions)
     else if is_plainObject input && negb (is_defined inputOptions) then
       (* Plain Object descriptor, e.g. create *)
       if truthy (_inputOptionsFromObject (fields input))
       then ret (set "buffer" (VArr []) inputDescriptor, input)   (* Stream with options *)
       else ret (inputDescriptor, input)
     else
       allowStream <-
         (if negb (is_defined input) && negb (is_defined inputOptions)
             && is_object containerOptions
          then c <- properties containerOptions ;; ret (truthy c.["allowStream"])
          else ret false) ;;
       if allowStream then
         (* Stream without options *)
         ret (set "buffer" (VArr []) inputDescriptor, inputOptions)
       else
         match input with
         | VArr elements =>
             if (1 <? List.length elements)%nat then
               (* Join images together *)
               joining <- read "joining" ;;
               if negb (truthy joining) then
                 write "joining" (VBool true) ;;
                 join <-
                   (fix map (l : list value) : M (list value) :=
                      match l with
                      | [] => ret []
                      | i :: rest =>
                          d <- _createInputDescriptor i VUndefined VUndefined ;;
                          ds <- map rest ;;
                          ret (d :: ds)
                      end) elements ;;
                 write "join" (VArr join) ;;
                 ret (inputDescriptor, inputOptions)
               else throw (Error [Text "Recursive join is unsupported"])
             else throw (Error [Text "Expected at least two images to join"])
         | _ =>
             throw (Error (List.app
                             [Text "Unsupported input '"; Interp input; Text "' of type ";
                              Text (typeof input)]
                             (if is_defined inputOptions
                              then [Text " when also providing options of type ";
                                    Text (typeof inputOptions)]
                              else [])))
         end) ;;
  this <- (fun this => (Normal this, this)) ;;
  match inputOptions_into_descriptor this input (snd source) (fst source) with
  | (Normal _, inputDescriptor) => ret (VObj inputDescriptor)
  | (Throw e, _) => throw e
  end.

(** [input.map(i => this._createInputDescriptor(i))], the loop of the join
    branch by itself. *)
Definition _createInputDescriptor_each : list value -> M (list value) :=
  fix map (l : list value) : M (list value) :=
    match l with
    | [] => ret []
    | i :: rest =>
        d <- _createInputDescriptor i VUndefined VUndefined ;;
        ds <- map rest ;;
        ret (d :: ds)
    end.

End Options.

(** ** The writable side *)

(** What [_write] does with a chunk: it takes it and calls [callback()],
    having first registered the [finish] listener when the chunk is the
    first one, or it calls [callback(err)]. *)
Inductive written :=
| Accepted (registersFinish : bool)
| Refused (err : error).

Definition _write (chunk : value) : M written :=
  input <- read "input" ;;
  i <- properties input ;;
  match i.["buffer"] with
  | VArr chunks =>
      if is_buffer chunk then
        write "input" (VObj (set "buffer" (VArr (List.app chunks [chunk])) i)) ;;
        ret (Accepted (List.length chunks =? 0)%nat)
      else ret (Refused (Error [Text "Non-Buffer data on Writable Stream"]))
  | _ => ret (Refused (Error [Text "Unexpected data on Writable Stream"]))
  end.

(** [Buffer.concat(chunks)] of the runtime: the bytes of the chunks in
    order, a [TypeError] when an element is neither a [Buffer] nor a
    [Uint8Array]. *)
Fixpoint Buffer_concat (chunks : list value) : completion (list Byte.byte) :=
  match chunks with
  | [] => Normal []
  | chunk :: rest =>
      match (match chunk with
             | VBuffer bytes => Some bytes
             | VTypedArray Uint8Array buffer byteOffset n =>
                 Some (firstn n (skipn byteOffset buffer))
             | _ => None
             end), Buffer_concat rest with
      | Some bytes, Normal tail => Normal (List.app bytes tail)
      | _, _ => Throw TypeError
      end
  end.

(** Flattens the array of chunks accumulated in input.buffer. *)
Definition _flattenBufferIn : M unit :=
  streamIn <- Output._isStreamInput ;;
  when streamIn
    (input <- read "input" ;;
     i <- properties input ;;
     match i.["buffer"] with
     | VArr chunks =>
         match Buffer_concat chunks with
         | Normal bytes => write "input" (VObj (set "buffer" (VBuffer bytes) i))
         | Throw e => throw e
         end
     | _ => throw TypeError
     end).

End Input.

(* ===================================================================== *)
(** * Vocabulary of the properties *)
(* ===================================================================== *)

Import Output.
Import Input.

(** The integers [lo], [lo + 1], ..., [lo + len - 1]. *)
Definition Z_range (lo : Z) (len : nat) : list Z :=
  List.map (fun i => lo + Z.of_nat i) (seq 0 len).

(** [m] leaves [this.options[k]] as it was, however it completes. *)
Definition preserves (k : string) {A} (m : M A) : Prop :=
  forall this, (options (snd (m this))).[k] = (options this).[k].

(** The format selection after [_updateFormatOut(name, options)] on an
    instance whose selection was [previous]. *)
Definition selected (name : string) (opts previous : value) : value :=
  if is_object opts && is_false (Input.fields opts).["force"]
  then previous else VStr name.

(** [m], run where the selection is still [previous] and completing
    normally, leaves [selected name opts previous]. *)
Definition selects (name : string) (opts previous : value) (m : M unit) : Prop :=
  forall this this',
    (options this).["formatOut"] = previous ->
    m this = (Normal tt, this') ->
    (options this').["formatOut"] = selected name opts previous.

(** What the resolvers need of the double of a colour count. *)
Definition colour_count_ok (n : Z) : bool :=
  is_integer (VNum (num n)) && is_inRange (VNum (num n)) 2 256
  && truthy (VNum (num n)) && (truncate (num n) =? n).

(** A resolver that completes normally leaves the selection that
    [_updateFormatOut(name, options)] makes. *)
Definition concludes_with (resolver : value -> M unit) (name : string) : Prop :=
  forall opts this this',
    resolver opts this = (Normal tt, this') ->
    (options this').["formatOut"] = selected name opts (options this).["formatOut"].

(** A body whose last step is [_updateFormatOut(name)], without options. *)
Definition overwrites (name : string) (m : M unit) : Prop :=
  forall this this',
    m this = (Normal tt, this') -> (options this').["formatOut"] = VStr name.

(** An instance before any resolver has run: no format selected, palette
    mode off, no metadata kept, no EXIF override. *)
Definition an_instance : Sharp :=
  {| options := [("formatOut", VStr "input"); ("pngPalette", VBool false);
                 ("keepMetadata", VNum 0); ("withExif", VObj [])];
     constructor := {| jp2k_output_file := true; jp2k_output_buffer := true;
                       versions_heif := VUndefined |} |}.

(** The options object [{key: v}]. *)
Definition one (key : string) (v : value) : value := VObj [(key, v)].

(** [m] completes normally on every instance. *)
Definition returns {A} (m : M A) : Prop :=
  forall this, exists a, fst (m this) = Normal a.

(** After [m], however it completes, [this.options[k]] is [v]. *)
Definition leaves (k : string) (v : value) {A} (m : M A) : Prop :=
  forall this, (options (snd (m this))).[k] = v.

(** The checks of [png] that precede the palette step all pass. *)
Definition reaches_palette_step (o : props) : bool :=
  (negb (is_defined o.["progressive"]) || is_bool o.["progressive"])
  && (negb (is_defined o.["compressionLevel"])
      || (is_integer o.["compressionLevel"] && is_inRange o.["compressionLevel"] 0 9))
  && (negb (is_defined o.["adaptiveFiltering"]) || is_bool o.["adaptiveFiltering"])
  && (negb (is_defined (or_else o.["colours"] o.["colors"]))
      || (is_integer (or_else o.["colours"] o.["colors"])
          && is_inRange (or_else o.["colours"] o.["colors"]) 2 256)).

(** The retention mask as a 32-bit integer. *)
Definition retention_mask (this : Sharp) : Z := ToInt32 (options this).["keepMetadata"].

(** The rational a finite double denotes (0 for NaN and the infinities). *)
Definition exact (x : float) : Q :=
  match Prim2SF x with
  | S754_finite s m e =>
      let mag := if Z.leb 0 e then inject_Z (Z.pos m * 2 ^ e)
                 else Qmake (Z.pos m) (Z.to_pos (2 ^ (- e))) in
      if s then Qopp mag else mag
  | _ => 0%Q
  end.

(** The piecewise formula of the specification, in exact arithmetic. *)
Definition jxl_formula (q : Z) : Q :=
  if Z.leb 30 q
  then ((1 # 10) + inject_Z (100 - q)%Z * (9 # 100))%Q
  else ((53 # 3000) * inject_Z (q * q)%Z - (23 # 20) * inject_Z q + inject_Z 25)%Q.

(** What [jxl] needs of the double of a quality, and how close the
    distance it computes is to the formula. *)
Definition quality_ok (q : Z) : bool :=
  is_integer (VNum (num q)) && is_inRange (VNum (num q)) 1 100
  && Qle_bool (Qabs (exact (jxlDistanceFromQuality (num q)) - jxl_formula q)) (1 # 2 ^ 40).

(** The resolver's first step passes: a defined quality is valid, or no
    quality is defined and a defined distance is valid. *)
Definition distance_step_passes (o : props) : bool :=
  if is_defined o.["quality"]
  then is_integer o.["quality"] && is_inRange o.["quality"] 1 100
  else negb (is_defined o.["distance"])
       || (is_number o.["distance"] && is_inRange o.["distance"] 0 15).

(** What [timeout] needs of the double of a number of seconds. *)
Definition seconds_ok (s : Z) : bool :=
  is_integer (VNum (num s)) && is_inRange (VNum (num s)) 0 3600.

(** [m] throws [e] on every instance. *)
Definition fails_with (e : error) {A} (m : M A) : Prop :=
  forall this, fst (m this) = Throw e.

(** How [toFile] hands over an error: to the callback when there is one,
    as a rejected promise otherwise. *)
Definition delivers (err : error) (callback : value) : toFile_outcome :=
  if is_fn callback then CallsBack err else Rejects err.

(** The outcome invokes the engine. *)
Definition invokes_engine (outcome : toFile_outcome) : bool :=
  match outcome with Pipelines _ => true | _ => false end.

(** The three guards of [toFile], each as the source tests it: the path
    is missing or not a string; it resolves to the path of the file-based
    input; its extension is a JPEG 2000 one and the engine cannot write
    JP2 files. *)
Definition path_is_missing (fileOut : value) : bool := negb (is_string fileOut).

Definition path_is_input (path_resolve : string -> string) (input : props)
    (fileOut : value) : bool :=
  is_string input.["file"]
  && String.eqb (path_resolve (text_of input.["file"])) (path_resolve (text_of fileOut)).

Definition jp2_is_unsupported (path_extname : string -> string) (this : Sharp)
    (fileOut : value) : bool :=
  jp2Regex_test (path_extname (text_of fileOut))
  && negb (jp2k_output_file (constructor this)).

(** The last four characters of a path: enough of [path.extname] for a
    file name with a three-letter extension. *)
Definition last4 (s : string) : string := substring (String.length s - 4) 4 s.

(** An instance whose input is the file [file], on an engine without
    JPEG 2000 support. *)
Definition an_instance_reading (file : string) : Sharp :=
  {| options := set "input" (VObj [("file", VStr file)]) (options an_instance);
     constructor := {| jp2k_output_file := false; jp2k_output_buffer := false;
                       versions_heif := VUndefined |} |}.

(** A source that needs no options: a file path or non-empty binary data. *)
Definition is_image (v : value) : bool :=
  is_string v
  || ((is_buffer v || is_arrayBuffer v || is_typedArray v) && negb (length_of v =? 0)%nat).

(** The descriptor built for such a source. *)
Definition image_descriptor (v : value) : value :=
  VObj (if is_string v then set "file" v inputDescriptor0
        else set "buffer" (if is_buffer v then v else Buffer_of v) inputDescriptor0).

(** The instance once a join has started, [this.options.joining = true],
    and once the descriptors of its elements are stored in
    [this.options.join]. *)
Definition joining (this : Sharp) : Sharp :=
  {| options := set "joining" (VBool true) (options this);
     constructor := constructor this |}.

Definition joined_with (descriptors : list value) (this : Sharp) : Sharp :=
  {| options := set "join" (VArr descriptors) (options (joining this));
     constructor := constructor this |}.

(** The build of an array element, [this._createInputDescriptor(i)],
    returns [descriptor] on the instance [this]. *)
Definition builds (getBg : value -> completion value) (this : Sharp)
    (element descriptor : value) : Prop :=
  _createInputDescriptor getBg element VUndefined VUndefined this
  = (Normal descriptor, this).

(** [m] leaves the instance as it is, however it completes. *)
Definition reads_only {A} (m : M A) : Prop := forall this, snd (m this) = this.

(** What the raw options need of the double of a channel count. *)
Definition channels_ok (c : Z) : bool :=
  is_integer (VNum (num c)) && is_inRange (VNum (num c)) 1 4.

(** The resolver [toFormat] reaches for each name and alias: the keys of
    [formats], each with the method its entry names. *)
Definition resolvers (_setBackgroundColourOption : string -> value -> M unit)
    : list (string * (value -> M unit)) :=
  [("heic", heif); ("heif", heif); ("avif", avif); ("jpeg", jpeg);
   ("jpg", jpeg); ("jpe", jpeg); ("tile", tile _setBackgroundColourOption);
   ("dz", tile _setBackgroundColourOption);
   ("png", png); ("raw", raw); ("tiff", tiff); ("tif", tiff);
   ("webp", webp); ("gif", gif); ("jp2", jp2); ("jpx", jp2);
   ("j2k", jp2); ("j2c", jp2); ("jxl", jxl)].

(** The name [toFormat] looks up: the format when it is a string, its
    [id] when it is an object with a non-empty string [id]. *)
Definition format_name (format : value) : option string :=
  match format with
  | VStr s => Some s
  | VObj f => if is_string f.["id"] then Some (text_of f.["id"]) else None
  | _ => None
  end.

(** [P] holds of the state after [m], however [m] completes, whenever it
    held before. *)
Definition invariant {S A} (P : S -> Prop) (m : St S A) : Prop :=
  forall st, P st -> P (snd (m st)).

(** The methods that keep metadata of the input, each with the bits of the
    retention mask it sets. *)
Definition keepers : list (M unit * Z) :=
  [(keepExif, 1); (keepXmp, 2); (keepIccProfile, 8); (keepMetadata, 31)].





(** The options a resolver may write: those whose name begins with its
    own, and the shared ones listed. *)
Definition owns (name : string) (shared : list string) (k : string) : bool :=
  String.prefix name k || existsb (String.eqb k) shared.

(** [m] leaves every option alone that [name] does not own. *)
Definition writes_only (name : string) (shared : list string) {A} (m : M A) : Prop :=
  forall k, owns name shared k = false -> preserves k m.

(** The value a resolver takes for an option that has two spellings: the
    American one when it has the expected type, the British one
    otherwise. *)
Definition spelled (is_kind : value -> bool) (american british : string) (o : props) : value :=
  if is_kind o.[american] then o.[american] else o.[british].

(** [v] when it is defined, the default [d] otherwise. *)
Definition or_default (v d : value) : value := if is_defined v then v else d.


(** The resolvers of the formats that can be animated, and what they
    accept as one frame delay. *)
Definition animated : list (value -> M unit) := [webp; gif; jxl].

Definition is_delay (v : value) : bool := is_integer v && is_inRange v 0 65535.

(** What the quality-to-distance map of [jxl] does at the quality [q]:
    the next quality gives a smaller distance, and the distance is one
    that [jxl] accepts as [options.distance] exactly from quality 11
    on. *)
Definition distance_profile (q : Z) : bool :=
  is_integer (VNum (num q)) && is_inRange (VNum (num q)) 1 100
  && ((q =? 100)
      || PrimFloat.ltb (jxlDistanceFromQuality (num (q + 1)))
           (jxlDistanceFromQuality (num q)))
  && Bool.eqb (is_inRange (VNum (jxlDistanceFromQuality (num q))) 0 15) (11 <=? q).

(** The double of an integer passes the bit depth checks of [tiff] and
    [heif] exactly when the integer is one of the listed depths. *)
Definition bitdepth_profile (n : Z) : bool :=
  Bool.eqb (is_integer (VNum (num n)) && is_inNumbers (VNum (num n)) [1; 2; 4; 8]%float)
    (existsb (Z.eqb n) [1; 2; 4; 8])
  && Bool.eqb (is_integer (VNum (num n)) && is_inNumbers (VNum (num n)) [8; 10; 12]%float)
       (existsb (Z.eqb n) [8; 10; 12])
  && Bool.eqb (is_inNumbers (VNum (num n)) [8]%float) (n =? 8).

(** [inputDescriptor[k]] satisfies [Q]. *)
Definition entry (k : string) (Q : value -> Prop) (d : props) : Prop := Q d.[k].

(** [m], started where [P] holds and completing normally, ends where [Q]
    holds. *)
Definition triple {S A} (P : S -> Prop) (m : St S A) (Q : S -> Prop) : Prop :=
  forall st a st', P st -> m st = (Normal a, st') -> Q st'.

(** The options that [_createInputDescriptor] validates: the input itself
    when it is a plain object given without options. *)
Definition options_used (input inputOptions : value) : value :=
  if is_plainObject input && negb (is_defined inputOptions) then input else inputOptions.

(** The descriptor as the first half of [_createInputDescriptor] leaves
    it for an input it accepts: the defaults, with the path of a file, the
    bytes of a binary input, or the empty chunk list of a stream. *)
Definition source_descriptor (input inputOptions : value) : props :=
  if is_string input then set "file" input inputDescriptor0
  else if is_buffer input then set "buffer" input inputDescriptor0
  else if is_arrayBuffer input || is_typedArray input
  then set "buffer" (Buffer_of input) inputDescriptor0
  else if is_plainObject input && negb (is_defined inputOptions) then
    if truthy (_inputOptionsFromObject (fields input))
    then set "buffer" (VArr []) inputDescriptor0 else inputDescriptor0
  else match input with
       | VArr _ => inputDescriptor0
       | _ => set "buffer" (VArr []) inputDescriptor0
       end.

(** The six fields every descriptor starts with, and the check each of
    them passes. *)
Definition base_fields : list (string * (value -> bool)) :=
  [("autoOrient", is_bool);
   ("failOn", fun v => is_inArray v ["none"; "truncated"; "error"; "warning"]);
   ("limitInputPixels", fun v => is_integer v && is_inRange v 0 9007199254740991);
   ("ignoreIcc", is_bool);
   ("unlimited", is_bool);
   ("sequentialRead", is_bool)].

(** No key occurs twice in the descriptor; and the descriptor, with
    unique keys, has no [buffer]. *)
Definition unique_keys (d : props) : Prop := NoDup (List.map fst d).

Definition no_buffer (d : props) : Prop := unique_keys d /\ d.["buffer"] = VUndefined.

(** The writable side calls [_write] once per chunk, in order. *)
Fixpoint writes (chunks : list value) : M (list written) :=
  match chunks with
  | [] => ret []
  | chunk :: rest =>
      outcome <- _write chunk ;;
      outcomes <- writes rest ;;
      ret (outcome :: outcomes)
  end.

(** What these calls answer when [n] chunks are held already: a Buffer is
    taken, the first one registering the [finish] listener; anything else
    is refused. *)
Fixpoint answers (n : nat) (chunks : list value) : list written :=
  match chunks with
  | [] => []
  | chunk :: rest =>
      if is_buffer chunk then Accepted (n =? 0)%nat :: answers (S n) rest
      else Refused (Error [Text "Non-Buffer data on Writable Stream"]) :: answers n rest
  end.

(** The bytes of the Buffers among the chunks, in order. *)
Definition bytes_of (chunks : list value) : list Byte.byte :=
  List.concat (List.map (fun c => match c with VBuffer bytes => bytes | _ => [] end)
                 (List.filter is_buffer chunks)).

(* ===================================================================== *)
(** * Properties *)
(* ===================================================================== *)


(** ** Property lists *)

Lemma get_set_same (k : string) (v : value) (o : props) :
  (set k v o).[k] = v.
Proof.
  induction o as [| [k' v'] rest IH]; simpl.
  - now rewrite String.eqb_refl.
  - destruct (String.eqb k k') eqn:E; simpl.
    + now rewrite String.eqb_refl.
    + now rewrite E.
Qed.

Lemma get_set_other (k k' : string) (v : value) (o : props) :
  String.eqb k k' = false -> (set k' v o).[k] = o.[k].
Proof.
  intros Hk.
  induction o as [| [k0 v0] rest IH]; simpl.
  - now rewrite Hk.
  - destruct (String.eqb k' k0) eqn:E; simpl.
    + apply String.eqb_eq in E. subst k0. now rewrite Hk.
    + destruct (String.eqb k k0); [reflexivity | exact IH].
Qed.

Lemma set_set_same (k : string) (v w : value) (o : props) :
  set k w (set k v o) = set k w o.
Proof.
  induction o as [| [k' v'] rest IH]; simpl.
  - now rewrite String.eqb_refl.
  - destruct (String.eqb k k') eqn:E; simpl.
    + now rewrite String.eqb_refl.
    + now rewrite E, IH.
Qed.

(** ** Integers as doubles *)

Lemma Z_range_complete (lo : Z) (len : nat) (n : Z) :
  lo <= n < lo + Z.of_nat len -> In n (Z_range lo len).
Proof.
  intros H. unfold Z_range. apply in_map_iff.
  exists (Z.to_nat (n - lo)). split; [lia |].
  apply in_seq. lia.
Qed.

Lemma forall_Z_range (P : Z -> bool) (lo : Z) (len : nat) :
  forallb P (Z_range lo len) = true ->
  forall n, lo <= n < lo + Z.of_nat len -> P n = true.
Proof.
  intros H n Hn. rewrite forallb_forall in H. apply H, Z_range_complete, Hn.
Qed.

Lemma integral_truncate (x : float) (z : Z) :
  integral x = Some z -> truncate x = z.
Proof.
  unfold integral, truncate.
  destruct (Prim2SF x) as [s | s | | s m e]; try discriminate.
  - now intros [= <-].
  - destruct (0 <=? e).
    + set (mag := Z.pos m * 2 ^ e). intros [= <-]. destruct s; ring.
    + destruct (Z.pos m mod 2 ^ (- e) =? 0); [| discriminate].
      set (mag := Z.pos m / 2 ^ (- e)). intros [= <-]. destruct s; ring.
Qed.

(** ** Running a method body symbolically *)

Arguments truthy !v : simpl nomatch.
Arguments is_integer !v : simpl nomatch.
Arguments is_number !v : simpl nomatch.
Arguments is_inRange !v min max : simpl nomatch.
Arguments ToNumber !v : simpl nomatch.

Ltac js_unfold :=
  unfold _updateFormatOut, _setBooleanOption, trySetAnimationOptions,
         check, when, properties, read, write, this_constructor, bind, ret, throw.

(** Reading an option back after a chain of assignments. *)
Ltac lookup := repeat (rewrite get_set_same || rewrite get_set_other by reflexivity).

(** ** Frames: the keys a method body leaves alone *)

Section Frame.
Variable k : string.

Lemma preserves_ret {A} (a : A) : preserves k (ret a).
Proof. intros this. reflexivity. Qed.

Lemma preserves_throw {A} (e : error) : preserves k (@throw Sharp A e).
Proof. intros this. reflexivity. Qed.

Lemma preserves_read (key : string) : preserves k (read key).
Proof. intros this. reflexivity. Qed.

Lemma preserves_this_constructor : preserves k this_constructor.
Proof. intros this. reflexivity. Qed.

Lemma preserves_properties (v : value) : preserves k (properties v).
Proof. intros this. destruct v; reflexivity. Qed.

Lemma preserves_write (key : string) (v : value) :
  String.eqb k key = false -> preserves k (write key v).
Proof. intros H this. simpl. now apply get_set_other. Qed.

Lemma preserves_bind {A B} (m : M A) (f : A -> M B) :
  preserves k m -> (forall a, preserves k (f a)) -> preserves k (bind m f).
Proof.
  intros Hm Hf this. unfold bind.
  specialize (Hm this). destruct (m this) as [[a | e] this1]; simpl in *.
  - now rewrite Hf.
  - exact Hm.
Qed.

Lemma preserves_when (b : bool) (m : M unit) :
  preserves k m -> preserves k (when b m).
Proof. intros Hm. destruct b; [exact Hm | apply preserves_ret]. Qed.

Lemma preserves_check (ok : bool) (name expected : string) (actual : value) (m : M unit) :
  preserves k m -> preserves k (check ok name expected actual m).
Proof. intros Hm. destruct ok; [exact Hm | apply preserves_throw]. Qed.

Lemma preserves_if {A} (b : bool) (m1 m2 : M A) :
  preserves k m1 -> preserves k m2 -> preserves k (if b then m1 else m2).
Proof. now destruct b. Qed.

Lemma preserves_setBooleanOption (key : string) (v : value) :
  String.eqb k key = false -> preserves k (_setBooleanOption key v).
Proof.
  intros H. unfold _setBooleanOption.
  apply preserves_if; [now apply preserves_write | apply preserves_throw].
Qed.

End Frame.

Ltac frame :=
  repeat first
    [ apply preserves_ret | apply preserves_throw | apply preserves_read
    | apply preserves_this_constructor | apply preserves_properties
    | apply preserves_write; reflexivity
    | apply preserves_setBooleanOption; reflexivity
    | apply preserves_when | apply preserves_check | apply preserves_if
    | apply preserves_bind; [| intros ?] ].

Lemma preserves_trySetAnimationOptions (k : string) (source : value) :
  String.eqb k "loop" = false -> String.eqb k "delay" = false ->
  preserves k (trySetAnimationOptions source).
Proof.
  intros H1 H2. unfold trySetAnimationOptions. frame; apply preserves_write; assumption.
Qed.

(** ** Outcomes: what a body leaves, whether it returns, how it fails *)

Lemma leaves_write (k : string) (v : value) : leaves k v (write k v).
Proof. intros this. simpl. apply get_set_same. Qed.

Lemma leaves_then {A B} (k : string) (v : value) (m : M A) (f : A -> M B) :
  leaves k v m -> (forall a, preserves k (f a)) -> leaves k v (bind m f).
Proof.
  intros Hm Hf this. unfold bind. specialize (Hm this).
  destruct (m this) as [[a | e] this1]; simpl in *; [| exact Hm].
  now rewrite Hf.
Qed.

Lemma leaves_after {A B} (k : string) (v : value) (m : M A) (f : A -> M B) :
  returns m -> (forall a, leaves k v (f a)) -> leaves k v (bind m f).
Proof.
  intros Hm Hf this. unfold bind. destruct (Hm this) as [a Ha].
  destruct (m this) as [[a' | e] this1]; simpl in *; [apply Hf | discriminate].
Qed.

Lemma leaves_ret_bind {A B} (k : string) (v : value) (a : A) (f : A -> M B) :
  leaves k v (f a) -> leaves k v (bind (ret a) f).
Proof. intros H this. exact (H this). Qed.

Lemma returns_ret {A} (a : A) : returns (@ret Sharp A a).
Proof. intros this. now exists a. Qed.

Lemma returns_write (k : string) (v : value) : returns (write k v).
Proof. intros this. now exists tt. Qed.

Lemma returns_when (b : bool) (m : M unit) :
  (b = true -> returns m) -> returns (when b m).
Proof. destruct b; intros H; [now apply H | apply returns_ret]. Qed.

Lemma returns_setBooleanOption (k : string) (v : value) :
  is_bool v = true -> returns (_setBooleanOption k v).
Proof. intros H. unfold _setBooleanOption. rewrite H. apply returns_write. Qed.

Lemma returns_check (ok : bool) (name expected : string) (actual : value) (m : M unit) :
  ok = true -> returns m -> returns (check ok name expected actual m).
Proof. intros -> H. exact H. Qed.

Lemma guarded (d ok : bool) : negb d || ok = true -> d = true -> ok = true.
Proof. now destruct d, ok. Qed.

Lemma fails_throw {A} (e : error) : fails_with e (@throw Sharp A e).
Proof. intros this. reflexivity. Qed.

Lemma fails_now {A B} (e : error) (m : M A) (f : A -> M B) :
  fails_with e m -> fails_with e (bind m f).
Proof.
  intros Hm this. unfold bind. specialize (Hm this).
  destruct (m this) as [[a | e'] this1]; simpl in *; [discriminate |].
  now injection Hm as ->.
Qed.

Lemma fails_ret_bind {A B} (e : error) (a : A) (f : A -> M B) :
  fails_with e (f a) -> fails_with e (bind (ret a) f).
Proof. intros H this. exact (H this). Qed.

Lemma fails_after {A B} (e : error) (m : M A) (f : A -> M B) :
  returns m -> (forall a, fails_with e (f a)) -> fails_with e (bind m f).
Proof.
  intros Hm Hf this. unfold bind. destruct (Hm this) as [a Ha].
  destruct (m this) as [[a' | e'] this1]; simpl in *; [apply Hf | discriminate].
Qed.

Lemma bind_normal {A B} (m : M A) (f : A -> M B) (this this' : Sharp) (b : B) :
  bind m f this = (Normal b, this') ->
  exists a this1, m this = (Normal a, this1) /\ f a this1 = (Normal b, this').
Proof.
  unfold bind. destruct (m this) as [[a | e] this1]; [| discriminate].
  intros H. now exists a, this1.
Qed.


(** ** The format a resolver selects *)

Lemma selects_updateFormatOut (name : string) (opts previous : value) :
  selects name opts previous (_updateFormatOut name opts).
Proof.
  intros this this' Hprev. unfold selected. js_unfold.
  destruct opts as [| | | | | ps | | | | |]; simpl; try discriminate;
    try (intros [= <-]; simpl; now rewrite get_set_same).
  destruct (is_false ps.["force"]); simpl; intros [= <-]; simpl.
  - exact Hprev.
  - now rewrite get_set_same.
Qed.

Lemma selects_bind {A} (name : string) (opts previous : value)
    (m : M A) (f : A -> M unit) :
  preserves "formatOut" m ->
  (forall a, selects name opts previous (f a)) ->
  selects name opts previous (bind m f).
Proof.
  intros Hm Hf this this' Hprev. unfold bind.
  specialize (Hm this). destruct (m this) as [[a | e] this1]; simpl in Hm.
  - apply Hf. now rewrite Hm.
  - discriminate.
Qed.

Ltac selects :=
  repeat lazymatch goal with
    | |- selects _ _ _ (_updateFormatOut _ _) => apply selects_updateFormatOut
    | |- selects _ _ _ (bind (trySetAnimationOptions _) _) =>
        apply selects_bind;
        [apply preserves_trySetAnimationOptions; reflexivity | intros ?]
    | |- selects _ _ _ (bind _ _) => apply selects_bind; [solve [frame] | intros ?]
    end.

Lemma jpeg_selects opts previous : selects "jpeg" opts previous (jpeg opts).
Proof. unfold jpeg. selects. Qed.
Lemma png_selects opts previous : selects "png" opts previous (png opts).
Proof. unfold png. selects. Qed.
Lemma tiff_selects opts previous : selects "tiff" opts previous (tiff opts).
Proof. unfold tiff. selects. Qed.
Lemma jp2_selects opts previous : selects "jp2" opts previous (jp2 opts).
Proof. unfold jp2. selects. Qed.
Lemma heif_selects opts previous : selects "heif" opts previous (heif opts).
Proof. unfold heif. selects. Qed.
Lemma webp_selects opts previous : selects "webp" opts previous (webp opts).
Proof.
  unfold webp. selects.
Qed.
Lemma gif_selects opts previous : selects "gif" opts previous (gif opts).
Proof. unfold gif. selects. Qed.
Lemma jxl_selects opts previous : selects "jxl" opts previous (jxl opts).
Proof. unfold jxl. selects. Qed.

(** ** Colour counts and bit depths *)

Lemma bitdepth_closed_form (n : Z) :
  2 <= n <= 256 -> bitdepthFromColourCount n = 2 ^ Z.log2 (Z.log2_up n).
Proof.
  intros Hn. unfold bitdepthFromColourCount, Math_ceil_log2.
  assert (Hk : 1 <= Z.log2_up n <= 8).
  { split.
    - change 1 with (Z.log2_up 2). apply Z.log2_up_le_mono. lia.
    - change 8 with (Z.log2_up 256). apply Z.log2_up_le_mono. lia. }
  set (k := Z.log2_up n) in *.
  assert (Hc : k = 1 \/ k = 2 \/ k = 3 \/ k = 4 \/ k = 5 \/ k = 6 \/ k = 7 \/ k = 8) by lia.
  destruct Hc as [-> | [-> | [-> | [-> | [-> | [-> | [-> | ->]]]]]]]; reflexivity.
Qed.

Lemma colour_counts_ok (n : Z) : 2 <= n <= 256 -> colour_count_ok n = true.
Proof.
  intros Hn.
  apply (forall_Z_range colour_count_ok 2 255); [vm_compute; reflexivity | lia].
Qed.

Lemma png_colours (x : float) (this : Sharp) :
  is_integer (VNum x) = true -> is_inRange (VNum x) 2 256 = true ->
  truthy (VNum x) = true ->
  png (VObj [("colours", VNum x)]) this =
  (Normal tt,
   {| options := set "formatOut" (VStr "png")
                   (set "pngPalette" (VBool true)
                      (set "pngBitdepth" (bitdepthFromColourCount_value (VNum x))
                         (options this)));
      constructor := constructor this |}).
Proof.
  intros Hi Hr Ht.
  unfold png. js_unfold. simpl. unfold or_else. rewrite Ht, Hi, Hr. simpl.
  rewrite get_set_same. reflexivity.
Qed.

Lemma gif_colours (x : float) (this : Sharp) :
  is_integer (VNum x) = true -> is_inRange (VNum x) 2 256 = true ->
  truthy (VNum x) = true ->
  gif (VObj [("colours", VNum x)]) this =
  (Normal tt,
   {| options := set "formatOut" (VStr "gif")
                   (set "gifBitdepth" (bitdepthFromColourCount_value (VNum x))
                      (options this));
      constructor := constructor this |}).
Proof.
  intros Hi Hr Ht.
  unfold gif. js_unfold. simpl. unfold or_else. rewrite Ht, Hi, Hr. reflexivity.
Qed.

(** C1, as the specification states it, fails: for two colours the
    conversion yields the bit depth 1, not [2^ceil(log2 2) = 2]. *)
Lemma bitdepthFromColourCount_is_not_colour_ceiling :
  bitdepthFromColourCount 2 = 1 /\ bitdepthFromColourCount 2 <> 2 ^ Z.log2_up 2.
Proof. split; [reflexivity | discriminate]. Qed.

(** C1 (amended): for every integer [n] in [2,256] the conversion yields
    the largest power of two not exceeding [ceil(log2 n)], that is
    [2^floor(log2(ceil(log2 n)))], a bit depth among 1, 2, 4 and 8; in
    particular 2 colours give 1, 256 give 8, 3 give 2 and 17 give 4; and
    [png({colours: n})] and [gif({colours: n})] complete normally and store
    exactly this value in [pngBitdepth] and [gifBitdepth]. *)
Theorem bitdepthFromColourCount_spec :
  (forall n, 2 <= n <= 256 ->
     bitdepthFromColourCount n = 2 ^ Z.log2 (Z.log2_up n)
     /\ In (bitdepthFromColourCount n) [1; 2; 4; 8]
     /\ (forall this,
           let r := png (VObj [("colours", VNum (num n))]) this in
           fst r = Normal tt
           /\ (options (snd r)).["pngBitdepth"] = VNum (num (bitdepthFromColourCount n)))
     /\ (forall this,
           let r := gif (VObj [("colours", VNum (num n))]) this in
           fst r = Normal tt
           /\ (options (snd r)).["gifBitdepth"] = VNum (num (bitdepthFromColourCount n))))
  /\ bitdepthFromColourCount 2 = 1
  /\ bitdepthFromColourCount 256 = 8
  /\ bitdepthFromColourCount 3 = 2
  /\ bitdepthFromColourCount 17 = 4.
Proof.
  split; [| repeat split; reflexivity].
  intros n Hn.
  pose proof (colour_counts_ok n Hn) as Hok. unfold colour_count_ok in Hok.
  apply andb_prop in Hok as [Hok Ht]. apply andb_prop in Hok as [Hok Hy].
  apply andb_prop in Hok as [Hi Hr]. apply Z.eqb_eq in Ht.
  assert (Hv : bitdepthFromColourCount_value (VNum (num n))
               = VNum (num (bitdepthFromColourCount n))).
  { unfold bitdepthFromColourCount_value. simpl ToNumber. now rewrite Ht. }
  split; [apply bitdepth_closed_form, Hn |].
  split.
  { rewrite (bitdepth_closed_form n Hn).
    assert (Hk : 1 <= Z.log2_up n <= 8).
    { split.
      - change 1 with (Z.log2_up 2). apply Z.log2_up_le_mono. lia.
      - change 8 with (Z.log2_up 256). apply Z.log2_up_le_mono. lia. }
    set (k := Z.log2_up n) in *.
    assert (Hc : k = 1 \/ k = 2 \/ k = 3 \/ k = 4 \/ k = 5 \/ k = 6 \/ k = 7 \/ k = 8) by lia.
    destruct Hc as [-> | [-> | [-> | [-> | [-> | [-> | [-> | ->]]]]]]];
      simpl; tauto. }
  split; intros this r; subst r.
  - rewrite (png_colours _ this Hi Hr Hy). simpl. split; [reflexivity |].
    rewrite get_set_other by reflexivity.
    rewrite get_set_other by reflexivity.
    now rewrite get_set_same.
  - rewrite (gif_colours _ this Hi Hr Hy). simpl. split; [reflexivity |].
    rewrite get_set_other by reflexivity.
    now rewrite get_set_same.
Qed.

Lemma bitdepthFromColourCount_spec_witness :
  2 <= 16 <= 256 /\ bitdepthFromColourCount 16 = 2 ^ Z.log2 (Z.log2_up 16).
Proof.
  split; [lia |].
  apply (proj1 bitdepthFromColourCount_spec 16). lia.
Defined.

(** ** Format selection *)

Lemma selects_concludes (resolver : value -> M unit) (name : string) :
  (forall opts previous, selects name opts previous (resolver opts)) ->
  concludes_with resolver name.
Proof. intros H opts this this' Hrun. now apply (H opts _ this this'). Qed.

Lemma overwrites_updateFormatOut (name : string) :
  overwrites name (_updateFormatOut name VUndefined).
Proof.
  intros this this'. js_unfold. simpl. intros [= <-]. simpl. apply get_set_same.
Qed.

Lemma overwrites_bind {A} (name : string) (m : M A) (f : A -> M unit) :
  (forall a, overwrites name (f a)) -> overwrites name (bind m f).
Proof.
  intros Hf this this'. unfold bind.
  destruct (m this) as [[a | e] this1]; [apply Hf | discriminate].
Qed.

Lemma raw_overwrites (opts : value) : overwrites "raw" (raw opts).
Proof. unfold raw. apply overwrites_bind. intros _. apply overwrites_updateFormatOut. Qed.

Lemma tile_overwrites (setBackground : string -> value -> M unit) (opts : value) :
  overwrites "dz" (tile setBackground opts).
Proof.
  unfold tile. do 3 (apply overwrites_bind; intros ?).
  apply overwrites_updateFormatOut.
Qed.

Lemma avif_selects (opts : value) (this this' : Sharp) :
  avif opts this = (Normal tt, this') ->
  (options this').["formatOut"]
  = if is_false (entries opts).["force"] then (options this).["formatOut"] else VStr "heif".
Proof.
  unfold avif. intros Hrun.
  rewrite (heif_selects _ _ this this' eq_refl Hrun).
  unfold selected. simpl. now rewrite get_set_other by reflexivity.
Qed.

Lemma jpeg_quality (q : float) (this : Sharp) :
  is_integer (VNum q) = true -> is_inRange (VNum q) 1 100 = true ->
  jpeg (VObj [("quality", VNum q)]) this =
  (Normal tt,
   {| options := set "formatOut" (VStr "jpeg") (set "jpegQuality" (VNum q) (options this));
      constructor := constructor this |}).
Proof.
  intros Hi Hr. unfold jpeg. js_unfold. simpl. rewrite Hi, Hr. reflexivity.
Qed.

(** C4, as the specification states it, fails: [raw({force: false})]
    on an instance whose selection is ["input"] selects ["raw"]. *)
Lemma raw_ignores_force :
  (options an_instance).["formatOut"] = VStr "input"
  /\ raw (VObj [("force", VBool false)]) an_instance
     = (Normal tt, {| options := set "formatOut" (VStr "raw") (options an_instance);
                      constructor := constructor an_instance |}).
Proof. split; reflexivity. Qed.

(** C4 (amended): a codec resolver that completes normally ends with the
    selection of a fixed format name: [jpeg], [png], [webp], [gif], [jp2],
    [tiff] and [jxl] their own name, [heif] and [avif] the name ["heif"],
    [raw] the name ["raw"] and [tile] the name ["dz"].  The first nine
    leave [formatOut] at its previous value when their options are an
    object with [force === false]; [raw] and [tile] do not read [force]
    and always overwrite it.  Two calls of [jpeg] with valid qualities
    leave the second quality and the selection ["jpeg"], as after the
    first call. *)
Theorem codec_resolvers_select_format :
  concludes_with jpeg "jpeg" /\ concludes_with png "png"
  /\ concludes_with webp "webp" /\ concludes_with gif "gif"
  /\ concludes_with jp2 "jp2" /\ concludes_with tiff "tiff"
  /\ concludes_with heif "heif" /\ concludes_with jxl "jxl"
  /\ (forall opts this this',
        avif opts this = (Normal tt, this') ->
        (options this').["formatOut"]
        = if is_false (entries opts).["force"]
          then (options this).["formatOut"] else VStr "heif")
  /\ (forall opts this this',
        raw opts this = (Normal tt, this') -> (options this').["formatOut"] = VStr "raw")
  /\ (forall setBackground opts this this',
        tile setBackground opts this = (Normal tt, this') ->
        (options this').["formatOut"] = VStr "dz")
  /\ (forall q1 q2 this,
        is_integer (VNum q1) && is_inRange (VNum q1) 1 100 = true ->
        is_integer (VNum q2) && is_inRange (VNum q2) 1 100 = true ->
        let first := jpeg (VObj [("quality", VNum q1)]) this in
        let second := jpeg (VObj [("quality", VNum q2)]) (snd first) in
        fst first = Normal tt /\ fst second = Normal tt
        /\ (options (snd second)).["jpegQuality"] = VNum q2
        /\ (options (snd first)).["formatOut"] = VStr "jpeg"
        /\ (options (snd second)).["formatOut"] = VStr "jpeg").
Proof.
  split; [apply selects_concludes, jpeg_selects |].
  split; [apply selects_concludes, png_selects |].
  split; [apply selects_concludes, webp_selects |].
  split; [apply selects_concludes, gif_selects |].
  split; [apply selects_concludes, jp2_selects |].
  split; [apply selects_concludes, tiff_selects |].
  split; [apply selects_concludes, heif_selects |].
  split; [apply selects_concludes, jxl_selects |].
  split; [apply avif_selects |].
  split; [intros opts; apply raw_overwrites |].
  split; [intros setBackground opts; apply tile_overwrites |].
  intros q1 q2 this H1 H2 first second. subst first second.
  apply andb_prop in H1 as [Hi1 Hr1]. apply andb_prop in H2 as [Hi2 Hr2].
  rewrite (jpeg_quality q1) by assumption. simpl.
  rewrite jpeg_quality by assumption. simpl.
  repeat split.
  - rewrite get_set_other by reflexivity. apply get_set_same.
  - apply get_set_same.
  - apply get_set_same.
Qed.

Lemma codec_resolvers_select_format_witness :
  let first := jpeg (VObj [("quality", VNum 50)]) an_instance in
  let second := jpeg (VObj [("quality", VNum 90)]) (snd first) in
  (options (snd second)).["jpegQuality"] = VNum 90
  /\ (options (snd second)).["formatOut"] = VStr "jpeg"
  /\ (options (snd (png (VObj [("force", VBool false)]) an_instance))).["formatOut"]
     = VStr "input".
Proof.
  pose proof codec_resolvers_select_format as
    (_ & Hpng & _ & _ & _ & _ & _ & _ & _ & _ & _ & Htwice).
  specialize (Htwice 50%float 90%float an_instance eq_refl eq_refl).
  destruct Htwice as (_ & _ & Hq & _ & Hf).
  split; [exact Hq |]. split; [exact Hf |].
  exact (Hpng (VObj [("force", VBool false)]) an_instance _ eq_refl).
Defined.

(** ** Validation is not atomic *)

(** C10: validation inside a resolver is not atomic.  On every instance,
    [jpeg({quality: 50, chromaSubsampling: 'bad'})] throws the
    [InvalidParameter] error for [chromaSubsampling] and leaves the
    instance with [jpegQuality] already written to 50; likewise
    [png({compressionLevel: 9, colours: 1})] throws for [colours] after
    [pngCompressionLevel] has been written. *)
Theorem jpeg_validation_is_not_atomic :
  forall this,
    jpeg (VObj [("quality", VNum 50); ("chromaSubsampling", VStr "bad")]) this
    = (Throw (InvalidParameterError "chromaSubsampling" [Text "one of: 4:2:0, 4:4:4"]
                (VStr "bad")),
       {| options := set "jpegQuality" (VNum 50) (options this);
          constructor := constructor this |})
    /\ (set "jpegQuality" (VNum 50) (options this)).["jpegQuality"] = VNum 50
    /\ png (VObj [("compressionLevel", VNum 9); ("colours", VNum 1)]) this
       = (Throw (InvalidParameterError "colours" [Text "integer between 2 and 256"] (VNum 1)),
          {| options := set "pngCompressionLevel" (VNum 9) (options this);
             constructor := constructor this |}).
Proof.
  intros this. split; [reflexivity |]. split; [apply get_set_same | reflexivity].
Qed.

(** ** Spelling aliases *)

Lemma png_alias (v : value) (this : Sharp) :
  truthy v = true -> png (one "colors" v) this = png (one "colours" v) this.
Proof.
  intros Ht. unfold png, one. js_unfold. simpl. unfold or_else. simpl. rewrite Ht.
  destruct (is_defined v); simpl; [| reflexivity].
  destruct (is_integer v && is_inRange v 2 256); reflexivity.
Qed.

Lemma gif_alias (v : value) (this : Sharp) :
  truthy v = true -> gif (one "colors" v) this = gif (one "colours" v) this.
Proof.
  intros Ht. unfold gif, one. js_unfold. simpl. unfold or_else. simpl. rewrite Ht.
  destruct (is_defined v); simpl; [| reflexivity].
  destruct (is_integer v && is_inRange v 2 256); reflexivity.
Qed.

(** The aliases agree wherever [options.colours || options.colors] keeps
    the value: for every truthy colour count in [png] and [gif], and for
    every boolean in [jpeg] and [tile]. *)
Theorem spelling_aliases_agree :
  (forall v this, truthy v = true ->
     png (one "colors" v) this = png (one "colours" v) this
     /\ gif (one "colors" v) this = gif (one "colours" v) this)
  /\ (forall b this,
        jpeg (one "optimizeCoding" (VBool b)) this
        = jpeg (one "optimiseCoding" (VBool b)) this)
  /\ (forall setBackground b this,
        tile setBackground (one "center" (VBool b)) this
        = tile setBackground (one "centre" (VBool b)) this).
Proof.
  split; [| split; reflexivity].
  intros v this Ht. split; [now apply png_alias | now apply gif_alias].
Qed.

Lemma spelling_aliases_agree_witness :
  truthy (VNum 64) = true
  /\ png (one "colors" (VNum 64)) an_instance = png (one "colours" (VNum 64)) an_instance.
Proof.
  split; [reflexivity |].
  exact (proj1 (proj1 spelling_aliases_agree (VNum 64) an_instance eq_refl)).
Defined.

(** C3 at the colour count 0: with the British spelling the count is
    dropped by [||], the call completes and turns palette mode on; with
    the American spelling the same count is rejected. *)
Theorem colour_alias_diverges_at_zero :
     png (one "colours" (VNum 0)) an_instance
     = (Normal tt,
        {| options := set "formatOut" (VStr "png")
                        (set "pngPalette" (VBool true) (options an_instance));
           constructor := constructor an_instance |})
  /\ png (one "colors" (VNum 0)) an_instance
     = (Throw (InvalidParameterError "colours" [Text "integer between 2 and 256"] (VNum 0)),
        an_instance)
  /\ gif (one "colours" (VNum 0)) an_instance
     = (Normal tt, {| options := set "formatOut" (VStr "gif") (options an_instance);
                      constructor := constructor an_instance |})
  /\ gif (one "colors" (VNum 0)) an_instance
     = (Throw (InvalidParameterError "colours" [Text "integer between 2 and 256"] (VNum 0)),
        an_instance).
Proof. repeat split; reflexivity. Qed.

(** ** Implicit palette mode *)


Lemma png_palette_step (o : props) (v : value) :
  reaches_palette_step o = true ->
  leaves "pngPalette" v
    (if is_defined o.["palette"] then _setBooleanOption "pngPalette" o.["palette"]
     else when (existsb is_defined
                  [o.["quality"]; o.["effort"]; o.["colours"]; o.["colors"]; o.["dither"]])
            (_setBooleanOption "pngPalette" (VBool true))) ->
  leaves "pngPalette" v (png (VObj o)).
Proof.
  intros Hpre Hstep. unfold reaches_palette_step in Hpre.
  apply andb_prop in Hpre as [Hpre H4]. apply andb_prop in Hpre as [Hpre H3].
  apply andb_prop in Hpre as [H1 H2].
  unfold png. apply leaves_then; [| intros ?; unfold _updateFormatOut; frame].
  simpl. unfold properties. apply leaves_ret_bind.
  apply leaves_after.
  { apply returns_when. intros Hd. apply returns_setBooleanOption.
    exact (guarded _ _ H1 Hd). }
  intros _. apply leaves_after.
  { apply returns_when. intros Hd. apply returns_check; [| apply returns_write].
    exact (guarded _ _ H2 Hd). }
  intros _. apply leaves_after.
  { apply returns_when. intros Hd. apply returns_setBooleanOption.
    exact (guarded _ _ H3 Hd). }
  intros _. apply leaves_after.
  { apply returns_when. intros Hd. apply returns_check; [| apply returns_write].
    exact (guarded _ _ H4 Hd). }
  intros _. apply leaves_then; [exact Hstep | intros ?; frame].
Qed.

(** C2, as the specification states it, fails: in [png({colours: 1})]
    the palette option is undefined and [colours] is defined, yet the call
    throws at the colour count, before the palette step, and [pngPalette]
    stays false. *)
Lemma png_palette_not_reached :
  is_defined (Input.fields (one "colours" (VNum 1))).["palette"] = false
  /\ is_defined (Input.fields (one "colours" (VNum 1))).["colours"] = true
  /\ png (one "colours" (VNum 1)) an_instance
     = (Throw (InvalidParameterError "colours" [Text "integer between 2 and 256"] (VNum 1)),
        an_instance)
  /\ (options an_instance).["pngPalette"] = VBool false.
Proof. repeat split; reflexivity. Qed.

Lemma png_palette_rejected (o : props) (this : Sharp) :
  reaches_palette_step o = true ->
  is_defined o.["palette"] = true -> is_bool o.["palette"] = false ->
  fst (png (VObj o) this) = Throw (invalidParameterError "pngPalette" "boolean" o.["palette"])
  /\ (options (snd (png (VObj o) this))).["pngPalette"] = (options this).["pngPalette"].
Proof.
  intros Hpre Hd Hb. unfold reaches_palette_step in Hpre.
  apply andb_prop in Hpre as [Hpre H4]. apply andb_prop in Hpre as [Hpre H3].
  apply andb_prop in Hpre as [H1 H2].
  pose proof (guarded _ _ H1) as G1. pose proof (guarded _ _ H2) as G2.
  pose proof (guarded _ _ H3) as G3. pose proof (guarded _ _ H4) as G4.
  clear H1 H2 H3 H4.
  unfold png. js_unfold. simpl. rewrite Hd, Hb.
  destruct (is_defined o.["progressive"]); [rewrite (G1 eq_refl) |];
    (destruct (is_defined o.["compressionLevel"]); [rewrite (G2 eq_refl) |]);
    (destruct (is_defined o.["adaptiveFiltering"]); [rewrite (G3 eq_refl) |]);
    (destruct (is_defined (or_else o.["colours"] o.["colors"])); [rewrite (G4 eq_refl) |]);
    simpl; lookup; split; reflexivity.
Qed.

Lemma png_palette_untriggered (o : props) (this : Sharp) :
  reaches_palette_step o = true ->
  is_defined o.["palette"] = false ->
  existsb is_defined
    [o.["quality"]; o.["effort"]; o.["colours"]; o.["colors"]; o.["dither"]] = false ->
  (options (snd (png (VObj o) this))).["pngPalette"] = (options this).["pngPalette"].
Proof.
  intros Hpre Hd Hnone. unfold reaches_palette_step in Hpre.
  apply andb_prop in Hpre as [Hpre H4]. apply andb_prop in Hpre as [Hpre H3].
  apply andb_prop in Hpre as [H1 H2].
  pose proof (guarded _ _ H1) as G1. pose proof (guarded _ _ H2) as G2.
  pose proof (guarded _ _ H3) as G3. clear H1 H2 H3 H4.
  simpl in Hnone.
  apply orb_false_elim in Hnone as [Hq Hnone]. apply orb_false_elim in Hnone as [He Hnone].
  apply orb_false_elim in Hnone as [Hc1 Hnone]. apply orb_false_elim in Hnone as [Hc2 Hnone].
  apply orb_false_elim in Hnone as [Hdi _].
  assert (Hc : is_defined (or_else o.["colours"] o.["colors"]) = false).
  { unfold or_else. now destruct (truthy o.["colours"]). }
  unfold png. js_unfold. simpl. rewrite Hd, Hq, He, Hc1, Hc2, Hdi, Hc. simpl.
  destruct (is_defined o.["progressive"]); [rewrite (G1 eq_refl) |];
    (destruct (is_defined o.["compressionLevel"]); [rewrite (G2 eq_refl) |]);
    (destruct (is_defined o.["adaptiveFiltering"]); [rewrite (G3 eq_refl) |]);
    simpl; lookup;
    destruct (truthy (options this).["pngPalette"]); simpl;
    destruct (is_false o.["force"]); simpl; lookup; reflexivity.
Qed.

(** C2 (amended): for every call [png(options)] on an options object that
    passes the checks made before the palette step ([progressive],
    [compressionLevel], [adaptiveFiltering] and the colour count), if
    [options.palette] is not defined and at least one of [quality],
    [effort], [colours], [colors], [dither] is defined, then [pngPalette]
    is true once the call completes, normally or by a later throw.  If
    [options.palette] is defined, no implicit trigger applies, whatever
    else is defined: a boolean is used as [pngPalette]; any other defined
    value is rejected by [_setBooleanOption] and [pngPalette] stays as it
    was.  If neither [palette] nor any of the five options is defined,
    [pngPalette] stays as it was. *)
Theorem png_implicit_palette (o : props) (this : Sharp) :
  reaches_palette_step o = true ->
  let run := png (VObj o) this in
  let after := options (snd run) in
  let triggered :=
    existsb is_defined
      [o.["quality"]; o.["effort"]; o.["colours"]; o.["colors"]; o.["dither"]] in
  (is_defined o.["palette"] = false -> triggered = true ->
   after.["pngPalette"] = VBool true)
  /\ (forall b, o.["palette"] = VBool b -> after.["pngPalette"] = VBool b)
  /\ (is_defined o.["palette"] = true -> is_bool o.["palette"] = false ->
      fst run = Throw (invalidParameterError "pngPalette" "boolean" o.["palette"])
      /\ after.["pngPalette"] = (options this).["pngPalette"])
  /\ (is_defined o.["palette"] = false -> triggered = false ->
      after.["pngPalette"] = (options this).["pngPalette"]).
Proof.
  intros Hpre run after triggered. subst after run triggered.
  split; [| split; [| split]].
  - intros Hp Hsome. apply png_palette_step; [exact Hpre |].
    rewrite Hp, Hsome. apply leaves_write.
  - intros b Hb. apply png_palette_step; [exact Hpre |].
    rewrite Hb. apply leaves_write.
  - intros Hd Hb. now apply png_palette_rejected.
  - intros Hd Hnone. now apply png_palette_untriggered.
Qed.

Lemma png_implicit_palette_witness :
  reaches_palette_step [("colours", VNum 16)] = true
  /\ (options (snd (png (one "colours" (VNum 16)) an_instance))).["pngPalette"] = VBool true
  /\ (let o := [("palette", VStr "yes"); ("quality", VNum 50)] in
      fst (png (VObj o) an_instance)
      = Throw (invalidParameterError "pngPalette" "boolean" (VStr "yes"))
      /\ (options (snd (png (VObj o) an_instance))).["pngPalette"] = VBool false).
Proof.
  split; [reflexivity |].
  split.
  - exact (proj1 (png_implicit_palette [("colours", VNum 16)] an_instance eq_refl)
             eq_refl eq_refl).
  - exact (proj1 (proj2 (proj2 (png_implicit_palette
                                  [("palette", VStr "yes"); ("quality", VNum 50)]
                                  an_instance eq_refl)))
             eq_refl eq_refl).
Defined.

(** ** Metadata retention *)

Lemma below_32 (P : Z -> Prop) :
  (forall n : nat, (n < 32)%nat -> P (Z.of_nat n)) -> forall m, 0 <= m < 32 -> P m.
Proof.
  intros H m Hm. rewrite <- (Z2Nat.id m) by lia. apply H. lia.
Qed.

Lemma mask_operations (m : Z) :
  0 <= m < 32 ->
  let mask := VNum (num m) in
  (ToInt32 (bitor mask (VNum 1)) = Z.lor m 1
   /\ Z.testbit (Z.lor m 1) 0 = true)
  /\ (ToInt32 (bitor mask (VNum 2)) = Z.lor m 2
      /\ Z.testbit (Z.lor m 2) 1 = true)
  /\ (ToInt32 (bitor mask (VNum 8)) = Z.lor m 8
      /\ Z.testbit (Z.lor m 8) 3 = true)
  /\ (ToInt32 (bitand (bitor mask (VNum 8)) (bitnot (VNum 8))) = Z.land m (Z.lnot 8)
      /\ Z.testbit (Z.land m (Z.lnot 8)) 3 = false).
Proof.
  revert m. apply below_32. intros n Hn.
  do 32 (destruct n as [| n]; [vm_compute; repeat split; reflexivity |]).
  lia.
Qed.

Lemma preserves_withExif_entries (k ifd : string) (kvs : props) :
  String.eqb k "withExif" = false -> preserves k (withExif_entries ifd kvs).
Proof.
  intros Hk. induction kvs as [| [key v] rest IH]; simpl.
  - apply preserves_ret.
  - apply preserves_bind; [| intros _; exact IH].
    apply preserves_if; [| apply preserves_throw].
    apply preserves_bind; [apply preserves_read | intros target].
    destruct target; try apply preserves_throw. now apply preserves_write.
Qed.

Lemma preserves_withExif_groups (k : string) (groups : props) :
  String.eqb k "withExif" = false -> preserves k (withExif_groups groups).
Proof.
  intros Hk. induction groups as [| [ifd entries_] rest IH]; simpl.
  - apply preserves_ret.
  - apply preserves_bind; [| intros _; exact IH].
    apply preserves_if; [| apply preserves_throw].
    apply preserves_bind; [apply preserves_properties | intros _].
    now apply preserves_withExif_entries.
Qed.


Lemma withExif_mask (exif : value) (m : Z) (this this' : Sharp) :
  0 <= m < 32 ->
  (options this).["keepMetadata"] = VNum (num m) ->
  withExif exif this = (Normal tt, this') ->
  (options this').["keepMetadata"] = bitor (VNum (num m)) (VNum 1).
Proof.
  intros Hm Hmask Hrun. unfold withExif in Hrun.
  apply bind_normal in Hrun as ([] & this1 & Hloop & Hrun).
  assert (Hframe : (options this1).["keepMetadata"] = (options this).["keepMetadata"]).
  { change this1 with (snd (Normal tt, this1)). rewrite <- Hloop.
    apply preserves_if; [| apply preserves_throw].
    apply preserves_bind; [apply preserves_properties | intros _].
    now apply preserves_withExif_groups. }
  revert Hrun. unfold keepExif. js_unfold. simpl.
  rewrite get_set_other by reflexivity. rewrite Hframe, Hmask.
  intros [= <-]. simpl. apply get_set_same.
Qed.

Lemma withXmp_mask (xmp : value) (m : Z) (this this' : Sharp) :
  0 <= m < 32 ->
  (options this).["keepMetadata"] = VNum (num m) ->
  withXmp xmp this = (Normal tt, this') ->
  (options this').["keepMetadata"] = bitor (VNum (num m)) (VNum 2)
  /\ (options this').["withXmp"] = xmp.
Proof.
  intros Hm Hmask. unfold withXmp.
  destruct (is_string xmp && _); [| discriminate].
  js_unfold. simpl. rewrite get_set_other by reflexivity. rewrite Hmask.
  intros [= <-]. simpl. rewrite get_set_same. split; [reflexivity |].
  rewrite get_set_other by reflexivity. apply get_set_same.
Qed.

Lemma withIccProfile_mask (icc opts : value) (m : Z) (this this' : Sharp) :
  0 <= m < 32 ->
  (options this).["keepMetadata"] = VNum (num m) ->
  withIccProfile icc opts this = (Normal tt, this') ->
  (options this').["withIccProfile"] = icc
  /\ (options this').["keepMetadata"]
     = if is_object opts && is_false (Input.fields opts).["attach"]
       then bitand (bitor (VNum (num m)) (VNum 8)) (bitnot (VNum 8))
       else bitor (VNum (num m)) (VNum 8).
Proof.
  intros Hm Hmask. unfold withIccProfile, keepIccProfile.
  destruct (is_string icc); [| discriminate].
  js_unfold. simpl. rewrite get_set_other by reflexivity. rewrite Hmask.
  destruct opts as [| | | | | ps | | | | |]; simpl; try discriminate;
    try (intros [= <-]; simpl;
         repeat (rewrite get_set_same || rewrite get_set_other by reflexivity);
         split; reflexivity).
  destruct (ps.["attach"]) as [| | [|] | | | | | | | |]; simpl; try discriminate;
    intros [= <-]; simpl;
    repeat (rewrite get_set_same || rewrite get_set_other by reflexivity);
    (split; reflexivity).
Qed.

(** C6: on an instance whose retention mask is a 5-bit value [m], a call
    of [withExif] with a valid argument (one it accepts) sets bit
    [0b00001] of [keepMetadata], a call of [withXmp] sets bit [0b00010]
    and a call of [withIccProfile] sets bit [0b01000], except that
    [withIccProfile] with [options.attach === false] leaves the ICC bit
    cleared; in both cases it records the profile in [withIccProfile]. *)
Theorem metadata_setters_set_their_bit (m : Z) (this this' : Sharp) :
  0 <= m < 32 ->
  (options this).["keepMetadata"] = VNum (num m) ->
  (forall exif,
     withExif exif this = (Normal tt, this') ->
     retention_mask this' = Z.lor m 1 /\ Z.testbit (retention_mask this') 0 = true)
  /\ (forall xmp,
        withXmp xmp this = (Normal tt, this') ->
        retention_mask this' = Z.lor m 2 /\ Z.testbit (retention_mask this') 1 = true)
  /\ (forall icc opts,
        withIccProfile icc opts this = (Normal tt, this') ->
        (options this').["withIccProfile"] = icc
        /\ if is_object opts && is_false (Input.fields opts).["attach"]
           then retention_mask this' = Z.land m (Z.lnot 8)
                /\ Z.testbit (retention_mask this') 3 = false
           else retention_mask this' = Z.lor m 8
                /\ Z.testbit (retention_mask this') 3 = true).
Proof.
  intros Hm Hmask.
  destruct (mask_operations m Hm) as ((E1 & B1) & (E2 & B2) & (E8 & B8) & (E0 & B0)).
  unfold retention_mask. split; [| split].
  - intros exif Hrun. rewrite (withExif_mask exif m this this') by assumption.
    rewrite E1. now split.
  - intros xmp Hrun. destruct (withXmp_mask xmp m this this' Hm Hmask Hrun) as [-> _].
    rewrite E2. now split.
  - intros icc opts Hrun.
    destruct (withIccProfile_mask icc opts m this this' Hm Hmask Hrun) as [Hicc Hk].
    split; [exact Hicc |].
    destruct (is_object opts && is_false (Input.fields opts).["attach"]); rewrite Hk.
    + rewrite E0. now split.
    + rewrite E8. now split.
Qed.

Lemma metadata_setters_set_their_bit_witness :
  let exif := VObj [("IFD0", VObj [("Copyright", VStr "The National Gallery")])] in
  let detached := snd (withIccProfile (VStr "p3") (one "attach" (VBool false)) an_instance) in
  Z.testbit (retention_mask (snd (withExif exif an_instance))) 0 = true
  /\ Z.testbit (retention_mask (snd (withXmp (VStr "<x/>") an_instance))) 1 = true
  /\ Z.testbit (retention_mask (snd (withIccProfile (VStr "p3") VUndefined an_instance))) 3
     = true
  /\ (options detached).["withIccProfile"] = VStr "p3"
  /\ Z.testbit (retention_mask detached) 3 = false.
Proof.
  intros exif detached.
  assert (Hm : 0 <= 0 < 32) by lia.
  split.
  { exact (proj2 (proj1 (metadata_setters_set_their_bit 0 an_instance _ Hm eq_refl)
                    exif eq_refl)). }
  split.
  { exact (proj2 (proj1 (proj2 (metadata_setters_set_their_bit 0 an_instance _ Hm eq_refl))
                    (VStr "<x/>") eq_refl)). }
  split.
  { exact (proj2 (proj2 (proj2 (proj2 (metadata_setters_set_their_bit 0 an_instance _ Hm
                                         eq_refl))
                           (VStr "p3") VUndefined eq_refl))). }
  destruct (proj2 (proj2 (metadata_setters_set_their_bit 0 an_instance detached Hm eq_refl))
              (VStr "p3") (one "attach" (VBool false)) eq_refl) as [Hp Hb].
  split; [exact Hp | exact (proj2 Hb)].
Defined.

(** ** The distance of the JPEG XL resolver *)

Lemma qualities_ok (q : Z) : 1 <= q <= 100 -> quality_ok q = true.
Proof.
  intros Hq.
  apply (forall_Z_range quality_ok 1 100); [vm_compute; reflexivity | lia].
Qed.


Lemma jxl_leaves (o : props) (k : string) (v : value) (step rest : M unit) :
  String.eqb k "loop" = false -> String.eqb k "delay" = false ->
  String.eqb k "formatOut" = false ->
  leaves k v (step ;; rest) ->
  leaves k v
    (when (is_object (VObj o)) (o' <- properties (VObj o) ;; step ;; rest) ;;
     trySetAnimationOptions (VObj o) ;;
     _updateFormatOut "jxl" (VObj o)).
Proof.
  intros H1 H2 H3 Hbody.
  apply leaves_then; [exact Hbody |].
  intros _. apply preserves_bind; [now apply preserves_trySetAnimationOptions |].
  intros _. unfold _updateFormatOut.
  apply preserves_bind; [frame |].
  intros ?. apply preserves_when. now apply preserves_write.
Qed.

(** C7: for every call [jxl(options)] whose quality is an integer [q] in
    [1,100], [jxlDistance] is the double that the piecewise expression
    [0.1 + (100 - q) * 0.09] ([q >= 30]) or
    [53 / 3000 * q * q - 23 / 20 * q + 25] ([q < 30]) evaluates to, within
    [2^-40] of the formula's exact value, whatever [options.distance] is;
    when no quality is defined, a defined distance is stored as it is if
    it is a number in [0,15] and rejected otherwise; and a defined
    [decodingTier] is stored if it is an integer in [0,4] and rejected
    otherwise. *)
Theorem jxl_distance (o : props) (this : Sharp) :
  let after := options (snd (jxl (VObj o) this)) in
  (forall q, 1 <= q <= 100 -> o.["quality"] = VNum (num q) ->
     after.["jxlDistance"] = VNum (jxlDistanceFromQuality (num q))
     /\ (Qabs (exact (jxlDistanceFromQuality (num q)) - jxl_formula q) <= 1 # 2 ^ 40)%Q)
  /\ (is_defined o.["quality"] = false -> is_defined o.["distance"] = true ->
      if is_number o.["distance"] && is_inRange o.["distance"] 0 15
      then after.["jxlDistance"] = o.["distance"]
      else jxl (VObj o) this
           = (Throw (InvalidParameterError "distance" [Text "number between 0.0 and 15.0"]
                       o.["distance"]), this))
  /\ (distance_step_passes o = true -> is_defined o.["decodingTier"] = true ->
      if is_integer o.["decodingTier"] && is_inRange o.["decodingTier"] 0 4
      then after.["jxlDecodingTier"] = o.["decodingTier"]
      else fst (jxl (VObj o) this)
           = Throw (InvalidParameterError "decodingTier" [Text "integer between 0 and 4"]
                      o.["decodingTier"])).
Proof.
  intros after. subst after. split; [| split].
  - intros q Hq Hquality.
    pose proof (qualities_ok q Hq) as Hok. unfold quality_ok in Hok.
    apply andb_prop in Hok as [Hok Hclose]. apply andb_prop in Hok as [Hi Hr].
    split; [| now apply Qle_bool_iff].
    unfold jxl. apply jxl_leaves; try reflexivity.
    rewrite Hquality. simpl is_defined. cbv iota. unfold check. rewrite Hi, Hr. simpl andb.
    cbv iota. apply leaves_then; [apply leaves_write | intros _; frame].
  - intros Hq Hd.
    destruct (is_number o.["distance"] && is_inRange o.["distance"] 0 15) eqn:Hvalid.
    + unfold jxl. apply jxl_leaves; try reflexivity.
      rewrite Hq, Hd. unfold when at 1, check. rewrite Hvalid.
      apply leaves_then; [apply leaves_write | intros _; frame].
    + unfold jxl. js_unfold. simpl. rewrite Hq, Hd, Hvalid. reflexivity.
  - intros Hpass Htier. unfold distance_step_passes in Hpass.
    assert (Hstep : returns
              (if is_defined o.["quality"]
               then check (is_integer o.["quality"] && is_inRange o.["quality"] 1 100)
                      "quality" "integer between 1 and 100" o.["quality"]
                      (write "jxlDistance"
                         (VNum (jxlDistanceFromQuality (ToNumber o.["quality"]))))
               else when (is_defined o.["distance"])
                      (check (is_number o.["distance"] && is_inRange o.["distance"] 0 15)
                         "distance" "number between 0.0 and 15.0" o.["distance"]
                         (write "jxlDistance" o.["distance"])))).
    { destruct (is_defined o.["quality"]).
      - apply returns_check; [exact Hpass | apply returns_write].
      - apply returns_when. intros Hd. rewrite Hd in Hpass. simpl in Hpass.
        apply returns_check; [exact Hpass | apply returns_write]. }
    destruct (is_integer o.["decodingTier"] && is_inRange o.["decodingTier"] 0 4) eqn:Hvalid.
    + unfold jxl. apply jxl_leaves; try reflexivity.
      apply leaves_after; [exact Hstep | intros _].
      rewrite Htier. unfold when at 1, check. rewrite Hvalid.
      apply leaves_then; [apply leaves_write | intros _; frame].
    + unfold jxl. apply fails_now. simpl when. unfold properties.
      apply fails_ret_bind.
      apply fails_after; [exact Hstep | intros _].
      apply fails_now. rewrite Htier. unfold when, check. rewrite Hvalid.
      apply fails_throw.
Qed.

Lemma jxl_distance_witness :
  let o := [("quality", VNum 90); ("distance", VNum 3); ("decodingTier", VNum 4)] in
  let after := options (snd (jxl (VObj o) an_instance)) in
  after.["jxlDistance"] = VNum (jxlDistanceFromQuality 90)
  /\ after.["jxlDecodingTier"] = VNum 4
  /\ (options (snd (jxl (one "distance" (VNum 3)) an_instance))).["jxlDistance"] = VNum 3.
Proof.
  intros o after.
  destruct (jxl_distance o an_instance) as (Hq & _ & Ht).
  split; [exact (proj1 (Hq 90 ltac:(lia) eq_refl)) |].
  split; [exact (Ht eq_refl eq_refl) |].
  exact (proj1 (proj2 (jxl_distance [("distance", VNum 3)] an_instance)) eq_refl eq_refl).
Defined.

(** ** The guards of toFile *)

Section ToFileGuards.

Variable path_resolve path_extname : string -> string.
Variables (fileOut callback : value) (this : Sharp) (input : props).
Hypothesis Hinput : (options this).["input"] = VObj input.

Let run := toFile path_resolve path_extname fileOut callback this.
Let missing_path := path_is_missing fileOut.
Let same_file := path_is_input path_resolve input fileOut.
Let unsupported_jp2 := jp2_is_unsupported path_extname this fileOut.

(** C9: on an instance with an input descriptor, [toFile] never invokes
    the engine when a guard fails, and hands the guard's error to the
    callback, or returns it as a rejected promise: a path that is missing
    or not a string gives 'Missing output file path'; otherwise a path
    that resolves to the file-based input's path gives 'Cannot use same
    file for input and output'; otherwise a JPEG 2000 extension without
    JP2 file output in the engine gives the OpenJPEG error.  The instance
    is left as it was.  When no guard fails the path is recorded and the
    pipeline is entered. *)
Theorem toFile_guards :
  (missing_path = true ->
   run = (Normal (delivers (Error [Text "Missing output file path"]) callback), this))
  /\ (missing_path = false -> same_file = true ->
      run = (Normal (delivers (Error [Text "Cannot use same file for input and output"])
                       callback), this))
  /\ (missing_path = false -> same_file = false -> unsupported_jp2 = true ->
      run = (Normal (delivers errJp2Save callback), this))
  /\ (missing_path || same_file || unsupported_jp2 = true ->
      exists err, run = (Normal (delivers err callback), this)
                  /\ invokes_engine (delivers err callback) = false)
  /\ (missing_path || same_file || unsupported_jp2 = false ->
      exists this' engine,
        run = (Normal (Pipelines engine), this')
        /\ (options this').["fileOut"] = fileOut).
Proof.
  unfold run, missing_path, same_file, unsupported_jp2.
  unfold toFile, path_is_missing, path_is_input, jp2_is_unsupported, delivers, _pipeline,
    _isStreamInput.
  js_unfold.
  destruct (is_fn callback), (is_string fileOut); simpl; rewrite ?Hinput; cbv beta iota;
    try (repeat split; intros; try discriminate; eexists; now split).
  - destruct (is_string input.["file"] && _); simpl;
      [repeat split; intros; try discriminate; eexists; now split |].
    destruct (jp2Regex_test _ && _); simpl;
      [repeat split; intros; try discriminate; eexists; now split |].
    repeat split; intros; try discriminate.
    rewrite !get_set_other by reflexivity. rewrite Hinput.
    eexists _, _. split; [reflexivity |]. simpl. apply get_set_same.
  - destruct (is_string input.["file"] && _); simpl;
      [repeat split; intros; try discriminate; eexists; now split |].
    destruct (jp2Regex_test _ && _); simpl;
      [repeat split; intros; try discriminate; eexists; now split |].
    repeat split; intros; try discriminate.
    destruct (truthy _); simpl; rewrite !get_set_other by reflexivity; rewrite Hinput;
      eexists _, _; (split; [reflexivity |]); simpl; apply get_set_same.
Qed.

End ToFileGuards.

Lemma toFile_guards_witness :
  let this := an_instance_reading "in.png" in
  toFile (fun s => s) last4 VUndefined (VFun 0) this
  = (Normal (CallsBack (Error [Text "Missing output file path"])), this)
  /\ toFile (fun s => s) last4 (VStr "in.png") VUndefined this
     = (Normal (Rejects (Error [Text "Cannot use same file for input and output"])), this)
  /\ toFile (fun s => s) last4 (VStr "out.jp2") VUndefined this
     = (Normal (Rejects errJp2Save), this).
Proof.
  intros this.
  pose proof (fun fileOut callback =>
                toFile_guards (fun s => s) last4 fileOut callback this
                  [("file", VStr "in.png")] eq_refl) as H.
  split; [exact (proj1 (H VUndefined (VFun 0)) eq_refl) |].
  split; [exact (proj1 (proj2 (H (VStr "in.png") VUndefined)) eq_refl eq_refl) |].
  exact (proj1 (proj2 (proj2 (H (VStr "out.jp2") VUndefined))) eq_refl eq_refl eq_refl).
Defined.


(** ** Joining inputs *)

Lemma reads_only_ret {A} (a : A) : reads_only (ret a).
Proof. intros this. reflexivity. Qed.

Lemma reads_only_throw {A} (e : error) : reads_only (@throw Sharp A e).
Proof. intros this. reflexivity. Qed.

Lemma reads_only_properties (v : value) : reads_only (properties v).
Proof. intros this. destruct v; reflexivity. Qed.

Lemma reads_only_bind {A B} (m : M A) (f : A -> M B) :
  reads_only m -> (forall a, reads_only (f a)) -> reads_only (bind m f).
Proof.
  intros Hm Hf this. unfold bind. specialize (Hm this).
  destruct (m this) as [[a | e] this1]; simpl in *; subst; [apply Hf | reflexivity].
Qed.

Lemma reads_only_if {A} (b : bool) (m1 m2 : M A) :
  reads_only m1 -> reads_only m2 -> reads_only (if b then m1 else m2).
Proof. now destruct b. Qed.

Lemma reads_only_this : reads_only (fun this : Sharp => (Normal this, this)).
Proof. intros this. reflexivity. Qed.

Ltac reads_only :=
  repeat first
    [ apply reads_only_ret | apply reads_only_throw | apply reads_only_properties
    | apply reads_only_this
    | apply reads_only_if
    | apply reads_only_bind; [| intros ?]
    | match goal with
      | |- reads_only (let (_, _) := ?t in _) => destruct t as [[[] | ?] ?]
      end ].

Section Join.

Variable getBg : value -> completion value.

Lemma image_built (v : value) (this : Sharp) :
  is_image v = true ->
  _createInputDescriptor getBg v VUndefined VUndefined this
  = (Normal (image_descriptor v), this).
Proof.
  unfold is_image, image_descriptor.
  destruct v; simpl; try discriminate.
  - destruct (String.eqb s ""); simpl; [discriminate | reflexivity].
  - destruct bytes; simpl; [discriminate | reflexivity].
  - destruct bytes; simpl; [discriminate | reflexivity].
  - destruct length; simpl; [discriminate | reflexivity].
Qed.

Lemma join_run (l : list value) (inputOptions containerOptions : value) (this : Sharp) :
  _createInputDescriptor getBg (VArr l) inputOptions containerOptions this
  = (if (1 <? List.length l)%nat then
       if negb (truthy (options this).["joining"]) then
         (write "joining" (VBool true) ;;
          join <- _createInputDescriptor_each getBg l ;;
          write "join" (VArr join) ;;
          this0 <- (fun this0 : Sharp => (Normal this0, this0)) ;;
          match inputOptions_into_descriptor getBg this0 (VArr l) inputOptions
                  inputDescriptor0 with
          | (Normal _, inputDescriptor) => ret (VObj inputDescriptor)
          | (Throw e, _) => throw e
          end)
       else throw (Error [Text "Recursive join is unsupported"])
     else throw (Error [Text "Expected at least two images to join"])) this.
Proof.
  simpl. fold (_createInputDescriptor_each getBg l).
  unfold bind at 1. unfold bind at 1. simpl.
  destruct (1 <? List.length l)%nat; [| reflexivity].
  unfold bind at 1. unfold read at 1.
  destruct (negb (truthy (options this).["joining"])); [| reflexivity].
  unfold bind. simpl.
  destruct (_createInputDescriptor_each getBg l _) as [[ds | e] this1]; reflexivity.
Qed.

Lemma element_keeps_instance (x inputOptions containerOptions : value) (st : Sharp) :
  truthy (options st).["joining"] = true ->
  snd (_createInputDescriptor getBg x inputOptions containerOptions st) = st.
Proof.
  intros Hjoining.
  destruct x as [| | b | n | s | ps | l | id | bytes | bytes | k buffer off n];
    try (rewrite join_run, Hjoining; destruct (1 <? List.length l)%nat; reflexivity).
  all: revert st Hjoining;
    match goal with
    | |- forall st, _ -> snd (?m st) = st => intros st _; revert st; change (reads_only m)
    end.
  all: simpl; reads_only.
Qed.

Lemma each_keeps_instance (l : list value) (st : Sharp) :
  truthy (options st).["joining"] = true ->
  snd (_createInputDescriptor_each getBg l st) = st.
Proof.
  intros Hjoining. induction l as [| x rest IH]; [reflexivity |].
  simpl. unfold bind at 1.
  pose proof (element_keeps_instance x VUndefined VUndefined st Hjoining) as Hx.
  destruct (_createInputDescriptor getBg x VUndefined VUndefined st) as [[dx | e] st1];
    simpl in Hx; subst st1; [| reflexivity].
  unfold bind at 1. fold (_createInputDescriptor_each getBg rest).
  destruct (_createInputDescriptor_each getBg rest st) as [[ds | e] st1];
    simpl in IH; subst st1; reflexivity.
Qed.

Lemma each_builds (l : list value) (st : Sharp) (ds : list value) :
  truthy (options st).["joining"] = true ->
  (fst (_createInputDescriptor_each getBg l st) = Normal ds <-> Forall2 (builds getBg st) l ds).
Proof.
  intros Hjoining. revert ds. induction l as [| x rest IH]; intros ds.
  - simpl. split.
    + intros [= <-]. constructor.
    + intros H. inversion H. reflexivity.
  - simpl. unfold bind at 1. unfold builds at 1.
    pose proof (element_keeps_instance x VUndefined VUndefined st Hjoining) as Hx.
    destruct (_createInputDescriptor getBg x VUndefined VUndefined st) as [[dx | e] st1] eqn:Hbx;
      simpl in Hx; subst st1.
    + unfold bind at 1. fold (_createInputDescriptor_each getBg rest).
      pose proof (each_keeps_instance rest st Hjoining) as Hrest.
      destruct (_createInputDescriptor_each getBg rest st) as [[ds' | e] st1] eqn:Heach;
        simpl in Hrest; subst st1; simpl.
      * split.
        -- intros [= <-]. constructor; [exact Hbx | now apply IH].
        -- intros H. inversion H as [| ? dx' ? ds'' Hb Hf]; subst.
           unfold builds in Hb. rewrite Hbx in Hb. injection Hb as <-.
           apply IH in Hf. simpl in Hf. now injection Hf as <-.
      * split; [discriminate |].
        intros H. inversion H as [| ? dx' ? ds'' Hb Hf]; subst.
        apply IH in Hf. discriminate.
    + simpl. split; [discriminate |].
      intros H. inversion H as [| ? dx' ? ds'' Hb Hf]; subst.
      unfold builds in Hb. rewrite Hbx in Hb. discriminate.
Qed.

Lemma join_succeeds (l : list value) (inputOptions containerOptions : value)
    (this : Sharp) (ds : list value) :
  (2 <= List.length l)%nat ->
  truthy (options this).["joining"] = false ->
  Forall2 (builds getBg (joining this)) l ds ->
  _createInputDescriptor getBg (VArr l) inputOptions containerOptions this
  = match inputOptions_into_descriptor getBg (joined_with ds this) (VArr l) inputOptions
            inputDescriptor0 with
    | (Normal _, d) => (Normal (VObj d), joined_with ds this)
    | (Throw e, _) => (Throw e, joined_with ds this)
    end.
Proof.
  intros Hl Hjoining Hbuilt. rewrite join_run.
  destruct (Nat.ltb_spec 1 (List.length l)); [| lia].
  rewrite Hjoining. change (negb false) with true. cbv iota.
  unfold bind at 1. unfold write at 1. cbv beta iota.
  fold (joining this).
  assert (Hj : truthy (options (joining this)).["joining"] = true).
  { unfold joining. simpl. now rewrite get_set_same. }
  pose proof (each_keeps_instance l (joining this) Hj) as Hstate.
  apply (each_builds l (joining this) ds Hj) in Hbuilt.
  unfold bind at 1.
  destruct (_createInputDescriptor_each getBg l (joining this)) as [[ds' | e] st1];
    simpl in Hstate, Hbuilt; subst st1; [| discriminate].
  injection Hbuilt as ->.
  unfold bind at 1. unfold write at 1. cbv beta iota.
  unfold bind at 1. cbv beta iota.
  change {| options := set "join" (VArr ds) (options (joining this));
            constructor := constructor (joining this) |} with (joined_with ds this).
  destruct (inputOptions_into_descriptor getBg (joined_with ds this) (VArr l) inputOptions
              inputDescriptor0) as [[[] | e] d]; reflexivity.
Qed.

Lemma join_built (l : list value) (inputOptions containerOptions v : value)
    (this this' : Sharp) :
  _createInputDescriptor getBg (VArr l) inputOptions containerOptions this = (Normal v, this') ->
  (2 <= List.length l)%nat
  /\ truthy (options this).["joining"] = false
  /\ exists ds, Forall2 (builds getBg (joining this)) l ds /\ this' = joined_with ds this.
Proof.
  rewrite join_run.
  destruct (Nat.ltb_spec 1 (List.length l)); [| discriminate].
  destruct (truthy (options this).["joining"]) eqn:Hjoining; [discriminate |].
  change (negb false) with true. cbv iota.
  unfold bind at 1. unfold write at 1. cbv beta iota. fold (joining this).
  assert (Hj : truthy (options (joining this)).["joining"] = true).
  { unfold joining. simpl. now rewrite get_set_same. }
  pose proof (each_keeps_instance l (joining this) Hj) as Hstate.
  pose proof (each_builds l (joining this)) as Hbuilt.
  unfold bind at 1.
  destruct (_createInputDescriptor_each getBg l (joining this)) as [[ds | e] st1];
    simpl in Hstate; subst st1; [| discriminate].
  unfold bind at 1. unfold write at 1. cbv beta iota.
  unfold bind at 1. cbv beta iota.
  change {| options := set "join" (VArr ds) (options (joining this));
            constructor := constructor (joining this) |} with (joined_with ds this).
  destruct (inputOptions_into_descriptor getBg (joined_with ds this) (VArr l) inputOptions
              inputDescriptor0) as [[[] | e] d]; [| discriminate].
  intros [= _ <-]. split; [lia |]. split; [reflexivity |].
  exists ds. split; [now apply (Hbuilt ds Hj) | reflexivity].
Qed.

(** C5 (amended): building from an array of fewer than two elements fails
    with 'Expected at least two images to join'.  From an array of two or
    more elements, on an instance without join state, the build succeeds
    whenever the build of each element succeeds and the input options, if
    any, validate; file paths and non-empty binary buffers always build,
    and plain-object inputs build when their options validate.  Every
    build from an array that succeeds has set [joining] and stored
    exactly one nested descriptor per element, the one the element's own
    build returns.  On an instance that has join state, as after a join,
    every array-input build fails: with 'Recursive join is unsupported' for
    two or more elements, with the first message for fewer. *)
Theorem join_requires_two_images :
  (forall l inputOptions containerOptions this,
     (List.length l < 2)%nat ->
     _createInputDescriptor getBg (VArr l) inputOptions containerOptions this
     = (Throw (Error [Text "Expected at least two images to join"]), this))
  /\ (forall l inputOptions containerOptions this ds d,
        (2 <= List.length l)%nat ->
        truthy (options this).["joining"] = false ->
        Forall2 (builds getBg (joining this)) l ds ->
        inputOptions_into_descriptor getBg (joined_with ds this) (VArr l) inputOptions
          inputDescriptor0 = (Normal tt, d) ->
        _createInputDescriptor getBg (VArr l) inputOptions containerOptions this
        = (Normal (VObj d), joined_with ds this))
  /\ (forall l inputOptions containerOptions this v this',
        _createInputDescriptor getBg (VArr l) inputOptions containerOptions this
        = (Normal v, this') ->
        (2 <= List.length l)%nat
        /\ truthy (options this).["joining"] = false
        /\ (options this').["joining"] = VBool true
        /\ exists descriptors,
             (options this').["join"] = VArr descriptors
             /\ List.length descriptors = List.length l
             /\ Forall2 (builds getBg (joining this)) l descriptors
             /\ this' = joined_with descriptors this)
  /\ (forall element this,
        is_image element = true -> builds getBg this element (image_descriptor element))
  /\ (forall l inputOptions containerOptions this,
        truthy (options this).["joining"] = true ->
        _createInputDescriptor getBg (VArr l) inputOptions containerOptions this
        = (Throw (Error [Text (if (2 <=? List.length l)%nat
                               then "Recursive join is unsupported"
                               else "Expected at least two images to join")]),
           this)).
Proof.
  split; [| split; [| split; [| split]]].
  - intros l inputOptions containerOptions this Hl. rewrite join_run.
    destruct (Nat.ltb_spec 1 (List.length l)); [lia | reflexivity].
  - intros l inputOptions containerOptions this ds d Hl Hjoining Hbuilt Hoptions.
    rewrite (join_succeeds l inputOptions containerOptions this ds Hl Hjoining Hbuilt).
    now rewrite Hoptions.
  - intros l inputOptions containerOptions this v this' Hrun.
    destruct (join_built l inputOptions containerOptions v this this' Hrun)
      as (Hl & Hjoining & ds & Hbuilt & ->).
    split; [exact Hl |]. split; [exact Hjoining |].
    split; [unfold joined_with, joining; simpl; now lookup |].
    exists ds. split; [unfold joined_with; simpl; now lookup |].
    split; [symmetry; exact (Forall2_length Hbuilt) |]. now split.
  - intros element this Himage. apply image_built, Himage.
  - intros l inputOptions containerOptions this Hjoining. rewrite join_run.
    rewrite Hjoining.
    destruct (Nat.ltb_spec 1 (List.length l)), (Nat.leb_spec 2 (List.length l));
      try lia; reflexivity.
Qed.

End Join.

Lemma join_requires_two_images_witness :
  let getBg := fun v : value => Normal v in
  let created := VObj [("create", VObj [("width", VNum 8); ("height", VNum 8);
                                       ("channels", VNum 3); ("background", VStr "red")])] in
  let images := [created; VStr "b.png"; VBuffer [Byte.x89]] in
  let run := _createInputDescriptor getBg (VArr images) VUndefined VUndefined an_instance in
  fst run = Normal (VObj inputDescriptor0)
  /\ (options (snd run)).["joining"] = VBool true
  /\ (exists descriptors,
        (options (snd run)).["join"] = VArr descriptors
        /\ List.length descriptors = 3%nat)
  /\ fst (_createInputDescriptor getBg (VArr [VStr "d.png"; VStr "e.png"])
            VUndefined VUndefined (snd run))
     = Throw (Error [Text "Recursive join is unsupported"]).
Proof.
  intros getBg created images run.
  pose proof (join_requires_two_images getBg) as (_ & _ & Hbuilt & _ & Hagain).
  assert (Hrun : _createInputDescriptor getBg (VArr images) VUndefined VUndefined an_instance
                 = (Normal (VObj inputDescriptor0), snd run)) by reflexivity.
  destruct (Hbuilt images VUndefined VUndefined an_instance _ _ Hrun)
    as (_ & _ & Hjoining & ds & Hjoin & Hlen & _ & _).
  split; [reflexivity |]. split; [exact Hjoining |].
  split; [exists ds; split; [exact Hjoin | exact Hlen] |].
  rewrite (Hagain [VStr "d.png"; VStr "e.png"] VUndefined VUndefined (snd run) eq_refl).
  reflexivity.
Defined.

(** C5, as the specification states it, fails twice: an array of two
    numbers does not build (its elements are no inputs); and after a join
    a further build from a one-element array fails with 'Expected at
    least two images to join', not with 'Recursive join is unsupported'. *)
Lemma join_counterexamples :
  let getBg := fun v : value => Normal v in
  let joined :=
    snd (_createInputDescriptor getBg (VArr [VStr "a.png"; VStr "b.png"])
           VUndefined VUndefined an_instance) in
  fst (_createInputDescriptor getBg (VArr [VNum 1; VNum 2]) VUndefined VUndefined an_instance)
  = Throw (Error [Text "Unsupported input '"; Interp (VNum 1); Text "' of type ";
                  Text "number"])
  /\ (options joined).["joining"] = VBool true
  /\ fst (_createInputDescriptor getBg (VArr [VStr "c.png"]) VUndefined VUndefined joined)
     = Throw (Error [Text "Expected at least two images to join"]).
Proof. repeat split; reflexivity. Qed.

(** ** Raw pixel input *)

Lemma integral_positive (x : float) (z : Z) :
  integral x = Some z -> 0 < z -> gt (VNum x) (VNum 0) = true.
Proof.
  unfold gt, integral. simpl ToNumber. rewrite FloatAxioms.ltb_spec.
  change (Prim2SF 0) with (S754_zero false).
  destruct (Prim2SF x) as [s | s | | s m e]; try discriminate.
  - intros [= <-]. lia.
  - assert (Hs : forall v, 0 <= v -> 0 < (if s then -1 else 1) * v -> s = false)
      by (intros v H1 H2; destruct s; [lia | reflexivity]).
    intros H Hz.
    assert (s = false) as ->; [| reflexivity].
    destruct (Z.leb_spec 0 e).
    + set (mag := Z.pos m * 2 ^ e) in H. injection H as <-.
      apply (Hs mag); [| exact Hz].
      apply Z.mul_nonneg_nonneg; [lia | apply Z.pow_nonneg; lia].
    + destruct (Z.pos m mod 2 ^ (- e) =? 0); [| discriminate].
      set (mag := Z.pos m / 2 ^ (- e)) in H. injection H as <-.
      apply (Hs mag); [| exact Hz].
      apply Z.div_pos; [lia | apply Z.pow_pos_nonneg; lia].
Qed.

Lemma integral_is_integer (x : float) (z : Z) :
  integral x = Some z -> is_integer (VNum x) = true.
Proof. unfold is_integer. now intros ->. Qed.

Lemma channel_counts_ok (c : Z) : 1 <= c <= 4 -> channels_ok c = true.
Proof.
  intros Hc. apply (forall_Z_range channels_ok 1 4); [vm_compute; reflexivity | lia].
Qed.

Section Raw.

Variable getBg : value -> completion value.

(** C8: for JavaScript numbers [width] and [height] that are positive
    integers [w] and [h], and [c] in [1,4], building from a [Uint16Array]
    of length [w*h*c] with the raw options [{width, height, channels: c}]
    succeeds with a descriptor whose [rawDepth] is ["ushort"] and whose
    buffer payload has [2*w*h*c] bytes. *)
Theorem raw_Uint16Array_is_ushort
    (width height : float) (w h c : Z) (buffer : list Byte.byte) (byteOffset : nat)
    (this : Sharp) :
  integral width = Some w -> 0 < w ->
  integral height = Some h -> 0 < h ->
  1 <= c <= 4 ->
  let n := Z.to_nat (w * h * c) in
  (byteOffset + byteLength Uint16Array n <= List.length buffer)%nat ->
  let input := VTypedArray Uint16Array buffer byteOffset n in
  let raw := VObj [("width", VNum width); ("height", VNum height);
                   ("channels", VNum (num c))] in
  exists d bytes,
    _createInputDescriptor getBg input (one "raw" raw) VUndefined this
    = (Normal (VObj d), this)
    /\ d.["rawDepth"] = VStr "ushort"
    /\ d.["buffer"] = VBuffer bytes
    /\ Z.of_nat (List.length bytes) = 2 * w * h * c.
Proof.
  intros Hw Hwpos Hh Hhpos Hc n Hwf input raw.
  pose proof (integral_is_integer _ _ Hw) as Hiw.
  pose proof (integral_is_integer _ _ Hh) as Hih.
  pose proof (integral_positive _ _ Hw Hwpos) as Hgw.
  pose proof (integral_positive _ _ Hh Hhpos) as Hgh.
  pose proof (channel_counts_ok c Hc) as Hch. apply andb_prop in Hch as [Hic Hrc].
  assert (Hn : (n =? 0)%nat = false).
  { apply Nat.eqb_neq. subst n. nia. }
  subst input raw. unfold one.
  remember (2 * w * h * c) as total eqn:Htotal.
  simpl. rewrite Hn. unfold bind at 1. unfold ret at 1. cbv beta iota.
  unfold bind at 1. cbv beta iota. simpl fst. simpl snd.
  unfold inputOptions_into_descriptor.
  unfold bind, ret, when, check, put, throw, properties. simpl.
  rewrite Hiw, Hgw, Hih, Hgh, Hic, Hrc. simpl.
  eexists _, _. split; [reflexivity |]. simpl. split; [reflexivity |].
  split; [reflexivity |].
  rewrite length_firstn, length_skipn. unfold byteLength in *.
  simpl BYTES_PER_ELEMENT in *. rewrite Nat.min_l by lia.
  assert (Hpos : 0 <= w * h * c) by nia.
  subst n. rewrite Nat2Z.inj_mul, Z2Nat.id by exact Hpos.
  change (Z.of_nat 2) with 2. subst total. ring.
Qed.

End Raw.

Lemma raw_Uint16Array_is_ushort_witness :
  let pixels := VTypedArray Uint16Array (List.repeat Byte.x00 48) 0 24 in
  let raw := VObj [("width", VNum 2); ("height", VNum 3); ("channels", VNum 4)] in
  exists d bytes,
    _createInputDescriptor (fun v => Normal v) pixels (one "raw" raw) VUndefined an_instance
    = (Normal (VObj d), an_instance)
    /\ d.["rawDepth"] = VStr "ushort"
    /\ d.["buffer"] = VBuffer bytes
    /\ Z.of_nat (List.length bytes) = 2 * 2 * 3 * 4.
Proof.
  intros pixels raw.
  apply (raw_Uint16Array_is_ushort (fun v => Normal v) 2 3 2 3 4
           (List.repeat Byte.x00 48) 0 an_instance);
    try reflexivity; try lia.
Defined.

(** ** [timeout] and [toFormat] *)

Lemma seconds_in_bounds (s : Z) :
  -128 <= s < 4096 -> seconds_ok s = (0 <=? s) && (s <=? 3600).
Proof.
  intros Hs.
  pose (agree := fun s => Bool.eqb (seconds_ok s) ((0 <=? s) && (s <=? 3600))).
  apply Bool.eqb_prop.
  apply (forall_Z_range agree (-128) 4224); [vm_compute; reflexivity | lia].
Qed.

(** [timeout({ seconds })] stores an integer number of seconds from 0 to
    3600, both ends included, and rejects an integer outside these bounds
    without storing anything. *)
Theorem timeout_bounds (s : Z) (this : Sharp) :
  -128 <= s < 4096 ->
  timeout (one "seconds" (VNum (num s))) this
  = if (0 <=? s) && (s <=? 3600)
    then (Normal tt,
          {| options := set "timeoutSeconds" (VNum (num s)) (options this);
             constructor := constructor this |})
    else (Throw (invalidParameterError "seconds" "integer between 0 and 3600"
                   (VNum (num s))), this).
Proof.
  intros Hs. rewrite <- (seconds_in_bounds s Hs).
  unfold timeout, one, seconds_ok, check, write. js_unfold. simpl.
  destruct (is_integer (VNum (num s)) && is_inRange (VNum (num s)) 0 3600);
    reflexivity.
Qed.

Lemma timeout_bounds_witness :
  fst (timeout (one "seconds" (VNum 3600)) an_instance) = Normal tt
  /\ fst (timeout (one "seconds" (VNum 3601)) an_instance)
     = Throw (invalidParameterError "seconds" "integer between 0 and 3600" (VNum 3601)).
Proof.
  split.
  - change (VNum 3600) with (VNum (num 3600)).
    rewrite (timeout_bounds 3600 an_instance); [reflexivity | lia].
  - change (VNum 3601) with (VNum (num 3601)).
    rewrite (timeout_bounds 3601 an_instance); [reflexivity | lia].
Defined.

Lemma formats_get_absent (key : string) (entries : list (string * string)) :
  ~ In key (List.map fst entries) -> formats_get key entries = None.
Proof.
  induction entries as [| [k v] rest IH]; [reflexivity |].
  simpl. intros Hout.
  destruct (String.eqb_spec key k) as [-> | _]; [exfalso; apply Hout; now left |].
  apply IH. intros Hin. apply Hout. now right.
Qed.

Section ToFormat.

Variable _setBackgroundColourOption : string -> value -> M unit.
Variable String_toLowerCase : string -> string.

Let toFormat := toFormat _setBackgroundColourOption String_toLowerCase.
Let reached := resolvers _setBackgroundColourOption.

Lemma toFormat_of_name (format options : value) (s : string) :
  format_name format = Some s ->
  toFormat format options
  = match formats_get (String_toLowerCase s) formats with
    | Some actualFormat => method _setBackgroundColourOption actualFormat options
    | None =>
        throw (invalidParameterError "format"
                 ("one of: " ++ String.concat ", " (List.map fst formats)) format)
    end.
Proof.
  destruct format as [| | | | s' | f | | | | |]; try discriminate.
  - intros [= ->]. reflexivity.
  - unfold format_name. destruct (is_string f.["id"]) eqn:Hid; [| discriminate].
    intros [= <-]. unfold toFormat, Output.toFormat. js_unfold. simpl. rewrite Hid.
    destruct (f.["id"]); try discriminate. reflexivity.
Qed.

(** [toFormat] looks up the lower-cased name of the format, the format
    itself when it is a string or its [id] when it is an object with a
    non-empty string [id].  Whenever this is one of the names and aliases
    of [formats], the call is the call of the resolver of that name, with
    the options passed through and whatever the letter case of the name
    was; whenever it is not, the call throws the invalid [format]
    parameter error, which lists the names in the order of the map and
    carries the format as it was given.  A format that is undefined,
    null, a boolean or a number has no name to lower: the call throws a
    TypeError instead of that error. *)
Theorem toFormat_dispatch (options : value) :
  List.map fst reached = List.map fst formats
  /\ (forall format s resolver,
        format_name format = Some s ->
        In (String_toLowerCase s, resolver) reached ->
        toFormat format options = resolver options)
  /\ (forall format s,
        format_name format = Some s ->
        ~ In (String_toLowerCase s) (List.map fst formats) ->
        fails_with
          (invalidParameterError "format"
             "one of: heic, heif, avif, jpeg, jpg, jpe, tile, dz, png, raw, tiff, tif, webp, gif, jp2, jpx, j2k, j2c, jxl"
             format)
          (toFormat format options))
  /\ (forall format,
        is_defined format = false \/ is_bool format = true \/ is_number format = true ->
        fails_with TypeError (toFormat format options)).
Proof.
  split; [reflexivity | split; [| split]].
  - intros format s resolver Hname Hin.
    rewrite (toFormat_of_name format options s Hname).
    unfold reached, resolvers in Hin. simpl in Hin.
    repeat (destruct Hin as [[= <- <-] | Hin]; [reflexivity |]).
    contradiction.
  - intros format s Hname Hout this.
    rewrite (toFormat_of_name format options s Hname).
    now rewrite (formats_get_absent _ _ Hout).
  - intros format Hkind this.
    destruct format; try reflexivity;
      destruct Hkind as [H | [H | H]]; discriminate.
Qed.

End ToFormat.

Lemma toFormat_dispatch_witness :
  toFormat (fun _ _ => ret tt) toLowerCase (VStr "JPG") VUndefined = jpeg VUndefined
  /\ toFormat (fun _ _ => ret tt) toLowerCase (one "id" (VStr "Tif")) VUndefined
     = tiff VUndefined
  /\ fst (toFormat (fun _ _ => ret tt) toLowerCase (VStr "bmp") VUndefined an_instance)
     = Throw (invalidParameterError "format"
                "one of: heic, heif, avif, jpeg, jpg, jpe, tile, dz, png, raw, tiff, tif, webp, gif, jp2, jpx, j2k, j2c, jxl"
                (VStr "bmp")).
Proof.
  pose proof (toFormat_dispatch (fun _ _ => ret tt) toLowerCase VUndefined)
    as [_ [Hin [Hout _]]].
  split; [| split].
  - apply (Hin (VStr "JPG") "JPG" jpeg eq_refl). simpl. tauto.
  - apply (Hin (one "id" (VStr "Tif")) "Tif" tiff eq_refl). simpl. tauto.
  - apply (Hout (VStr "bmp") "bmp" eq_refl).
    simpl. intros H. repeat (destruct H as [H | H]; [discriminate |]). contradiction.
Defined.

(** ** Writing to a Buffer, reading as a stream *)

Lemma _pipeline_reads_only (callback : value) (this : Sharp) :
  snd (_pipeline callback this) = this.
Proof.
  unfold _pipeline, _isStreamInput. js_unfold.
  destruct (is_fn callback); simpl.
  - destruct ((options this).["input"]); reflexivity.
  - destruct (truthy (options this).["streamOut"]);
      destruct ((options this).["input"]); reflexivity.
Qed.

(** [toBuffer] with an options object needs a boolean [resolveWithObject]:
    it stores it, or throws before anything is written and before the
    engine is reached, as for the empty object; without an options object
    it leaves [resolveWithObject] falsy; in every case that passes, the
    output path is reset to the empty string; and a function given in
    place of the options is the callback. *)
Theorem toBuffer_resolveWithObject (opts callback : value) (this : Sharp) :
  let run := toBuffer opts callback this in
  let after := options (snd run) in
  (forall o, opts = VObj o ->
     if is_bool o.["resolveWithObject"]
     then after.["resolveWithObject"] = o.["resolveWithObject"]
          /\ after.["fileOut"] = VStr ""
     else run = (Throw (invalidParameterError "resolveWithObject" "boolean"
                          o.["resolveWithObject"]), this))
  /\ (is_object opts = false ->
      truthy after.["resolveWithObject"] = false /\ after.["fileOut"] = VStr "")
  /\ (forall input, is_fn opts = true -> (options this).["input"] = VObj input ->
      exists t, fst run = Normal (ByCallback, t)).
Proof.
  intros run after. subst after run. split; [| split].
  - intros o ->. unfold toBuffer. js_unfold. simpl.
    destruct (is_bool o.["resolveWithObject"]) eqn:Hb; [| reflexivity].
    rewrite _pipeline_reads_only. simpl. lookup. now split.
  - intros Hobj. unfold toBuffer. rewrite Hobj. js_unfold.
    destruct (truthy (options this).["resolveWithObject"]) eqn:Ht;
      rewrite _pipeline_reads_only; simpl; lookup; [now split |].
    now rewrite Ht.
  - intros input Hfn Hinput. destruct opts; try discriminate.
    unfold toBuffer, _pipeline, _isStreamInput. js_unfold. simpl.
    destruct (truthy (options this).["resolveWithObject"]); simpl;
      rewrite ?get_set_other by reflexivity; rewrite Hinput; simpl; eexists; reflexivity.
Qed.

Lemma toBuffer_resolveWithObject_witness :
  toBuffer (VObj []) VUndefined an_instance
  = (Throw (invalidParameterError "resolveWithObject" "boolean" VUndefined), an_instance).
Proof.
  exact (proj1 (toBuffer_resolveWithObject (VObj []) VUndefined an_instance) [] eq_refl).
Defined.

(** [_read] enters the pipeline once: the first call on an instance that
    is not yet streaming out marks it as such and calls the engine for
    stream delivery; every later call does nothing. *)
Theorem _read_once (this : Sharp) (input : props) :
  (options this).["input"] = VObj input ->
  let first := _read this in
  let second := _read (snd first) in
  (truthy (options this).["streamOut"] = false ->
   exists t, fst first = Normal (Some (ByStream, t))
             /\ (options (snd first)).["streamOut"] = VBool true)
  /\ second = (Normal None, snd first).
Proof.
  intros Hinput first second. subst second first.
  unfold _read, _pipeline, _isStreamInput. js_unfold. simpl.
  destruct (truthy (options this).["streamOut"]) eqn:Ht; simpl.
  - rewrite Ht. simpl. split; [discriminate | reflexivity].
  - rewrite get_set_same. simpl. rewrite get_set_other by reflexivity. rewrite Hinput. simpl.
    rewrite get_set_same. simpl. split; [| reflexivity].
    intros _. eexists. split; reflexivity.
Qed.

Lemma _read_once_witness :
  let this := an_instance_reading "in.png" in
  _read (snd (_read this)) = (Normal None, snd (_read this)).
Proof.
  intros this.
  exact (proj2 (_read_once this [("file", VStr "in.png")] eq_refl)).
Defined.

(** ** Invariants of a method body *)

Lemma invariant_ret {S A} (P : S -> Prop) (a : A) : invariant P (ret a).
Proof. intros st H. exact H. Qed.

Lemma invariant_throw {S A} (P : S -> Prop) (e : error) : invariant P (@throw S A e).
Proof. intros st H. exact H. Qed.

Lemma invariant_bind {S A B} (P : S -> Prop) (m : St S A) (f : A -> St S B) :
  invariant P m -> (forall a, invariant P (f a)) -> invariant P (bind m f).
Proof.
  intros Hm Hf st H. unfold bind. specialize (Hm st H).
  destruct (m st) as [[a | e] st1]; simpl in *; [now apply Hf | exact Hm].
Qed.

Lemma invariant_when {S} (P : S -> Prop) (b : bool) (m : St S unit) :
  (b = true -> invariant P m) -> invariant P (when b m).
Proof. destruct b; intros H; [now apply H | apply invariant_ret]. Qed.

Lemma invariant_check {S} (P : S -> Prop) (ok : bool) (name expected : string)
    (actual : value) (m : St S unit) :
  (ok = true -> invariant P m) -> invariant P (check ok name expected actual m).
Proof. destruct ok; intros H; [now apply H | apply invariant_throw]. Qed.

Lemma invariant_if {S A} (P : S -> Prop) (b : bool) (m1 m2 : St S A) :
  (b = true -> invariant P m1) -> (b = false -> invariant P m2) ->
  invariant P (if b then m1 else m2).
Proof. destruct b; intros H1 H2; [now apply H1 | now apply H2]. Qed.

Lemma invariant_properties {S} (P : S -> Prop) (v : value) : invariant P (properties v).
Proof. intros st H. destruct v; exact H. Qed.

Lemma invariant_preserved (k : string) (Q : value -> Prop) {A} (m : M A) :
  preserves k m -> invariant (fun this => Q (options this).[k]) m.
Proof. intros Hm this H. now rewrite Hm. Qed.

Lemma invariant_normal {S A} (P : S -> Prop) (m : St S A) (st st' : S) (a : A) :
  invariant P m -> P st -> m st = (Normal a, st') -> P st'.
Proof. intros Hm H Hrun. specialize (Hm st H). now rewrite Hrun in Hm. Qed.

Lemma preserved (k : string) {A} (m : M A) (this this' : Sharp) (c : completion A) :
  preserves k m -> m this = (c, this') -> (options this').[k] = (options this).[k].
Proof. intros Hm Hrun. specialize (Hm this). now rewrite Hrun in Hm. Qed.

(** ** Keeping metadata *)

Lemma lor_5bit (m b : Z) : 0 <= m < 32 -> 0 <= b < 32 -> 0 <= Z.lor m b < 32.
Proof.
  intros Hm Hb. split; [apply Z.lor_nonneg; lia |].
  destruct (Z.eq_dec (Z.lor m b) 0) as [-> | Hz]; [lia |].
  assert (Hpos : 0 < Z.lor m b) by (pose proof (proj2 (Z.lor_nonneg m b)); lia).
  change 32 with (2 ^ 5). apply Z.log2_lt_pow2; [exact Hpos |].
  rewrite Z.log2_lor by lia.
  assert (Hl : forall x, 0 <= x < 32 -> Z.log2 x < 5).
  { intros x Hx. destruct (Z.eq_dec x 0) as [-> | Hx0]; [reflexivity |].
    apply Z.log2_lt_pow2; [lia |]. change (2 ^ 5) with 32. lia. }
  apply Z.max_lub_lt; now apply Hl.
Qed.

Lemma ToInt32_5bit (m : Z) : 0 <= m < 32 -> ToInt32 (VNum (num m)) = m.
Proof.
  revert m. apply below_32. intros n Hn.
  do 32 (destruct n as [| n]; [reflexivity |]). lia.
Qed.

Lemma num_int32_5bit (m : Z) : 0 <= m < 32 -> num (int32 m) = num m.
Proof.
  intros Hm. unfold int32. rewrite Z.mod_small by lia.
  destruct (Z.ltb_spec m (2 ^ 31)); [reflexivity | lia].
Qed.

Lemma bitor_5bit (m b : Z) :
  0 <= m < 32 -> 0 <= b < 32 ->
  bitor (VNum (num m)) (VNum (num b)) = VNum (num (Z.lor m b)).
Proof.
  intros Hm Hb. unfold bitor. rewrite !ToInt32_5bit by assumption.
  now rewrite num_int32_5bit by now apply lor_5bit.
Qed.

Lemma keeper_run (f : M unit) (b m : Z) (this : Sharp) :
  In (f, b) keepers -> 0 <= m < 32 ->
  (options this).["keepMetadata"] = VNum (num m) ->
  0 <= b < 32
  /\ f this = (Normal tt, {| options := set "keepMetadata" (VNum (num (Z.lor m b)))
                                          (options this);
                             constructor := constructor this |}).
Proof.
  intros Hin Hm Hmask. simpl in Hin.
  destruct Hin as [[= <- <-] | [[= <- <-] | [[= <- <-] | [[= <- <-] | []]]]];
    (split; [lia |]).
  - unfold keepExif. js_unfold. rewrite Hmask.
    change (VNum 1) with (VNum (num 1)). now rewrite bitor_5bit by lia.
  - unfold keepXmp. js_unfold. rewrite Hmask.
    change (VNum 2) with (VNum (num 2)). now rewrite bitor_5bit by lia.
  - unfold keepIccProfile. js_unfold. rewrite Hmask.
    change (VNum 8) with (VNum (num 8)). now rewrite bitor_5bit by lia.
  - unfold keepMetadata. js_unfold.
    replace (Z.lor m 31) with 31; [reflexivity |].
    symmetry. apply Z.bits_inj'. intros n Hn. rewrite Z.lor_spec.
    destruct (Z.ltb_spec n 5).
    + assert (Hc : n = 0 \/ n = 1 \/ n = 2 \/ n = 3 \/ n = 4) by lia.
      destruct Hc as [-> | [-> | [-> | [-> | ->]]]]; simpl; apply orb_true_r.
    + rewrite (Z.bits_above_log2 31 n) by (simpl; lia).
      rewrite orb_false_r. destruct (Z.eq_dec m 0) as [-> | Hm0]; [apply Z.bits_0 |].
      apply Z.bits_above_log2; [lia |].
      assert (Z.log2 m < 5) by (apply Z.log2_lt_pow2; [lia | change (2 ^ 5) with 32; lia]).
      lia.
Qed.

(** On an instance whose retention mask is a 5-bit value [m], each of
    [keepExif], [keepXmp], [keepIccProfile] and [keepMetadata] completes
    and ors its own bits into the mask: the mask stays a 5-bit value, no
    bit that was set is cleared, a second call of the same method changes
    nothing, and two of them give the same mask in either order. *)
Theorem keepers_accumulate (m : Z) (this : Sharp) (f g : M unit) (b c : Z) :
  0 <= m < 32 -> (options this).["keepMetadata"] = VNum (num m) ->
  In (f, b) keepers -> In (g, c) keepers ->
  let mask (h : M unit) := retention_mask (snd (h this)) in
  fst (f this) = Normal tt
  /\ mask f = Z.lor m b
  /\ 0 <= mask f < 32
  /\ Z.land (mask f) m = m
  /\ mask (f ;; f) = mask f
  /\ mask (f ;; g) = Z.lor (Z.lor m b) c
  /\ mask (f ;; g) = mask (g ;; f).
Proof.
  intros Hm Hmask Hf Hg mask. subst mask. unfold retention_mask.
  destruct (keeper_run f b m this Hf Hm Hmask) as [Hb Hrun].
  destruct (keeper_run g c m this Hg Hm Hmask) as [Hc _].
  pose proof (lor_5bit m b Hm Hb) as Hmb.
  assert (Hseq : forall (h1 h2 : M unit) (d1 d2 : Z),
            In (h1, d1) keepers -> In (h2, d2) keepers ->
            (options (snd ((h1 ;; h2) this))).["keepMetadata"]
            = VNum (num (Z.lor (Z.lor m d1) d2))
            /\ 0 <= Z.lor (Z.lor m d1) d2 < 32).
  { intros h1 h2 d1 d2 H1 H2.
    destruct (keeper_run h1 d1 m this H1 Hm Hmask) as [Hd1 Hrun1].
    unfold bind. rewrite Hrun1.
    match goal with |- (options (snd (h2 ?st))).[_] = _ /\ _ =>
      destruct (keeper_run h2 d2 (Z.lor m d1) st H2 (lor_5bit m d1 Hm Hd1)
                  (get_set_same _ _ _)) as [Hd2 ->]
    end.
    simpl. split; [apply get_set_same |].
    apply lor_5bit; [now apply lor_5bit | exact Hd2]. }
  split; [now rewrite Hrun |].
  replace (options (snd (f this))).["keepMetadata"] with (VNum (num (Z.lor m b)))
    by (rewrite Hrun; simpl; now rewrite get_set_same).
  rewrite ToInt32_5bit by exact Hmb.
  split; [reflexivity |]. split; [exact Hmb |].
  split.
  { apply Z.bits_inj'. intros n _. rewrite Z.land_spec, Z.lor_spec.
    destruct (Z.testbit m n), (Z.testbit b n); reflexivity. }
  destruct (Hseq f f b b Hf Hf) as [-> Hff].
  destruct (Hseq f g b c Hf Hg) as [-> Hfg].
  destruct (Hseq g f c b Hg Hf) as [-> Hgf].
  rewrite !ToInt32_5bit by assumption.
  split; [now rewrite <- Z.lor_assoc, Z.lor_diag |].
  split; [reflexivity |].
  rewrite <- !Z.lor_assoc. f_equal. apply Z.lor_comm.
Qed.

Lemma keepers_accumulate_witness :
  retention_mask (snd ((keepExif ;; keepIccProfile) an_instance)) = Z.lor (Z.lor 0 1) 8.
Proof.
  assert (H0 : 0 <= 0 < 32) by lia.
  exact (proj1 (proj2 (proj2 (proj2 (proj2 (proj2
           (keepers_accumulate 0 an_instance keepExif keepIccProfile 1 8 H0 eq_refl
              (or_introl eq_refl) (or_intror (or_intror (or_introl eq_refl)))))))))).
Defined.

(** ** EXIF entries *)














(** ** withMetadata *)

Lemma invariant_keeper (f : M unit) (b : Z) :
  In (f, b) keepers ->
  invariant (fun this => (options this).["keepMetadata"] = VNum 31) f.
Proof.
  intros Hin this H. simpl in Hin.
  destruct Hin as [[= <- <-] | [[= <- <-] | [[= <- <-] | [[= <- <-] | []]]]];
    [unfold keepExif | unfold keepXmp | unfold keepIccProfile | unfold keepMetadata];
    js_unfold; simpl; rewrite ?H; now rewrite get_set_same.
Qed.

Lemma invariant_withIccProfile_mask (icc : value) :
  invariant (fun this => (options this).["keepMetadata"] = VNum 31)
    (withIccProfile icc VUndefined).
Proof.
  unfold withIccProfile. apply invariant_bind; [| intros _; apply invariant_bind].
  - apply (invariant_preserved "keepMetadata" (fun v => v = VNum 31)). frame.
  - apply (invariant_keeper _ 8). simpl. tauto.
  - intros _. apply invariant_ret.
Qed.

Lemma invariant_withExifMerge_mask (exif : value) :
  invariant (fun this => (options this).["keepMetadata"] = VNum 31) (withExifMerge exif).
Proof.
  unfold withExifMerge, withExif.
  apply invariant_bind; [| intros _; apply (invariant_preserved "keepMetadata" (fun v => v = VNum 31)); frame].
  apply invariant_bind; [| intros _; apply invariant_bind].
  - apply (invariant_preserved "keepMetadata" (fun v => v = VNum 31)). apply preserves_if; [| apply preserves_throw].
    apply preserves_bind; [apply preserves_properties | intros _].
    now apply preserves_withExif_groups.
  - apply (invariant_preserved "keepMetadata" (fun v => v = VNum 31)). frame.
  - intros _. apply (invariant_keeper _ 1). simpl. tauto.
Qed.

Lemma preserves_withExifMerge (k : string) (exif : value) :
  String.eqb k "withExif" = false -> String.eqb k "withExifMerge" = false ->
  String.eqb k "keepMetadata" = false ->
  preserves k (withExifMerge exif).
Proof.
  intros H1 H2 H3. unfold withExifMerge, withExif, keepExif.
  apply preserves_bind; [| intros _; now apply preserves_write].
  apply preserves_bind; [| intros _; apply preserves_bind; [now apply preserves_write |]].
  - apply preserves_if; [| apply preserves_throw].
    apply preserves_bind; [apply preserves_properties | intros _].
    now apply preserves_withExif_groups.
  - intros _. apply preserves_bind; [apply preserves_read | intros ?].
    now apply preserves_write.
Qed.

Lemma withIccProfile_stores (icc : value) (this this' : Sharp) :
  withIccProfile icc VUndefined this = (Normal tt, this') ->
  (options this').["withIccProfile"] = icc.
Proof.
  unfold withIccProfile, keepIccProfile. js_unfold. simpl.
  destruct (is_string icc); [| discriminate].
  intros [= <-]. simpl. now lookup.
Qed.

Ltac frame_metadata :=
  repeat first
    [ apply preserves_withExifMerge; reflexivity
    | apply preserves_ret | apply preserves_throw | apply preserves_read
    | apply preserves_this_constructor | apply preserves_properties
    | apply preserves_write; reflexivity
    | apply preserves_setBooleanOption; reflexivity
    | apply preserves_when | apply preserves_check | apply preserves_if
    | apply preserves_bind; [| intros ?] ].

(** Rewrite [this'.options[k]] into [this.options[k]] across the run [H]
    of a body that leaves [k] alone. *)
Ltac carry k H :=
  match type of H with
  | ?m ?st = (?c, ?st') =>
      let E := fresh "E" in
      assert (E : preserves k m) by (solve [frame_metadata]);
      rewrite (preserved k m st st' c E H); clear E
  end.

(** A call of [withMetadata] that completes leaves the retention mask at
    [0b11111], whatever the options are; the ICC profile is [options.icc]
    when that is defined and ['srgb'] otherwise; a defined [orientation]
    is an integer from 1 to 8 and a defined [density] a positive number,
    each stored as given; and with [options.exif] the EXIF merge flag is
    on. *)
Theorem withMetadata_keeps_everything (opts : value) (this this' : Sharp) :
  withMetadata opts this = (Normal tt, this') ->
  let o := Input.fields opts in
  let given (key : string) := is_object opts && is_defined o.[key] in
  (options this').["keepMetadata"] = VNum 31
  /\ (options this').["withIccProfile"] = (if given "icc" then o.["icc"] else VStr "srgb")
  /\ (given "orientation" = true ->
      (options this').["withMetadataOrientation"] = o.["orientation"]
      /\ is_integer o.["orientation"] && is_inRange o.["orientation"] 1 8 = true)
  /\ (given "density" = true ->
      (options this').["withMetadataDensity"] = o.["density"]
      /\ is_number o.["density"] && gt o.["density"] (VNum 0) = true)
  /\ (given "exif" = true -> (options this').["withExifMerge"] = VBool true).
Proof.
  intros Hrun o given. subst given.
  unfold withMetadata in Hrun.
  apply bind_normal in Hrun as ([] & this1 & Hkeep & Hrun).
  apply bind_normal in Hrun as ([] & this2 & Hsrgb & Hrun).
  assert (Hmask2 : (options this2).["keepMetadata"] = VNum 31).
  { apply (invariant_normal _ _ _ _ _ (invariant_withIccProfile_mask (VStr "srgb")))
      in Hsrgb; [exact Hsrgb |].
    revert Hkeep. unfold keepMetadata, write. intros [= <-]. simpl. apply get_set_same. }
  pose proof (withIccProfile_stores _ _ _ Hsrgb) as Hicc2.
  destruct (is_object opts) eqn:Hobj; simpl in Hrun |- *.
  2: { injection Hrun as <-. repeat split; try discriminate; assumption. }
  apply bind_normal in Hrun as (o' & this2' & Hprops & Hrun).
  assert (o' = o /\ this2' = this2) as [-> ->].
  { subst o. destruct opts; try discriminate; simpl in Hprops;
      injection Hprops as <- <-; now split. }
  clear Hprops.
  apply bind_normal in Hrun as ([] & this3 & Horientation & Hrun).
  apply bind_normal in Hrun as ([] & this4 & Hdensity & Hrun).
  apply bind_normal in Hrun as ([] & this5 & Hicc & Hexif).
  split.
  { apply (invariant_normal _ _ _ _ _
             (invariant_when _ _ _ (fun _ => invariant_withExifMerge_mask _)) ) in Hexif;
      [exact Hexif |].
    apply (invariant_normal _ _ _ _ _
             (invariant_when _ _ _ (fun _ => invariant_withIccProfile_mask _))) in Hicc;
      [exact Hicc |].
    carry "keepMetadata" Hdensity. carry "keepMetadata" Horientation.
    exact Hmask2. }
  split.
  { carry "withIccProfile" Hexif.
    destruct (is_defined o.["icc"]); simpl in Hicc.
    - exact (withIccProfile_stores _ _ _ Hicc).
    - injection Hicc as <-.
      carry "withIccProfile" Hdensity. carry "withIccProfile" Horientation.
      exact Hicc2. }
  split.
  { intros Hgiven. carry "withMetadataOrientation" Hexif.
    carry "withMetadataOrientation" Hicc. carry "withMetadataOrientation" Hdensity.
    rewrite Hgiven in Horientation. simpl in Horientation.
    unfold check in Horientation.
    destruct (is_integer o.["orientation"] && is_inRange o.["orientation"] 1 8);
      [| discriminate].
    split; [| reflexivity].
    injection Horientation as <-. simpl. apply get_set_same. }
  split.
  { intros Hgiven. carry "withMetadataDensity" Hexif. carry "withMetadataDensity" Hicc.
    rewrite Hgiven in Hdensity. simpl in Hdensity.
    unfold check in Hdensity.
    destruct (is_number o.["density"] && gt o.["density"] (VNum 0)); [| discriminate].
    split; [| reflexivity].
    injection Hdensity as <-. simpl. apply get_set_same. }
  intros Hgiven. rewrite Hgiven in Hexif. simpl in Hexif.
  unfold withExifMerge in Hexif.
  apply bind_normal in Hexif as ([] & this6 & _ & Hflag).
  injection Hflag as <-. simpl. apply get_set_same.
Qed.

Lemma withMetadata_keeps_everything_witness :
  let this' := snd (withMetadata (VObj [("orientation", VNum 6); ("icc", VStr "p3")])
                      an_instance) in
  (options this').["keepMetadata"] = VNum 31
  /\ (options this').["withIccProfile"] = VStr "p3".
Proof.
  intros this'.
  destruct (withMetadata_keeps_everything
              (VObj [("orientation", VNum 6); ("icc", VStr "p3")]) an_instance this' eq_refl)
    as (Hmask & Hicc & _).
  split; [exact Hmask | exact Hicc].
Defined.

(** ** The options a resolver writes *)

Lemma not_owned (name : string) (shared : list string) (k key : string) :
  owns name shared k = false -> owns name shared key = true -> String.eqb k key = false.
Proof.
  intros Hk Hkey. apply String.eqb_neq. intros ->. congruence.
Qed.

Ltac frame_own H :=
  repeat first
    [ apply preserves_ret | apply preserves_throw | apply preserves_read
    | apply preserves_this_constructor | apply preserves_properties
    | apply preserves_write; apply (not_owned _ _ _ _ H); reflexivity
    | apply preserves_setBooleanOption; apply (not_owned _ _ _ _ H); reflexivity
    | apply preserves_trySetAnimationOptions; apply (not_owned _ _ _ _ H); reflexivity
    | apply preserves_when | apply preserves_check | apply preserves_if
    | apply preserves_bind; [| intros ?] ].

(** No codec resolver touches the options of another: whatever its
    argument and however it completes, [jpeg] changes only options whose
    name begins with [jpeg], and [formatOut]; likewise [png], [jp2],
    [tiff], [heif] and [raw]; [avif] writes the [heif] options; [webp],
    [gif] and [jxl] may also write [loop] and [delay]; and [tile] writes
    only [tile] options and [formatOut] when the background setter writes
    only [tile] options. *)
Theorem resolvers_write_their_own_options (opts : value) :
  writes_only "jpeg" ["formatOut"] (jpeg opts)
  /\ writes_only "png" ["formatOut"] (png opts)
  /\ writes_only "webp" ["formatOut"; "loop"; "delay"] (webp opts)
  /\ writes_only "gif" ["formatOut"; "loop"; "delay"] (gif opts)
  /\ writes_only "jp2" ["formatOut"] (jp2 opts)
  /\ writes_only "tiff" ["formatOut"] (tiff opts)
  /\ writes_only "heif" ["formatOut"] (heif opts)
  /\ writes_only "heif" ["formatOut"] (avif opts)
  /\ writes_only "jxl" ["formatOut"; "loop"; "delay"] (jxl opts)
  /\ writes_only "raw" ["formatOut"] (raw opts)
  /\ (forall setBackground : string -> value -> M unit,
        (forall key v, writes_only "tile" [] (setBackground key v)) ->
        writes_only "tile" ["formatOut"] (tile setBackground opts)).
Proof.
  repeat split; try (intros k Hk;
    first [unfold jpeg | unfold png | unfold webp | unfold gif | unfold jp2 | unfold tiff
          | unfold avif, heif | unfold heif | unfold jxl | unfold raw ];
    solve [frame_own Hk]).
  intros setBackground Hbg k Hk. unfold tile. 
  assert (Hk' : owns "tile" [] k = false).
  { unfold owns in *. apply orb_false_iff in Hk as [-> _]. reflexivity. }
  frame_own Hk. now apply Hbg.
Qed.

(** ** The mozjpeg preset *)

Lemma invariant_write_same (k : string) (Q : value -> Prop) (v : value) :
  Q v -> invariant (fun this => Q (options this).[k]) (write k v).
Proof. intros H this _. simpl. now rewrite get_set_same. Qed.

Lemma setBooleanOption_stores (k : string) (v : value) (this this' : Sharp) :
  _setBooleanOption k v this = (Normal tt, this') -> (options this').[k] = v.
Proof.
  unfold _setBooleanOption. destruct (is_bool v); [| discriminate].
  intros [= <-]. simpl. apply get_set_same.
Qed.

(** In a call of [jpeg] that completes with [mozjpeg: true], the preset
    only supplies defaults: trellis quantisation, overshoot deringing and
    scan optimisation are on and the quantisation table is 3 unless the
    same call gives the option explicitly, in which case the explicit
    value stands; and the output is progressive whatever
    [options.progressive] says.  Scan optimisation switched on explicitly
    forces progressive output as well. *)
Theorem jpeg_mozjpeg_supplies_defaults (o : props) (this this' : Sharp) :
  jpeg (VObj o) this = (Normal tt, this') ->
  let trellis := spelled is_bool "trellisQuantization" "trellisQuantisation" o in
  let scans := spelled is_bool "optimizeScans" "optimiseScans" o in
  let table := spelled is_number "quantizationTable" "quantisationTable" o in
  let after := options this' in
  (o.["mozjpeg"] = VBool true ->
   after.["jpegTrellisQuantisation"] = or_default trellis (VBool true)
   /\ after.["jpegOvershootDeringing"] = or_default o.["overshootDeringing"] (VBool true)
   /\ after.["jpegOptimiseScans"] = or_default scans (VBool true)
   /\ after.["jpegQuantisationTable"] = or_default table (VNum 3)
   /\ after.["jpegProgressive"] = VBool true)
  /\ (scans = VBool true -> after.["jpegProgressive"] = VBool true).
Proof.
  intros Hrun trellis scans table after. subst after trellis scans table.
  unfold spelled.
  unfold jpeg in Hrun. simpl is_object in Hrun. unfold when at 1 in Hrun.
  apply bind_normal in Hrun as ([] & this10 & Hrun & Hformat).
  unfold properties in Hrun. apply bind_normal in Hrun as (o' & this0 & Ho & Hrun).
  injection Ho as <- <-.
  apply bind_normal in Hrun as ([] & this1 & Hquality & Hrun).
  apply bind_normal in Hrun as ([] & this2 & Hprogressive & Hrun).
  apply bind_normal in Hrun as ([] & this3 & Hchroma & Hrun).
  apply bind_normal in Hrun as ([] & this4 & Hcoding & Hrun).
  apply bind_normal in Hrun as ([] & this5 & Hmoz & Hrun).
  apply bind_normal in Hrun as ([] & this6 & Htrellis & Hrun).
  apply bind_normal in Hrun as ([] & this7 & Hovershoot & Hrun).
  apply bind_normal in Hrun as ([] & this8 & Hscans & Htable).
  set (trellis := if is_bool o.["trellisQuantization"] then _ else _) in *.
  set (scans := if is_bool o.["optimizeScans"] then _ else _) in *.
  set (table := if is_number o.["quantizationTable"] then _ else _) in *.
  assert (Hforced : (options this8).["jpegProgressive"] = VBool true ->
                    (options this').["jpegProgressive"] = VBool true).
  { intros H. carry "jpegProgressive" Hformat. carry "jpegProgressive" Htable. exact H. }
  assert (Hstep8 : (options this7).["jpegProgressive"] = VBool true \/ scans = VBool true ->
                   (options this8).["jpegProgressive"] = VBool true).
  { intros H. destruct (is_defined scans) eqn:Hd; simpl in Hscans.
    - apply bind_normal in Hscans as ([] & this7' & Hset & Hthen).
      destruct (truthy scans) eqn:Ht; simpl in Hthen.
      + injection Hthen as <-. simpl. apply get_set_same.
      + injection Hthen as <-. destruct H as [H | H]; [| rewrite H in Ht; discriminate].
        carry "jpegProgressive" Hset. exact H.
    - injection Hscans as <-. destruct H as [H | H]; [exact H |].
      rewrite H in Hd. discriminate. }
  split; [| intros H; apply Hforced, Hstep8; now right].
  intros Hmozjpeg. rewrite Hmozjpeg in Hmoz. simpl in Hmoz.
  unfold bind, write in Hmoz. simpl in Hmoz. injection Hmoz as Hmoz.
  split.
  { carry "jpegTrellisQuantisation" Hformat. carry "jpegTrellisQuantisation" Htable.
    carry "jpegTrellisQuantisation" Hscans. carry "jpegTrellisQuantisation" Hovershoot.
    unfold or_default. destruct (is_defined trellis); simpl in Htrellis.
    - exact (setBooleanOption_stores _ _ _ _ Htrellis).
    - injection Htrellis as <-. rewrite <- Hmoz. simpl. now lookup. }
  split.
  { carry "jpegOvershootDeringing" Hformat. carry "jpegOvershootDeringing" Htable.
    carry "jpegOvershootDeringing" Hscans.
    unfold or_default. destruct (is_defined o.["overshootDeringing"]); simpl in Hovershoot.
    - exact (setBooleanOption_stores _ _ _ _ Hovershoot).
    - injection Hovershoot as <-. carry "jpegOvershootDeringing" Htrellis.
      rewrite <- Hmoz. simpl. now lookup. }
  split.
  { carry "jpegOptimiseScans" Hformat. carry "jpegOptimiseScans" Htable.
    unfold or_default. destruct (is_defined scans); simpl in Hscans.
    - apply bind_normal in Hscans as ([] & this7' & Hset & Hthen).
      carry "jpegOptimiseScans" Hthen.
      exact (setBooleanOption_stores _ _ _ _ Hset).
    - injection Hscans as <-. carry "jpegOptimiseScans" Hovershoot.
      carry "jpegOptimiseScans" Htrellis. rewrite <- Hmoz. simpl. now lookup. }
  split.
  { carry "jpegQuantisationTable" Hformat.
    unfold or_default. destruct (is_defined table); simpl in Htable.
    - unfold check in Htable.
      destruct (is_integer table && is_inRange table 0 8); [| discriminate].
      injection Htable as <-. simpl. apply get_set_same.
    - injection Htable as <-. carry "jpegQuantisationTable" Hscans.
      carry "jpegQuantisationTable" Hovershoot. carry "jpegQuantisationTable" Htrellis.
      rewrite <- Hmoz. simpl. now lookup. }
  apply Hforced, Hstep8. left.
  carry "jpegProgressive" Hovershoot. carry "jpegProgressive" Htrellis.
  rewrite <- Hmoz. simpl. now lookup.
Qed.

Lemma jpeg_mozjpeg_supplies_defaults_witness :
  let o := [("progressive", VBool false); ("mozjpeg", VBool true);
            ("quantisationTable", VNum 5)] in
  let after := options (snd (jpeg (VObj o) an_instance)) in
  after.["jpegQuantisationTable"] = VNum 5
  /\ after.["jpegOptimiseScans"] = VBool true
  /\ after.["jpegProgressive"] = VBool true.
Proof.
  intros o after.
  destruct (proj1 (jpeg_mozjpeg_supplies_defaults o an_instance _ eq_refl) eq_refl)
    as (_ & _ & Hscans & Htable & Hprogressive).
  split; [exact Htable |]. split; [exact Hscans | exact Hprogressive].
Defined.

(** ** Two spellings, two treatments *)



(** ** Quantisation options without a palette *)

(** With [palette: false], [png] neither checks nor stores the
    quantisation options: when the checks before the palette step pass,
    the call completes whatever [quality], [effort] and [dither] are,
    leaves [pngQuality], [pngEffort] and [pngDither] as they were and the
    palette off. *)
Theorem png_without_palette (o : props) (this : Sharp) :
  reaches_palette_step o = true ->
  o.["palette"] = VBool false ->
  exists this',
    png (VObj o) this = (Normal tt, this')
    /\ (options this').["pngPalette"] = VBool false
    /\ (options this').["pngQuality"] = (options this).["pngQuality"]
    /\ (options this').["pngEffort"] = (options this).["pngEffort"]
    /\ (options this').["pngDither"] = (options this).["pngDither"].
Proof.
  intros Hpre Hpalette. unfold reaches_palette_step in Hpre.
  apply andb_prop in Hpre as [Hpre H4]. apply andb_prop in Hpre as [Hpre H3].
  apply andb_prop in Hpre as [H1 H2].
  pose proof (guarded _ _ H1) as G1. pose proof (guarded _ _ H2) as G2.
  pose proof (guarded _ _ H3) as G3. pose proof (guarded _ _ H4) as G4.
  clear H1 H2 H3 H4.
  unfold png. js_unfold. simpl. rewrite Hpalette. simpl.
  destruct (is_defined o.["progressive"]); [rewrite (G1 eq_refl) |];
    (destruct (is_defined o.["compressionLevel"]); [rewrite (G2 eq_refl) |]);
    (destruct (is_defined o.["adaptiveFiltering"]); [rewrite (G3 eq_refl) |]);
    (destruct (is_defined (or_else o.["colours"] o.["colors"])); [rewrite (G4 eq_refl) |]);
    simpl; lookup; simpl;
    destruct (is_false o.["force"]); simpl;
    eexists; (split; [reflexivity |]); simpl; lookup; repeat split; reflexivity.
Qed.

Lemma png_without_palette_witness :
  exists this',
    png (VObj [("palette", VBool false); ("quality", VNum 500)]) an_instance
    = (Normal tt, this')
    /\ (options this').["pngQuality"] = VUndefined.
Proof.
  destruct (png_without_palette [("palette", VBool false); ("quality", VNum 500)]
              an_instance eq_refl eq_refl) as (this' & Hrun & _ & Hquality & _).
  exists this'. split; [exact Hrun | exact Hquality].
Defined.

(** ** Frame delays *)

Lemma valid_delays_forallb (l : list value) :
  valid_delays (VArr l) = forallb is_delay l.
Proof.
  unfold valid_delays, is_delay. induction l as [| x rest IH]; [reflexivity |].
  simpl. rewrite <- IH.
  destruct (is_integer x), (is_inRange x 0 65535), (forallb is_integer rest);
    reflexivity.
Qed.

Lemma animated_delay (resolver : value -> M unit) (v : value) (this : Sharp) :
  In resolver animated -> is_defined v = true ->
  let run := resolver (one "delay" v) this in
  if is_delay v then fst run = Normal tt /\ (options (snd run)).["delay"] = VArr [v]
  else if valid_delays v then fst run = Normal tt /\ (options (snd run)).["delay"] = v
  else run = (Throw (invalidParameterError "delay"
                       "integer or an array of integers between 0 and 65535" v), this).
Proof.
  intros Hin Hd. simpl in Hin. unfold is_delay.
  destruct Hin as [<- | [<- | [<- | []]]];
    [unfold webp | unfold gif | unfold jxl]; unfold one; js_unfold; simpl; rewrite Hd;
    (destruct (is_integer v && is_inRange v 0 65535); simpl; lookup;
     [now split |]);
    (destruct (valid_delays v); simpl; lookup; [now split | reflexivity]).
Qed.

(** In [webp], [gif] and [jxl], a delay that is one integer from 0 to
    65535 is stored as an array of that one element; an array is stored as
    given when every element is such an integer, the empty array
    included; an array with another element, and any other defined
    value, is rejected and nothing is written. *)
Theorem animation_delays (resolver : value -> M unit) (v : value) (this : Sharp) :
  In resolver animated ->
  let run := resolver (one "delay" v) this in
  let rejected :=
    run = (Throw (invalidParameterError "delay"
                    "integer or an array of integers between 0 and 65535" v), this) in
  (is_delay v = true ->
   fst run = Normal tt /\ (options (snd run)).["delay"] = VArr [v])
  /\ (forall l, v = VArr l -> forallb is_delay l = true ->
      fst run = Normal tt /\ (options (snd run)).["delay"] = VArr l)
  /\ (forall l bad, v = VArr l -> In bad l -> is_delay bad = false -> rejected)
  /\ (is_defined v = true -> is_delay v = false -> (forall l, v <> VArr l) -> rejected).
Proof.
  intros Hin run rejected. subst run rejected.
  split; [| split; [| split]].
  - intros Hv. assert (Hd : is_defined v = true).
    { destruct v; try reflexivity; discriminate. }
    pose proof (animated_delay resolver v this Hin Hd) as H. now rewrite Hv in H.
  - intros l -> Hl.
    pose proof (animated_delay resolver (VArr l) this Hin eq_refl) as H.
    change (is_delay (VArr l)) with false in H. cbv iota in H.
    now rewrite valid_delays_forallb, Hl in H.
  - intros l bad -> Hbad Hnot.
    pose proof (animated_delay resolver (VArr l) this Hin eq_refl) as H.
    change (is_delay (VArr l)) with false in H. cbv iota in H.
    rewrite valid_delays_forallb in H.
    destruct (forallb is_delay l) eqn:Hall; [| exact H].
    rewrite forallb_forall in Hall. rewrite (Hall bad Hbad) in Hnot. discriminate.
  - intros Hd Hnot Harr.
    pose proof (animated_delay resolver v this Hin Hd) as H. rewrite Hnot in H.
    destruct v as [| | | | | | l | | | |]; try exact H; try discriminate.
    now destruct (Harr l).
Qed.

Lemma animation_delays_witness :
  (options (snd (gif (one "delay" (VNum 100)) an_instance))).["delay"] = VArr [VNum 100]
  /\ (options (snd (webp (one "delay" (VArr [])) an_instance))).["delay"] = VArr [].
Proof.
  split.
  - exact (proj2 (proj1 (animation_delays gif (VNum 100) an_instance
                           (or_intror (or_introl eq_refl))) eq_refl)).
  - exact (proj2 (proj1 (proj2 (animation_delays webp (VArr []) an_instance
                                  (or_introl eq_refl))) [] eq_refl eq_refl)).
Defined.

(** ** JPEG 2000 without OpenJPEG, AVIF and HEIF *)

(** When the engine cannot write JPEG 2000 to a buffer, [jp2] throws the
    OpenJPEG error whatever its options are and changes nothing, and so
    does [toFormat] for every name of the format, in any letter case. *)
Theorem jp2_needs_openjpeg (setBackground : string -> value -> M unit)
    (lower : string -> string) (opts : value) (this : Sharp) :
  jp2k_output_buffer (constructor this) = false ->
  jp2 opts this = (Throw errJp2Save, this)
  /\ (forall name, In (lower name) ["jp2"; "jpx"; "j2k"; "j2c"] ->
      toFormat setBackground lower (VStr name) opts this = (Throw errJp2Save, this)).
Proof.
  intros Hengine.
  assert (Hjp2 : jp2 opts this = (Throw errJp2Save, this)).
  { unfold jp2. js_unfold. now rewrite Hengine. }
  split; [exact Hjp2 |].
  intros name Hname. unfold toFormat. js_unfold. simpl.
  destruct Hname as [<- | [<- | [<- | [<- | []]]]]; exact Hjp2.
Qed.

Lemma jp2_needs_openjpeg_witness :
  let this := an_instance_reading "in.png" in
  toFormat (fun _ _ => ret tt) toLowerCase (VStr "JPX") (one "quality" (VNum 80)) this
  = (Throw errJp2Save, this).
Proof.
  intros this.
  apply (jp2_needs_openjpeg (fun _ _ => ret tt) toLowerCase (one "quality" (VNum 80)) this eq_refl).
  simpl. tauto.
Defined.

(** [avif] always asks for AV1: whatever its argument, a [compression]
    it contains included, and however the call completes,
    [heifCompression] is ['av1'] afterwards; without an argument the call
    completes.  [heif] itself needs an options object with a valid
    [compression] and throws before writing anything otherwise. *)
Theorem avif_is_av1 (opts : value) (this : Sharp) :
  (options (snd (avif opts this))).["heifCompression"] = VStr "av1"
  /\ fst (avif VUndefined this) = Normal tt
  /\ (is_object opts = false ->
      heif opts this = (Throw (invalidParameterError "options" "Object" opts), this))
  /\ (forall o, opts = VObj o ->
      is_string o.["compression"] && is_inArray o.["compression"] ["av1"; "hevc"] = false ->
      heif opts this
      = (Throw (invalidParameterError "compression" "one of: av1, hevc" o.["compression"]),
         this)).
Proof.
  split; [| split; [reflexivity | split]].
  - revert this. change (leaves "heifCompression" (VStr "av1") (avif opts)).
    unfold avif, heif. simpl is_object. cbv iota.
    apply leaves_then; [| intros _; unfold _updateFormatOut; frame].
    unfold properties. apply leaves_ret_bind.
    rewrite get_set_same. simpl. unfold check.
    apply leaves_then; [apply leaves_write | intros _; frame].
  - intros Hobj. unfold heif. now rewrite Hobj.
  - intros o -> Hbad. unfold heif. js_unfold. simpl. now rewrite Hbad.
Qed.

(** ** Tiles *)

(** [tile] takes the tile format from the format selected before it:
    [jpeg], [png] or [webp] becomes [tileFormat]; with no selection the
    tile format is left alone; any other selection is rejected.  In the
    first two cases the selection becomes ['dz'], so [tile] cannot be
    called a second time: after a call that completes, a further call
    throws for the format ['dz']. *)
Theorem tile_takes_the_selected_format (setBackground : string -> value -> M unit)
    (this : Sharp) (format : string) :
  (options this).["formatOut"] = VStr format ->
  tile setBackground VUndefined this
  = (if existsb (String.eqb format) ["jpeg"; "png"; "webp"] then
       (Normal tt,
        {| options := set "formatOut" (VStr "dz")
                        (set "tileFormat" (VStr format) (options this));
           constructor := constructor this |})
     else if String.eqb format "input" then
       (Normal tt,
        {| options := set "formatOut" (VStr "dz") (options this);
           constructor := constructor this |})
     else (Throw (invalidParameterError "format" "one of: jpeg, png, webp" (VStr format)),
           this))
  /\ (forall opts this',
        tile setBackground opts this = (Normal tt, this') ->
        tile setBackground VUndefined this'
        = (Throw (invalidParameterError "format" "one of: jpeg, png, webp" (VStr "dz")),
           this')).
Proof.
  intros Hformat.
  assert (Hrun : forall st f, (options st).["formatOut"] = VStr f ->
            tile setBackground VUndefined st
            = (if existsb (String.eqb f) ["jpeg"; "png"; "webp"] then
                 (Normal tt,
                  {| options := set "formatOut" (VStr "dz")
                                  (set "tileFormat" (VStr f) (options st));
                     constructor := constructor st |})
               else if String.eqb f "input" then
                 (Normal tt,
                  {| options := set "formatOut" (VStr "dz") (options st);
                     constructor := constructor st |})
               else (Throw (invalidParameterError "format" "one of: jpeg, png, webp"
                              (VStr f)), st))).
  { intros st f Hf. unfold tile. js_unfold. simpl. rewrite Hf. simpl.
    destruct (String.eqb f "jpeg" || (String.eqb f "png" || (String.eqb f "webp" || false)));
      [reflexivity |].
    destruct (String.eqb f "input"); reflexivity. }
  split; [now apply Hrun |].
  intros opts this' Hfirst.
  rewrite (Hrun this' "dz"); [reflexivity |].
  exact (tile_overwrites setBackground opts this this' Hfirst).
Qed.

Lemma tile_takes_the_selected_format_witness :
  let bg := fun (_ : string) (_ : value) => @ret Sharp unit tt in
  let this := snd (jpeg VUndefined an_instance) in
  exists this',
    tile bg VUndefined this = (Normal tt, this')
    /\ (options this').["tileFormat"] = VStr "jpeg"
    /\ fst (tile bg VUndefined this') = Throw (invalidParameterError "format"
                                                "one of: jpeg, png, webp" (VStr "dz")).
Proof.
  intros bg this.
  destruct (tile_takes_the_selected_format bg this "jpeg" eq_refl) as [Hrun Htwice].
  eexists. split; [exact Hrun |]. split; [reflexivity |].
  now rewrite (Htwice VUndefined _ Hrun).
Defined.

(** The overlap of tiles may not exceed their size: the size given in the
    same call, which has been stored by then, or else the size the
    instance holds.  A larger overlap is rejected with the size in the
    message, before the background setter is reached. *)
Theorem tile_overlap_within_size (setBackground : string -> value -> M unit)
    (o : props) (this : Sharp) :
  let size := if is_defined o.["size"] then o.["size"] else (options this).["tileSize"] in
  (is_defined o.["size"] = true ->
   is_integer o.["size"] && is_inRange o.["size"] 1 8192 = true) ->
  is_defined o.["overlap"] = true ->
  is_integer o.["overlap"] && is_inRange o.["overlap"] 0 8192 = true ->
  gt o.["overlap"] size = true ->
  tile setBackground (VObj o) this
  = (Throw (InvalidParameterError "overlap" [Text "<= size ("; Interp size; Text ")"]
              o.["overlap"]),
     if is_defined o.["size"]
     then {| options := set "tileSize" o.["size"] (options this);
             constructor := constructor this |}
     else this).
Proof.
  intros size Hsize Hd Hoverlap Hgt. subst size.
  unfold tile. js_unfold. simpl. rewrite Hd, Hoverlap.
  destruct (is_defined o.["size"]).
  - rewrite (Hsize eq_refl). simpl. rewrite get_set_same. now rewrite Hgt.
  - simpl. now rewrite Hgt.
Qed.

Lemma tile_overlap_within_size_witness :
  tile (fun _ _ => ret tt) (VObj [("size", VNum 128); ("overlap", VNum 129)]) an_instance
  = (Throw (InvalidParameterError "overlap" [Text "<= size ("; Interp (VNum 128); Text ")"]
              (VNum 129)),
     {| options := set "tileSize" (VNum 128) (options an_instance);
        constructor := constructor an_instance |}).
Proof.
  exact (tile_overlap_within_size (fun _ _ => ret tt)
           [("size", VNum 128); ("overlap", VNum 129)] an_instance
           (fun _ => eq_refl) eq_refl eq_refl eq_refl).
Defined.

(** ** Quality and distance of JPEG XL *)

Lemma distance_profiles (q : Z) : 1 <= q <= 100 -> distance_profile q = true.
Proof.
  intros Hq.
  apply (forall_Z_range distance_profile 1 100); [vm_compute; reflexivity | lia].
Qed.

(** Over the qualities 1 to 100 the distance that [jxl] derives falls
    strictly as the quality rises.  It lies in the range 0 to 15 that
    [jxl] accepts for an explicit distance exactly from quality 11 on: for
    a quality of 10 or less the call stores a distance that the same
    method rejects when it is given as [options.distance]. *)
Theorem jxl_quality_outruns_distance (q : Z) (this : Sharp) :
  1 <= q <= 100 ->
  let distance := jxlDistanceFromQuality (num q) in
  (q < 100 -> PrimFloat.ltb (jxlDistanceFromQuality (num (q + 1))) distance = true)
  /\ is_inRange (VNum distance) 0 15 = (11 <=? q)
  /\ (q <= 10 ->
      (exists this', jxl (one "quality" (VNum (num q))) this = (Normal tt, this')
                     /\ (options this').["jxlDistance"] = VNum distance)
      /\ jxl (one "distance" (VNum distance)) this
         = (Throw (invalidParameterError "distance" "number between 0.0 and 15.0"
                     (VNum distance)), this)).
Proof.
  intros Hq distance. subst distance.
  pose proof (distance_profiles q Hq) as H. unfold distance_profile in H.
  apply andb_prop in H as [H Hrange]. apply andb_prop in H as [H Hfalls].
  apply andb_prop in H as [Hi Hr]. apply Bool.eqb_prop in Hrange.
  split.
  { intros Hlt. apply orb_prop in Hfalls as [Hend | Hfalls]; [| exact Hfalls].
    apply Z.eqb_eq in Hend. lia. }
  split; [exact Hrange |].
  intros Hlow. split.
  - unfold jxl, one. js_unfold. simpl. rewrite Hi, Hr. simpl.
    eexists. split; [reflexivity |]. simpl. now lookup.
  - unfold jxl, one. js_unfold. simpl. rewrite Hrange.
    destruct (Z.leb_spec 11 q); [lia |]. now rewrite andb_false_r.
Qed.

Lemma jxl_quality_outruns_distance_witness :
  is_inRange (VNum (jxlDistanceFromQuality (num 10))) 0 15 = false
  /\ is_inRange (VNum (jxlDistanceFromQuality (num 11))) 0 15 = true.
Proof.
  split.
  - exact (proj1 (proj2 (jxl_quality_outruns_distance 10 an_instance ltac:(lia)))).
  - exact (proj1 (proj2 (jxl_quality_outruns_distance 11 an_instance ltac:(lia)))).
Defined.

(** ** Bit depths *)

Lemma bitdepth_profiles (n : Z) : -128 <= n < 128 -> bitdepth_profile n = true.
Proof.
  intros Hn.
  apply (forall_Z_range bitdepth_profile (-128) 256); [vm_compute; reflexivity | lia].
Qed.

(** Of the integers, [tiff] accepts exactly 1, 2, 4 and 8 as [bitdepth],
    and [heif] exactly 8, 10 and 12; on prebuilt binaries, where
    [versions.heif] is set, [heif] accepts 8 only and rejects 10 and 12
    with an error of its own, after [heifCompression] has been written
    (checked for the integers from -128 to 127). *)
Theorem bitdepths_accepted (n : Z) (this : Sharp) :
  -128 <= n < 128 ->
  let depth := VNum (num n) in
  let t := tiff (one "bitdepth" depth) this in
  let h := heif (VObj [("compression", VStr "hevc"); ("bitdepth", depth)]) this in
  (if existsb (Z.eqb n) [1; 2; 4; 8]
   then fst t = Normal tt /\ (options (snd t)).["tiffBitdepth"] = depth
   else t = (Throw (invalidParameterError "bitdepth" "1, 2, 4 or 8" depth), this))
  /\ (if existsb (Z.eqb n) [8; 10; 12]
      then if negb (n =? 8) && truthy (versions_heif (constructor this))
           then fst h = Throw (InvalidParameterError "bitdepth when using prebuilt binaries"
                                 [Interp (VNum 8)] depth)
           else fst h = Normal tt /\ (options (snd h)).["heifBitdepth"] = depth
      else fst h = Throw (invalidParameterError "bitdepth" "8, 10 or 12" depth)).
Proof.
  intros Hn depth t h. subst depth t h.
  pose proof (bitdepth_profiles n Hn) as H. unfold bitdepth_profile in H.
  apply andb_prop in H as [H H8]. apply andb_prop in H as [Htiff Hheif].
  apply Bool.eqb_prop in Htiff, Hheif, H8.
  unfold is_inNumbers in Htiff, Hheif, H8. simpl in Htiff, Hheif, H8.
  split.
  - unfold tiff, one. js_unfold. simpl. rewrite Htiff.
    destruct ((n =? 1) || ((n =? 2) || ((n =? 4) || ((n =? 8) || false)))); simpl;
      [| reflexivity].
    split; [reflexivity | now lookup].
  - unfold heif. js_unfold. simpl. rewrite Hheif.
    destruct ((n =? 8) || ((n =? 10) || ((n =? 12) || false))); simpl; [| reflexivity].
    rewrite H8.
    destruct (negb (n =? 8) && truthy (versions_heif (constructor this))); simpl;
      [reflexivity |].
    split; [reflexivity | now lookup].
Qed.

Lemma bitdepths_accepted_witness :
  tiff (one "bitdepth" (VNum 3)) an_instance
  = (Throw (invalidParameterError "bitdepth" "1, 2, 4 or 8" (VNum 3)), an_instance).
Proof.
  exact (proj1 (bitdepths_accepted 3 an_instance ltac:(lia))).
Defined.

(** ** Input options carried by a plain object *)

Lemma stream_parameters_lookup (obj : props) (key : string) (ps : list string) :
  (List.map (fun p => (p, obj.[p])) (List.filter (fun p => is_defined obj.[p]) ps)).[key]
  = if existsb (String.eqb key) ps && is_defined obj.[key] then obj.[key] else VUndefined.
Proof.
  induction ps as [| p rest IH]; [reflexivity |].
  simpl. destruct (String.eqb_spec key p) as [-> | Hne].
  - destruct (is_defined obj.[p]) eqn:Hd; simpl.
    + now rewrite String.eqb_refl.
    + rewrite IH. now rewrite !andb_false_r.
  - destruct (is_defined obj.[p]); simpl; [| exact IH].
    apply String.eqb_neq in Hne. now rewrite Hne.
Qed.

Lemma filter_nil {A} (f : A -> bool) (l : list A) :
  List.filter f l = [] <-> forall x, In x l -> f x = false.
Proof.
  split.
  - intros Hnil x Hx. destruct (f x) eqn:Hf; [| reflexivity].
    assert (Hin : In x (List.filter f l)) by (apply filter_In; now split).
    rewrite Hnil in Hin. contradiction.
  - induction l as [| a rest IH]; intros Hall; [reflexivity |].
    simpl. rewrite (Hall a (or_introl eq_refl)). apply IH.
    intros x Hx. apply Hall. now right.
Qed.

(** [_inputOptionsFromObject] keeps exactly the stream parameters that
    are defined in the object, each with its value: the result is
    [undefined] when there is none, and otherwise an object in which a
    stream parameter has the value it has in the argument and every other
    key is absent. *)
Theorem inputOptionsFromObject_keeps_stream_parameters (obj : props) :
  let kept := _inputOptionsFromObject obj in
  (kept = VUndefined <->
   forall p, In p inputStreamParameters -> is_defined obj.[p] = false)
  /\ (kept <> VUndefined -> is_plainObject kept = true)
  /\ (forall key,
        (Input.fields kept).[key]
        = if existsb (String.eqb key) inputStreamParameters && is_defined obj.[key]
          then obj.[key] else VUndefined).
Proof.
  intros kept. subst kept. unfold _inputOptionsFromObject.
  pose proof (fun key => stream_parameters_lookup obj key inputStreamParameters) as Hget.
  pose proof (filter_nil (fun p => is_defined obj.[p]) inputStreamParameters) as Hnone.
  cbv beta in Hnone.
  destruct (List.filter (fun p => is_defined obj.[p]) inputStreamParameters)
    as [| p rest] eqn:Hdefined; cbn [List.map].
  - split; [split; [intros _; exact (proj1 Hnone eq_refl) | reflexivity] |].
    split; [intros H; now destruct H |].
    intros key. rewrite <- (Hget key). reflexivity.
  - split; [split; [discriminate |] |].
    { intros Hall. apply Hnone in Hall. discriminate. }
    split; [reflexivity |].
    intros key. rewrite <- (Hget key). reflexivity.
Qed.

(** ** Empty inputs *)

(** An empty binary input is rejected whatever options come with it, with
    a message that depends on its kind; an empty string is no file path
    and is rejected as an unsupported input; nothing is changed. *)
Theorem empty_inputs_are_rejected (getBg : value -> completion value)
    (inputOptions containerOptions : value) (this : Sharp) :
  let build input := _createInputDescriptor getBg input inputOptions containerOptions this in
  build (VBuffer []) = (Throw (Error [Text "Input Buffer is empty"]), this)
  /\ build (VArrayBuffer []) = (Throw (Error [Text "Input bit Array is empty"]), this)
  /\ (forall k buffer byteOffset,
        build (VTypedArray k buffer byteOffset 0)
        = (Throw (Error [Text "Input Bit Array is empty"]), this))
  /\ build (VStr "")
     = (Throw (Error (List.app
                        [Text "Unsupported input '"; Interp (VStr ""); Text "' of type ";
                         Text "string"]
                        (if is_defined inputOptions
                         then [Text " when also providing options of type ";
                               Text (typeof inputOptions)]
                         else []))), this).
Proof.
  intros build. subst build. repeat split; reflexivity.
Qed.

(** ** The two halves of _createInputDescriptor *)

Lemma run_bind {S A B} (m : St S A) (f : A -> St S B) (st st' : S) (b : B) :
  bind m f st = (Normal b, st') ->
  exists a st1, m st = (Normal a, st1) /\ f a st1 = (Normal b, st').
Proof.
  unfold bind. destruct (m st) as [[a | e] st1]; [| discriminate].
  intros H. now exists a, st1.
Qed.

Ltac resolve_source H :=
  repeat first
    [ discriminate H
    | match type of H with
      | ret _ _ = _ => unfold ret in H; injection H as <- <-
      | bind _ _ _ = _ =>
          let H1 := fresh "Hstep" in
          apply run_bind in H as (? & ? & H1 & H);
          try (progress unfold ret in H1; injection H1 as <- <-)
      | (if ?c then _ else _) _ = _ => destruct c
      end ].

Lemma createInputDescriptor_halves (getBg : value -> completion value)
    (input inputOptions containerOptions v : value) (this this' : Sharp) :
  _createInputDescriptor getBg input inputOptions containerOptions this = (Normal v, this') ->
  exists d,
    inputOptions_into_descriptor getBg this' input (options_used input inputOptions)
      (source_descriptor input inputOptions) = (Normal tt, d)
    /\ v = VObj d.
Proof.
  intros H.
  assert (Hsplit : exists source this1,
            source = (source_descriptor input inputOptions, options_used input inputOptions)
            /\ (this0 <- (fun this0 : Sharp => (Normal this0, this0)) ;;
                match inputOptions_into_descriptor getBg this0 input (snd source)
                        (fst source) with
                | (Normal _, inputDescriptor) => ret (VObj inputDescriptor)
                | (Throw e, _) => throw e
                end) this1 = (Normal v, this')).
  { unfold source_descriptor, options_used.
    destruct input as [| | b | x | s | ps | l | id | bytes | bytes | k buffer off n];
      simpl in H |- *;
      apply run_bind in H as (source & this1 & Hsrc & H);
      exists source, this1; (split; [| exact H]); clear H.
    all: try destruct (is_defined inputOptions); simpl in Hsrc |- *.
    all: resolve_source Hsrc; try reflexivity. }
  destruct Hsplit as (source & this1 & -> & Hrest). simpl in Hrest.
  unfold bind in Hrest.
  destruct (inputOptions_into_descriptor getBg this1 input _ _)
    as [[[] | e] d] eqn:Hd; [| discriminate].
  injection Hrest as <- <-. now exists d.
Qed.

(** ** Invariants of the descriptor *)

Lemma get_delete_other (k key : string) (d : props) :
  String.eqb k key = false -> (delete key d).[k] = d.[k].
Proof.
  intros Hk. induction d as [| [k0 v0] rest IH]; [reflexivity |].
  simpl. destruct (String.eqb key k0) eqn:E.
  - apply String.eqb_eq in E. subst k0. now rewrite Hk.
  - simpl. destruct (String.eqb k k0); [reflexivity | exact IH].
Qed.

Section Entries.
Variables (k : string) (Q : value -> Prop).

Lemma invariant_put_other (key : string) (v : value) :
  String.eqb k key = false -> invariant (entry k Q) (put key v).
Proof. intros Hk d H. unfold entry in *. simpl. now rewrite get_set_other. Qed.

Lemma invariant_put_same (v : value) : Q v -> invariant (entry k Q) (put k v).
Proof. intros Hv d _. unfold entry. simpl. now rewrite get_set_same. Qed.

Lemma invariant_remove_other (key : string) :
  String.eqb k key = false -> invariant (entry k Q) (remove key).
Proof. intros Hk d H. unfold entry in *. simpl. now rewrite get_delete_other. Qed.

Lemma invariant_lift {A} (P : props -> Prop) (c : completion A) : invariant P (lift c).
Proof. intros d H. exact H. Qed.

Lemma invariant_rawDepth_of (input : value) :
  String.eqb k "rawDepth" = false -> invariant (entry k Q) (rawDepth_of input).
Proof.
  intros Hk. unfold rawDepth_of.
  destruct input as [| | | | | | | | | | t ? ? ?];
    try apply invariant_throw; try (now apply invariant_put_other).
  destruct t; now apply invariant_put_other.
Qed.

End Entries.

(** The steps of a body that leave [inputDescriptor[k]] alone; what is
    left are the assignments to [k] itself, each under the checks that
    guard it. *)
Ltac hold :=
  repeat first
    [ apply invariant_ret | apply invariant_throw | apply invariant_properties
    | apply invariant_lift
    | apply invariant_put_other; reflexivity
    | apply invariant_remove_other; reflexivity
    | apply invariant_rawDepth_of; reflexivity
    | apply invariant_bind; [| intros ?]
    | apply invariant_when; intros ?
    | apply invariant_check; intros ?
    | apply invariant_if; intros ? ].

Lemma invariant_run {S A} (P : S -> Prop) (m : St S A) (st st' : S) (c : completion A) :
  invariant P m -> P st -> m st = (c, st') -> P st'.
Proof. intros Hm H Hrun. specialize (Hm st H). now rewrite Hrun in Hm. Qed.

Lemma source_descriptor_base (input inputOptions : value) (k : string) :
  String.eqb k "file" = false -> String.eqb k "buffer" = false ->
  (source_descriptor input inputOptions).[k] = inputDescriptor0.[k].
Proof.
  intros Hf Hb. unfold source_descriptor.
  repeat match goal with
         | |- context [if ?c then _ else _] => destruct c
         | |- context [match ?v with VArr _ => _ | _ => _ end] => destruct v
         end;
    try reflexivity; now apply get_set_other.
Qed.

Section Descriptor.

Variable getBg : value -> completion value.

Lemma base_field_kept (this : Sharp) (input inputOptions : value)
    (k : string) (ok : value -> bool) :
  In (k, ok) base_fields ->
  invariant (entry k (fun v => ok v = true))
    (inputOptions_into_descriptor getBg this input inputOptions).
Proof.
  intros Hin. simpl in Hin.
  destruct Hin as [[= <- <-] | [[= <- <-] | [[= <- <-] | [[= <- <-] | [[= <- <-] |
                    [[= <- <-] | []]]]]]];
    unfold inputOptions_into_descriptor; hold;
    apply invariant_put_same;
    try assumption;
    try (match goal with
         | |- context [if ?c then _ else _] => destruct c; reflexivity
         end);
    try (match goal with
         | H : _ && _ = true |- _ => apply andb_prop in H; tauto
         end).
Qed.

(** Whatever the input and the options, a descriptor that
    [_createInputDescriptor] returns holds checked values in the six
    fields it starts with: [autoOrient], [ignoreIcc], [unlimited] and
    [sequentialRead] are booleans, [failOn] is one of the four levels and
    [limitInputPixels] an integer from 0 to [Number.MAX_SAFE_INTEGER]. *)
Theorem descriptor_base_fields_are_checked
    (input inputOptions containerOptions : value) (this this' : Sharp) (d : props) :
  _createInputDescriptor getBg input inputOptions containerOptions this
  = (Normal (VObj d), this') ->
  forall k ok, In (k, ok) base_fields -> ok d.[k] = true.
Proof.
  intros Hrun k ok Hin.
  apply createInputDescriptor_halves in Hrun as (d' & Hoptions & [= ->]).
  apply (invariant_run _ _ _ _ _ (base_field_kept this' input _ k ok Hin)) in Hoptions;
    [exact Hoptions |].
  unfold entry. rewrite source_descriptor_base.
  - simpl in Hin.
    destruct Hin as [[= <- <-] | [[= <- <-] | [[= <- <-] | [[= <- <-] | [[= <- <-] |
                      [[= <- <-] | []]]]]]]; reflexivity.
  - simpl in Hin.
    destruct Hin as [[= <- <-] | [[= <- <-] | [[= <- <-] | [[= <- <-] | [[= <- <-] |
                      [[= <- <-] | []]]]]]]; reflexivity.
  - simpl in Hin.
    destruct Hin as [[= <- <-] | [[= <- <-] | [[= <- <-] | [[= <- <-] | [[= <- <-] |
                      [[= <- <-] | []]]]]]]; reflexivity.
Qed.

End Descriptor.

Lemma descriptor_base_fields_are_checked_witness :
  exists d,
    _createInputDescriptor (fun v => Normal v) (VStr "in.tiff")
      (VObj [("failOnError", VBool false); ("limitInputPixels", VBool false)])
      VUndefined an_instance = (Normal (VObj d), an_instance)
    /\ is_inArray d.["failOn"] ["none"; "truncated"; "error"; "warning"] = true.
Proof.
  eexists. split; [reflexivity |].
  apply (descriptor_base_fields_are_checked (fun v => Normal v) (VStr "in.tiff")
           (VObj [("failOnError", VBool false); ("limitInputPixels", VBool false)])
           VUndefined an_instance an_instance _ eq_refl
           "failOn" (fun v => is_inArray v ["none"; "truncated"; "error"; "warning"])).
  simpl. tauto.
Defined.

(** ** Hoare triples over a body *)

Lemma triple_bind {S A B} (P R Q : S -> Prop) (m : St S A) (f : A -> St S B) :
  triple P m R -> (forall a, triple R (f a) Q) -> triple P (bind m f) Q.
Proof.
  intros Hm Hf st b st' HP Hrun.
  apply run_bind in Hrun as (a & st1 & H1 & H2).
  exact (Hf a st1 b st' (Hm st a st1 HP H1) H2).
Qed.

Lemma triple_invariant {S A} (P : S -> Prop) (m : St S A) :
  invariant P m -> triple P m P.
Proof. intros Hm st a st' HP Hrun. exact (invariant_run P m st st' _ Hm HP Hrun). Qed.

Lemma triple_when_check_put (k : string) (X : value) (c ok : bool)
    (name expected : string) (actual v : value) :
  triple (entry k (fun x => x = X))
    (when c (check ok name expected actual (put k v)))
    (entry k (fun x => x = if c then v else X)).
Proof.
  intros d [] d' HP. unfold entry in *. destruct c; simpl.
  - destruct ok; simpl; [| discriminate]. intros [= <-]. apply get_set_same.
  - intros [= <-]. exact HP.
Qed.

Lemma triple_nested_or_flat {B} (k nk : string) (nested : value) (flat : value)
    (ok1 ok2 : value -> bool) (n1 e1 n2 e2 : string) (rest : D B) (Q : props -> Prop) :
  triple (entry k (fun x => x = if is_object nested && is_defined (Input.fields nested).[nk]
                                then (Input.fields nested).[nk]
                                else or_default flat VUndefined)) rest Q ->
  triple (entry k (fun x => x = VUndefined))
    (inner <- (if is_object nested then properties nested else ret []) ;;
     (if is_object nested && is_defined inner.[nk]
      then check (ok1 inner.[nk]) n1 e1 inner.[nk] (put k inner.[nk])
      else when (is_defined flat) (check (ok2 flat) n2 e2 flat (put k flat))) ;;
     rest)
    Q.
Proof.
  intros Hrest d b d' HP Hrun. unfold entry in *.
  apply run_bind in Hrun as (inner & d1 & Hinner & Hrun).
  assert (inner = Input.fields nested /\ d1 = d) as [-> ->].
  { destruct nested; simpl in Hinner; try discriminate;
      injection Hinner as <- <-; now split. }
  apply run_bind in Hrun as ([] & d2 & Hstep & Hrun).
  apply (Hrest d2 b d'); [| exact Hrun].
  destruct (is_object nested && is_defined (Input.fields nested).[nk]).
  - unfold check in Hstep. destruct (ok1 _); [| discriminate].
    injection Hstep as <-. apply get_set_same.
  - destruct (is_defined flat) eqn:Hflat; simpl in Hstep.
    + unfold check in Hstep. destruct (ok2 flat); [| discriminate].
      injection Hstep as <-. unfold or_default. rewrite Hflat. apply get_set_same.
    + injection Hstep as <-. unfold or_default. now rewrite Hflat.
Qed.

Lemma triple_ret_bind {S A B} (P Q : S -> Prop) (a : A) (f : A -> St S B) :
  triple P (f a) Q -> triple P (bind (ret a) f) Q.
Proof. intros H st b st' HP Hrun. exact (H st b st' HP Hrun). Qed.

(** ** Options that override each other *)

Section Precedence.

Variable getBg : value -> completion value.
Variables (this : Sharp) (input : value) (o : props).

Ltac skip_step k X :=
  apply (triple_bind _ (entry k (fun x => x = X)));
  [apply triple_invariant; hold | intros ?].

Lemma failOn_resolved :
  triple (entry "failOn" (fun x => x = VStr "warning"))
    (inputOptions_into_descriptor getBg this input (VObj o))
    (entry "failOn"
       (fun x => x = or_default o.["failOn"]
                       (if is_defined o.["failOnError"]
                        then VStr (if truthy o.["failOnError"] then "warning" else "none")
                        else VStr "warning"))).
Proof.
  unfold inputOptions_into_descriptor. simpl is_object. cbv iota.
  unfold properties. apply triple_ret_bind.
  eapply triple_bind; [apply triple_when_check_put | intros _].
  eapply triple_bind; [apply triple_when_check_put | intros _].
  apply triple_invariant. hold.
Qed.

Lemma pages_resolved :
  triple (entry "pages" (fun x => x = VUndefined))
    (inputOptions_into_descriptor getBg this input (VObj o))
    (entry "pages"
       (fun x => x = or_default o.["pages"]
                       (if is_defined o.["animated"]
                        then (if truthy o.["animated"] then VNum (-1) else VNum 1)
                        else VUndefined))).
Proof.
  unfold inputOptions_into_descriptor. simpl is_object. cbv iota.
  unfold properties. apply triple_ret_bind.
  do 9 skip_step "pages" VUndefined.
  eapply triple_bind; [apply triple_when_check_put | intros _].
  eapply triple_bind; [apply triple_when_check_put | intros _].
  apply triple_invariant. hold.
Qed.

Lemma openSlideLevel_resolved :
  triple (entry "openSlideLevel" (fun x => x = VUndefined))
    (inputOptions_into_descriptor getBg this input (VObj o))
    (entry "openSlideLevel"
       (fun x => x = if is_object o.["openSlide"]
                        && is_defined (Input.fields o.["openSlide"]).["level"]
                     then (Input.fields o.["openSlide"]).["level"]
                     else or_default o.["level"] VUndefined)).
Proof.
  unfold inputOptions_into_descriptor. simpl is_object. cbv iota.
  unfold properties. apply triple_ret_bind.
  do 12 skip_step "openSlideLevel" VUndefined.
  apply (triple_nested_or_flat "openSlideLevel" "level" o.["openSlide"] o.["level"]
           (fun v => is_integer v && is_inRange v 0 256)
           (fun v => is_integer v && is_inRange v 0 256)).
  apply triple_invariant. hold.
Qed.

Lemma tiffSubifd_resolved :
  triple (entry "tiffSubifd" (fun x => x = VUndefined))
    (inputOptions_into_descriptor getBg this input (VObj o))
    (entry "tiffSubifd"
       (fun x => x = if is_object o.["tiff"]
                        && is_defined (Input.fields o.["tiff"]).["subifd"]
                     then (Input.fields o.["tiff"]).["subifd"]
                     else or_default o.["subifd"] VUndefined)).
Proof.
  unfold inputOptions_into_descriptor. simpl is_object. cbv iota.
  unfold properties. apply triple_ret_bind.
  do 12 skip_step "tiffSubifd" VUndefined.
  apply (triple_bind _ (entry "tiffSubifd" (fun x => x = VUndefined)));
    [apply triple_invariant; hold | intros ?].
  apply (triple_bind _ (entry "tiffSubifd" (fun x => x = VUndefined)));
    [apply triple_invariant; hold | intros ?].
  apply (triple_nested_or_flat "tiffSubifd" "subifd" o.["tiff"] o.["subifd"]
           (fun v => is_integer v && is_inRange v (-1) 100000)
           (fun v => is_integer v && is_inRange v (-1) 100000)).
  apply triple_invariant. hold.
Qed.

End Precedence.

Lemma options_as_object (getBg : value -> completion value) (this : Sharp)
    (input used : value) (d0 d : props) :
  inputOptions_into_descriptor getBg this input used d0 = (Normal tt, d) ->
  inputOptions_into_descriptor getBg this input (VObj (Input.fields used)) d0
  = (Normal tt, d).
Proof.
  destruct used; try (intros H; exact H); discriminate.
Qed.

(** In a descriptor that [_createInputDescriptor] returns, of two
    options that set the same field the newer or more specific one wins:
    [failOn] over the deprecated [failOnError], [pages] over [animated],
    [openSlide.level] over [level] and [tiff.subifd] over [subifd]; the
    overridden option counts only when the other one is absent, and the
    field keeps its default when both are. *)
Theorem newer_options_win (getBg : value -> completion value)
    (input inputOptions containerOptions : value) (this this' : Sharp) (d : props) :
  _createInputDescriptor getBg input inputOptions containerOptions this
  = (Normal (VObj d), this') ->
  let o := Input.fields (options_used input inputOptions) in
  d.["failOn"]
  = or_default o.["failOn"]
      (if is_defined o.["failOnError"]
       then VStr (if truthy o.["failOnError"] then "warning" else "none")
       else VStr "warning")
  /\ d.["pages"]
     = or_default o.["pages"]
         (if is_defined o.["animated"]
          then (if truthy o.["animated"] then VNum (-1) else VNum 1)
          else VUndefined)
  /\ d.["openSlideLevel"]
     = (if is_object o.["openSlide"] && is_defined (Input.fields o.["openSlide"]).["level"]
        then (Input.fields o.["openSlide"]).["level"]
        else or_default o.["level"] VUndefined)
  /\ d.["tiffSubifd"]
     = (if is_object o.["tiff"] && is_defined (Input.fields o.["tiff"]).["subifd"]
        then (Input.fields o.["tiff"]).["subifd"]
        else or_default o.["subifd"] VUndefined).
Proof.
  intros Hrun o.
  apply createInputDescriptor_halves in Hrun as (d' & Hoptions & [= ->]).
  apply options_as_object in Hoptions. fold o in Hoptions.
  assert (Hbase : forall k, String.eqb k "file" = false -> String.eqb k "buffer" = false ->
            (source_descriptor input inputOptions).[k] = inputDescriptor0.[k])
    by (intros k; apply source_descriptor_base).
  split; [| split; [| split]].
  - apply (failOn_resolved getBg this' input o _ tt _ (Hbase "failOn" eq_refl eq_refl)
             Hoptions).
  - apply (pages_resolved getBg this' input o _ tt _ (Hbase "pages" eq_refl eq_refl)
             Hoptions).
  - apply (openSlideLevel_resolved getBg this' input o _ tt _
             (Hbase "openSlideLevel" eq_refl eq_refl) Hoptions).
  - apply (tiffSubifd_resolved getBg this' input o _ tt _
             (Hbase "tiffSubifd" eq_refl eq_refl) Hoptions).
Qed.

Lemma newer_options_win_witness :
  exists d,
    _createInputDescriptor (fun v => Normal v) (VStr "in.gif")
      (VObj [("failOnError", VBool false); ("failOn", VStr "error");
             ("animated", VBool true); ("pages", VNum 3)])
      VUndefined an_instance = (Normal (VObj d), an_instance)
    /\ d.["failOn"] = VStr "error" /\ d.["pages"] = VNum 3.
Proof.
  eexists. split; [reflexivity |].
  destruct (newer_options_win (fun v => Normal v) (VStr "in.gif")
              (VObj [("failOnError", VBool false); ("failOn", VStr "error");
                     ("animated", VBool true); ("pages", VNum 3)])
              VUndefined an_instance an_instance _ eq_refl) as (Hf & Hp & _).
  split; [exact Hf | exact Hp].
Defined.

(** ** Created images are no streams *)

Lemma set_keys (k : string) (v : value) (d : props) :
  forall x, In x (List.map fst (set k v d)) <-> x = k \/ In x (List.map fst d).
Proof.
  induction d as [| [k0 v0] rest IH]; intros x; simpl.
  - intuition.
  - destruct (String.eqb_spec k k0) as [-> | Hne]; simpl.
    + intuition.
    + rewrite IH. intuition.
Qed.

Lemma unique_set (k : string) (v : value) (d : props) :
  unique_keys d -> unique_keys (set k v d).
Proof.
  unfold unique_keys. induction d as [| [k0 v0] rest IH]; intros Hd; simpl.
  - repeat constructor. intros [].
  - inversion Hd as [| ? ? Hfresh Hrest]; subst.
    destruct (String.eqb_spec k k0) as [-> | Hne]; simpl.
    + now constructor.
    + constructor; [| now apply IH].
      rewrite set_keys. intros [-> | Hin]; [now apply Hne | now apply Hfresh].
Qed.

Lemma delete_keys (k : string) (d : props) :
  forall x, In x (List.map fst (delete k d)) -> In x (List.map fst d).
Proof.
  induction d as [| [k0 v0] rest IH]; intros x; simpl; [tauto |].
  destruct (String.eqb k k0); simpl; [tauto |].
  intros [-> | Hin]; [now left | right; now apply IH].
Qed.

Lemma unique_delete (k : string) (d : props) :
  unique_keys d -> unique_keys (delete k d).
Proof.
  unfold unique_keys. induction d as [| [k0 v0] rest IH]; intros Hd; simpl.
  - constructor.
  - inversion Hd as [| ? ? Hfresh Hrest]; subst.
    destruct (String.eqb k k0); simpl; [exact Hrest |].
    constructor; [| now apply IH].
    intros Hin. apply Hfresh. now apply (delete_keys k).
Qed.

Lemma get_absent (k : string) (d : props) :
  ~ In k (List.map fst d) -> d.[k] = VUndefined.
Proof.
  induction d as [| [k0 v0] rest IH]; intros Hnot; [reflexivity |].
  simpl in *. destruct (String.eqb_spec k k0) as [-> | Hne]; [tauto |].
  apply IH. tauto.
Qed.

Lemma get_delete_same (k : string) (d : props) :
  unique_keys d -> (delete k d).[k] = VUndefined.
Proof.
  unfold unique_keys. induction d as [| [k0 v0] rest IH]; intros Hd; [reflexivity |].
  inversion Hd as [| ? ? Hfresh Hrest]; subst. simpl.
  destruct (String.eqb_spec k k0) as [-> | Hne].
  - now apply get_absent.
  - simpl. destruct (String.eqb_spec k k0); [contradiction | now apply IH].
Qed.

Lemma invariant_put_unique (key : string) (v : value) : invariant unique_keys (put key v).
Proof. intros d H. simpl. now apply unique_set. Qed.

Lemma invariant_remove_unique (key : string) : invariant unique_keys (remove key).
Proof. intros d H. simpl. now apply unique_delete. Qed.

Lemma invariant_rawDepth_unique (input : value) : invariant unique_keys (rawDepth_of input).
Proof.
  unfold rawDepth_of.
  destruct input as [| | | | | | | | | | t ? ? ?];
    try apply invariant_throw; try apply invariant_put_unique.
  destruct t; apply invariant_put_unique.
Qed.

Lemma invariant_put_no_buffer (key : string) (v : value) :
  String.eqb "buffer" key = false -> invariant no_buffer (put key v).
Proof.
  intros Hk d [Hu Hb]. simpl. split; [now apply unique_set |].
  now rewrite get_set_other.
Qed.

Lemma invariant_remove_no_buffer (key : string) : invariant no_buffer (remove key).
Proof.
  intros d [Hu Hb]. simpl. split; [now apply unique_delete |].
  destruct (String.eqb_spec "buffer" key) as [<- | Hne].
  - now apply get_delete_same.
  - rewrite get_delete_other; [exact Hb | now apply String.eqb_neq].
Qed.

Lemma triple_remove_buffer : triple unique_keys (remove "buffer") no_buffer.
Proof.
  intros d [] d' Hu [= <-]. split; [now apply unique_delete | now apply get_delete_same].
Qed.

Ltac hold_unique :=
  repeat first
    [ apply invariant_ret | apply invariant_throw | apply invariant_properties
    | apply invariant_lift
    | apply invariant_put_unique | apply invariant_remove_unique
    | apply invariant_rawDepth_unique
    | apply invariant_bind; [| intros ?]
    | apply invariant_when; intros ?
    | apply invariant_check; intros ?
    | apply invariant_if; intros ? ].

Ltac hold_no_buffer :=
  repeat first
    [ apply invariant_ret | apply invariant_throw | apply invariant_properties
    | apply invariant_lift
    | apply invariant_put_no_buffer; reflexivity | apply invariant_remove_no_buffer
    | apply invariant_bind; [| intros ?]
    | apply invariant_when; intros ?
    | apply invariant_check; intros ?
    | apply invariant_if; intros ? ].

(** A body that ends by deleting the buffer. *)
Ltac ends_without_buffer :=
  repeat first
    [ apply triple_remove_buffer
    | apply (triple_bind _ unique_keys); [apply triple_invariant; hold_unique | intros ?] ].

Lemma triple_vacuous {S A} (P Q : S -> Prop) (e : error) : triple P (@throw S A e) Q.
Proof. intros st a st' _ H. discriminate H. Qed.

Section Created.

Variable getBg : value -> completion value.
Variables (this : Sharp) (input : value) (o : props).

Lemma created_without_buffer :
  is_defined o.["create"] || is_defined o.["text"] = true ->
  triple unique_keys (inputOptions_into_descriptor getBg this input (VObj o)) no_buffer.
Proof.
  intros Hmade.
  unfold inputOptions_into_descriptor. simpl is_object. cbv iota.
  unfold properties. apply triple_ret_bind.
  do 12 (apply (triple_bind _ unique_keys); [apply triple_invariant; hold_unique | intros ?]).
  do 9 (apply (triple_bind _ unique_keys); [apply triple_invariant; hold_unique | intros ?]).
  destruct (is_defined o.["create"]) eqn:Hcreate.
  - apply (triple_bind _ no_buffer); [| intros _; apply triple_invariant; hold_no_buffer].
    simpl when.
    match goal with |- triple _ (if ?c then _ else _) _ => destruct c end;
      [| apply triple_vacuous].
    ends_without_buffer.
  - simpl in Hmade. rewrite Hmade.
    apply (triple_bind _ unique_keys); [apply triple_invariant; hold_unique | intros ?].
    apply (triple_bind _ no_buffer); [| intros _; apply triple_invariant; hold_no_buffer].
    simpl when.
    match goal with |- triple _ (if ?c then _ else _) _ => destruct c end;
      [| apply triple_vacuous].
    ends_without_buffer.
Qed.

End Created.

Lemma source_descriptor_unique (input inputOptions : value) :
  unique_keys (source_descriptor input inputOptions).
Proof.
  assert (H0 : unique_keys inputDescriptor0).
  { unfold unique_keys. simpl. repeat constructor; simpl; intuition discriminate. }
  unfold source_descriptor.
  repeat match goal with
         | |- context [if ?c then _ else _] => destruct c
         | |- context [match ?v with VArr _ => _ | _ => _ end] => destruct v
         end;
    try exact H0; now apply unique_set.
Qed.

(** An image that is created, from [create] or from [text], is never a
    stream and carries no data: whenever [_createInputDescriptor]
    returns a descriptor for options with [create] or [text], the
    descriptor has no [buffer], also when the options were given as a
    plain object with stream parameters, which first marks the input as a
    stream. *)
Theorem created_images_carry_no_buffer (getBg : value -> completion value)
    (input inputOptions containerOptions : value) (this this' : Sharp) (d : props) :
  _createInputDescriptor getBg input inputOptions containerOptions this
  = (Normal (VObj d), this') ->
  let o := Input.fields (options_used input inputOptions) in
  is_defined o.["create"] || is_defined o.["text"] = true ->
  d.["buffer"] = VUndefined.
Proof.
  intros Hrun o Hmade.
  apply createInputDescriptor_halves in Hrun as (d' & Hoptions & [= ->]).
  apply options_as_object in Hoptions. fold o in Hoptions.
  exact (proj2 (created_without_buffer getBg this' input o Hmade _ tt _
                  (source_descriptor_unique input inputOptions) Hoptions)).
Qed.

Lemma created_images_carry_no_buffer_witness :
  let input := VObj [("create", VObj [("width", VNum 8); ("height", VNum 8);
                                     ("channels", VNum 3);
                                     ("background", VStr "red")]);
                     ("density", VNum 72)] in
  (source_descriptor input VUndefined).["buffer"] = VArr []
  /\ exists d,
       _createInputDescriptor (fun v => Normal v) input VUndefined VUndefined an_instance
       = (Normal (VObj d), an_instance)
       /\ d.["buffer"] = VUndefined.
Proof.
  intros input. split; [reflexivity |].
  eexists. split; [reflexivity |].
  exact (created_images_carry_no_buffer (fun v => Normal v) input VUndefined VUndefined
           an_instance an_instance _ eq_refl eq_refl).
Defined.

(** ** Stream parameters that are never read *)

(** Two names in the list of stream parameters do not match what the
    validation reads.  A plain object with [openSlideLevel] or
    [tiffSubifd] counts as stream input with options, yet the value is
    neither checked nor stored; the names that are read, [level] and
    [subifd], store the value but the object does not count as stream
    input. *)
Theorem unread_stream_parameters (getBg : value -> completion value)
    (v containerOptions : value) (this : Sharp) :
  is_defined v = true ->
  let build name :=
    _createInputDescriptor getBg (one name v) VUndefined containerOptions this in
  build "openSlideLevel" = (Normal (VObj (set "buffer" (VArr []) inputDescriptor0)), this)
  /\ build "tiffSubifd" = (Normal (VObj (set "buffer" (VArr []) inputDescriptor0)), this)
  /\ (is_integer v && is_inRange v 0 256 = true ->
      build "level" = (Normal (VObj (set "openSlideLevel" v inputDescriptor0)), this))
  /\ (is_integer v && is_inRange v (-1) 100000 = true ->
      build "subifd" = (Normal (VObj (set "tiffSubifd" v inputDescriptor0)), this)).
Proof.
  intros Hd build. subst build. unfold one.
  assert (Hleft : forall a b : bool, a || b = true -> a = true \/ b = true)
    by (intros [|] [|]; tauto).
  split; [| split; [| split]].
  - simpl. unfold _inputOptionsFromObject. simpl. rewrite Hd. reflexivity.
  - simpl. unfold _inputOptionsFromObject. simpl. rewrite Hd. reflexivity.
  - intros Hv. simpl. unfold _inputOptionsFromObject. simpl.
    unfold bind, ret. simpl. unfold inputOptions_into_descriptor. simpl.
    unfold bind, ret, when, check, put, properties. simpl. rewrite Hd, Hv. reflexivity.
  - intros Hv. simpl. unfold _inputOptionsFromObject. simpl.
    unfold bind, ret. simpl. unfold inputOptions_into_descriptor. simpl.
    unfold bind, ret, when, check, put, properties. simpl. rewrite Hd, Hv. reflexivity.
Qed.

Lemma unread_stream_parameters_witness :
  _createInputDescriptor (fun v => Normal v) (one "openSlideLevel" (VStr "two"))
    VUndefined VUndefined an_instance
  = (Normal (VObj (set "buffer" (VArr []) inputDescriptor0)), an_instance).
Proof.
  exact (proj1 (unread_stream_parameters (fun v => Normal v) (VStr "two") VUndefined
                  an_instance eq_refl)).
Defined.

(** ** Chunks of a stream *)

Lemma Buffer_concat_buffers (chunks : list value) :
  forallb is_buffer chunks = true -> Buffer_concat chunks = Normal (bytes_of chunks).
Proof.
  unfold bytes_of. induction chunks as [| c rest IH]; [reflexivity |].
  simpl. intros H. apply andb_prop in H as [Hc Hrest].
  rewrite Hc. destruct c; try discriminate. simpl. now rewrite (IH Hrest).
Qed.

Lemma filter_twice {A} (f : A -> bool) (l : list A) :
  List.filter f (List.filter f l) = List.filter f l.
Proof.
  induction l as [| a rest IH]; [reflexivity |].
  simpl. destruct (f a) eqn:Hf; simpl; [rewrite Hf |]; now rewrite ?IH.
Qed.

Lemma writes_run (chunks : list value) :
  forall (this : Sharp) (i : props) (held : list value),
    (options this).["input"] = VObj i -> i.["buffer"] = VArr held ->
    exists this' i',
      writes chunks this = (Normal (answers (List.length held) chunks), this')
      /\ (options this').["input"] = VObj i'
      /\ i'.["buffer"] = VArr (List.app held (List.filter is_buffer chunks))
      /\ (forall k, String.eqb k "input" = false -> (options this').[k] = (options this).[k]).
Proof.
  induction chunks as [| c rest IH]; intros this i held Hinput Hheld.
  - exists this, i. simpl. rewrite app_nil_r. now repeat split.
  - simpl. unfold bind at 1. unfold _write at 1. js_unfold. rewrite Hinput. simpl.
    rewrite Hheld. destruct (is_buffer c) eqn:Hc; simpl.
    + match goal with |- context [writes rest ?st] =>
        destruct (IH st (set "buffer" (VArr (List.app held [c])) i) (List.app held [c])
                    (get_set_same _ _ _) (get_set_same _ _ _))
          as (this' & i' & Hrun & Hinput' & Hheld' & Hframe)
      end.
      exists this', i'. rewrite Hrun. simpl.
      rewrite length_app in *. simpl in *. rewrite Nat.add_1_r.
      split; [reflexivity |]. split; [exact Hinput' |].
      split; [now rewrite <- app_assoc in Hheld' |].
      intros k Hk. rewrite Hframe by exact Hk. simpl. now apply get_set_other.
    + destruct (IH this i held Hinput Hheld) as (this' & i' & Hrun & Hinput' & Hheld' & Hframe).
      exists this', i'. rewrite Hrun. simpl. now repeat split.
Qed.

Lemma flatten_run (this : Sharp) (i : props) (held : list value) :
  (options this).["input"] = VObj i -> i.["buffer"] = VArr held ->
  forallb is_buffer held = true ->
  _flattenBufferIn this
  = (Normal tt,
     {| options := set "input" (VObj (set "buffer" (VBuffer (bytes_of held)) i))
                     (options this);
        constructor := constructor this |}).
Proof.
  intros Hinput Hheld Hall.
  unfold _flattenBufferIn, _isStreamInput. js_unfold.
  rewrite Hinput. simpl. rewrite Hheld. simpl. rewrite Hinput. simpl. rewrite Hheld.
  now rewrite (Buffer_concat_buffers _ Hall).
Qed.

Lemma no_stream (this : Sharp) (i : props) :
  (options this).["input"] = VObj i -> (forall held, i.["buffer"] <> VArr held) ->
  _isStreamInput this = (Normal false, this)
  /\ _flattenBufferIn this = (Normal tt, this)
  /\ (forall chunk,
        _write chunk this
        = (Normal (Refused (Error [Text "Unexpected data on Writable Stream"])), this)).
Proof.
  intros Hinput Hnot.
  unfold _flattenBufferIn, _isStreamInput, _write. js_unfold.
  rewrite Hinput. simpl.
  destruct (i.["buffer"]) as [| | | | | | held | | | |];
    try (now repeat split). now destruct (Hnot held).
Qed.

(** The life of a stream input.  On an instance that expects a stream,
    writing chunks takes every Buffer, the first one registering the
    [finish] listener, and refuses everything else; flattening then
    leaves the bytes of the Buffers, concatenated in the order they were
    written, as the input buffer.  From then on the input is no stream:
    flattening again changes nothing, and a further chunk is refused as
    unexpected. *)
Theorem stream_chunks_are_concatenated (chunks : list value) (this : Sharp) (i : props) :
  (options this).["input"] = VObj i -> i.["buffer"] = VArr [] ->
  exists this1 this2 i2,
    writes chunks this = (Normal (answers 0 chunks), this1)
    /\ _flattenBufferIn this1 = (Normal tt, this2)
    /\ (options this2).["input"] = VObj i2
    /\ i2.["buffer"] = VBuffer (bytes_of chunks)
    /\ _isStreamInput this2 = (Normal false, this2)
    /\ _flattenBufferIn this2 = (Normal tt, this2)
    /\ (forall chunk,
          _write chunk this2
          = (Normal (Refused (Error [Text "Unexpected data on Writable Stream"])), this2)).
Proof.
  intros Hinput Hbuffer.
  destruct (writes_run chunks this i [] Hinput Hbuffer)
    as (this1 & i1 & Hrun & Hinput1 & Hheld & _).
  simpl in Hrun, Hheld.
  assert (Hall : forallb is_buffer (List.filter is_buffer chunks) = true).
  { apply forallb_forall. intros c Hc. now apply filter_In in Hc. }
  assert (Hbytes : bytes_of (List.filter is_buffer chunks) = bytes_of chunks).
  { unfold bytes_of. now rewrite filter_twice. }
  pose proof (flatten_run this1 i1 _ Hinput1 Hheld Hall) as Hflat. rewrite Hbytes in Hflat.
  eexists this1, _, _. split; [exact Hrun |]. split; [exact Hflat |].
  split; [apply get_set_same |]. split; [apply get_set_same |].
  apply (no_stream _ (set "buffer" (VBuffer (bytes_of chunks)) i1)).
  - apply get_set_same.
  - intros held. rewrite get_set_same. discriminate.
Qed.

Lemma stream_chunks_are_concatenated_witness :
  let this := {| options := set "input" (VObj (set "buffer" (VArr []) inputDescriptor0))
                              (options an_instance);
                 constructor := constructor an_instance |} in
  let chunks := [VBuffer [Byte.x89; Byte.x50]; VStr "PNG"; VBuffer [Byte.x4e; Byte.x47]] in
  exists this1 this2 i2,
    writes chunks this
    = (Normal [Accepted true;
               Refused (Error [Text "Non-Buffer data on Writable Stream"]);
               Accepted false], this1)
    /\ _flattenBufferIn this1 = (Normal tt, this2)
    /\ (options this2).["input"] = VObj i2
    /\ i2.["buffer"] = VBuffer [Byte.x89; Byte.x50; Byte.x4e; Byte.x47].
Proof.
  intros this chunks.
  destruct (stream_chunks_are_concatenated chunks this
              (set "buffer" (VArr []) inputDescriptor0) eq_refl eq_refl)
    as (this1 & this2 & i2 & Hrun & Hflat & Hinput & Hbuffer & _).
  exists this1, this2, i2. repeat split; assumption.
Defined.
